(* ===================================================================== *)
(* mushroom-rl environment adapters: a shallow embedding of              *)
(*   x_mushroom_rl/environments/atari.py   (MaxAndSkip, Atari)           *)
(*   x_mushroom_rl/environments/gym_env.py (Gym)                         *)
(* and the properties of the adapters stated in the specification.       *)
(* ===================================================================== *)

From Stdlib Require Import ZArith QArith Lia Ascii String.
From stdpp Require Import base option list strings gmap.

Local Open Scope Z_scope.

(* --------------------------------------------------------------------- *)
(* Python exceptions and fallible computations                           *)
(* --------------------------------------------------------------------- *)

Inductive exn : Type :=
| UnboundLocalError | KeyError | IndexError | ValueError
| AssertionError | TypeError | AttributeError | SimulatorError.

Inductive result (A : Type) : Type :=
| Ok (a : A)
| Raise (e : exn).
Arguments Ok {A} a.
Arguments Raise {A} e.

#[global] Instance result_ret : MRet result := fun _ a => Ok a.
#[global] Instance result_bind : MBind result := fun _ _ f m =>
  match m with Ok a => f a | Raise e => Raise e end.

Definition from_option {A} (e : exn) (o : option A) : result A :=
  match o with Some a => Ok a | None => Raise e end.

(* --------------------------------------------------------------------- *)
(* Rewards: the loop of MaxAndSkip.step only needs a zero and an addition *)
(* (Python floats; no algebraic law of the addition is assumed).         *)
(* --------------------------------------------------------------------- *)

Class Reward (R : Type) := { r_zero : R; r_add : R → R → R }.

#[global] Instance Z_reward : Reward Z := {| r_zero := 0; r_add := Z.add |}.

(* total = 0.; for r in rs: total += r *)
Definition reward_sum `{Reward R} (rs : list R) : R := fold_left r_add rs r_zero.

(* --------------------------------------------------------------------- *)
(* Frames                                                                *)
(* --------------------------------------------------------------------- *)

(* A raw frame is the row-major list of its pixels. *)
Definition Frame := list Z.

(* An array of pixels with its dtype: uint8 frames, and the float64 frames
   produced by ndarray.mean. *)
Inductive ndarray : Type :=
| U8 (px : list Z)
| F64 (px : list Q).

(* Storing into a dtype=np.uint8 buffer wraps modulo 2^8. *)
Definition to_uint8 (v : Z) : Z := v mod 256.

Definition is_uint8 (v : Z) : Prop := 0 ≤ v < 256.

(* np.zeros(shape, dtype=np.uint8), flattened *)
Definition np_zeros (shape : list nat) : Frame :=
  replicate (foldr Nat.mul 1%nat shape) 0.

(* buffer.max(axis=0) of a (2, ...) uint8 buffer *)
Definition frame_max (f0 f1 : Frame) : ndarray := U8 (zip_with Z.max f0 f1).

(* buffer.mean(axis=0) of a (2, ...) uint8 buffer: float64 (a + b) / 2,
   exact for 8-bit operands *)
Definition mean2 (a b : Z) : Q := Qred (inject_Z (a + b) / 2)%Q.
Definition frame_mean (f0 f1 : Frame) : ndarray := F64 (zip_with mean2 f0 f1).

(* --------------------------------------------------------------------- *)
(* The simulator boundary (gym)                                          *)
(* --------------------------------------------------------------------- *)

(* obs, reward, absorbing, info = env.step(action) *)
Record Outcome (R : Type) : Type := mkOutcome {
  o_obs : Frame;
  o_reward : R;
  o_absorbing : bool;
  o_info : gmap string Z
}.
Arguments mkOutcome {R}.
Arguments o_obs {R}.
Arguments o_reward {R}.
Arguments o_absorbing {R}.
Arguments o_info {R}.

(* What the adapters use of the gym library and of an environment made by
   it.  [Sim] is the state of the external simulator. *)
Record GymLib (R Sim : Type) : Type := mkGymLib {
  gym_make : string → Sim;
  env_reset : Sim → Sim * Frame;
  env_step : Sim → Z → Sim * Outcome R;
  ale_lives : Sim → Z;                          (* env.unwrapped.ale.lives() *)
  get_action_meanings : Sim → list string;     (* env.unwrapped.get_action_meanings() *)
  observation_space_shape : Sim → list nat     (* env.observation_space.shape *)
}.
Arguments gym_make {R Sim}.
Arguments env_reset {R Sim}.
Arguments env_step {R Sim}.
Arguments ale_lives {R Sim}.
Arguments get_action_meanings {R Sim}.
Arguments observation_space_shape {R Sim}.

(* The calls made on the simulator, in order (a ghost trace). *)
Inductive Call : Type :=
| CReset
| CStep (action : Z)
| CClose.

Record Handle (Sim : Type) : Type := mkHandle {
  sim : Sim;
  calls : list Call
}.
Arguments mkHandle {Sim}.
Arguments sim {Sim}.
Arguments calls {Sim}.

Module AtariEnv.

Section MaxAndSkip.

Context {R : Type} `{Reward R} {Sim : Type} (G : GymLib R Sim).

Definition raw_step (h : Handle Sim) (action : Z) : Handle Sim * Outcome R :=
  let '(s', out) := env_step G (sim h) action in
  (mkHandle s' (calls h ++ [CStep action]), out).

Definition raw_reset (h : Handle Sim) : Handle Sim * Frame :=
  let '(s', obs) := env_reset G (sim h) in
  (mkHandle s' (calls h ++ [CReset]), obs).

(* class MaxAndSkip(gym.Wrapper): the wrapper's own attributes *)
Record MaxAndSkip : Type := mkMaxAndSkip {
  _obs_buffer : Frame * Frame;
  _skip : Z;
  _max_pooling : bool
}.

(* MaxAndSkip.__init__ *)
Definition MaxAndSkip_init (env : Handle Sim) (skip : Z) (max_pooling : bool)
  : MaxAndSkip :=
  let z := np_zeros (observation_space_shape G (sim env)) in
  {| _obs_buffer := (z, z); _skip := skip; _max_pooling := max_pooling |}.

(* self._obs_buffer[0] = obs  /  self._obs_buffer[1] = obs: the frame of
   the simulator has the shape of its observation space, and its pixels are
   cast to the dtype of the buffer *)
Definition store0 (w : MaxAndSkip) (obs : Frame) : MaxAndSkip :=
  {| _obs_buffer := (to_uint8 <$> obs, (_obs_buffer w).2);
     _skip := _skip w; _max_pooling := _max_pooling w |}.
Definition store1 (w : MaxAndSkip) (obs : Frame) : MaxAndSkip :=
  {| _obs_buffer := ((_obs_buffer w).1, to_uint8 <$> obs);
     _skip := _skip w; _max_pooling := _max_pooling w |}.

(* The locals of MaxAndSkip.step that survive the loop. *)
Record LoopState : Type := mkLoop {
  l_wrapper : MaxAndSkip;
  l_env : Handle Sim;
  l_total : R;
  l_last : option (bool * gmap string Z)     (* absorbing, info: unbound before the first pass *)
}.

(* for i in range(self._skip): ...  -- [n] passes remain, [i] is the index *)
Fixpoint skip_loop (n : nat) (i : Z) (action : Z) (st : LoopState) : LoopState :=
  match n with
  | O => st
  | S n' =>
    let '(h', out) := raw_step (l_env st) action in
    let w0 := l_wrapper st in
    let w1 := if i =? _skip w0 - 2 then store0 w0 (o_obs out) else w0 in
    let w2 := if i =? _skip w0 - 1 then store1 w1 (o_obs out) else w1 in
    let st' := mkLoop w2 h' (r_add (l_total st) (o_reward out))
                      (Some (o_absorbing out, o_info out)) in
    if o_absorbing out then st' else skip_loop n' (i + 1) action st'
  end.

Definition pool (w : MaxAndSkip) : ndarray :=
  if _max_pooling w then frame_max (_obs_buffer w).1 (_obs_buffer w).2
  else frame_mean (_obs_buffer w).1 (_obs_buffer w).2.

(* MaxAndSkip.step *)
Definition MaxAndSkip_step (w : MaxAndSkip) (env : Handle Sim) (action : Z)
  : result (MaxAndSkip * Handle Sim * (ndarray * R * bool * gmap string Z)) :=
  let st := skip_loop (Z.to_nat (_skip w)) 0 action (mkLoop w env r_zero None) in
  let frame := pool (l_wrapper st) in
  match l_last st with
  | None => Raise UnboundLocalError
  | Some (absorbing, info) =>
    Ok (l_wrapper st, l_env st, (frame, l_total st, absorbing, info))
  end.

(* MaxAndSkip.reset *)
Definition MaxAndSkip_reset (w : MaxAndSkip) (env : Handle Sim)
  : MaxAndSkip * Handle Sim * Frame :=
  let '(h', obs) := raw_reset env in (w, h', obs).

End MaxAndSkip.

(* --------------------------------------------------------------------- *)
(* Strings, as the constructor inspects the game name                    *)
(* --------------------------------------------------------------------- *)

(* pat in s *)
Fixpoint str_contains (pat s : string) : bool :=
  String.prefix pat s ||
  match s with
  | EmptyString => false
  | String _ s' => str_contains pat s'
  end.

(* s.replace(pat, '') for a non-empty pat: [skip] characters of a match
   are still to be dropped *)
Fixpoint str_remove_from (pat : string) (skip : nat) (s : string) : string :=
  match s with
  | EmptyString => EmptyString
  | String c s' =>
    match skip with
    | S k => str_remove_from pat k s'
    | O =>
      if String.prefix pat s then str_remove_from pat (String.length pat - 1) s'
      else String c (str_remove_from pat 0 s')
    end
  end.
Definition str_remove (pat s : string) : string := str_remove_from pat 0 s.

Definition ascii_lower (c : ascii) : ascii :=
  let n := nat_of_ascii c in
  if (65 <=? n)%nat && (n <=? 90)%nat then ascii_of_nat (n + 32) else c.

(* s.lower() *)
Fixpoint str_lower (s : string) : string :=
  match s with
  | EmptyString => EmptyString
  | String c s' => String (ascii_lower c) (str_lower s')
  end.

(* s.lower()[:4] *)
Definition lower4 (s : string) : string := String.substring 0 4 (str_lower s).

(* --------------------------------------------------------------------- *)
(* collections.deque with a maxlen                                       *)
(* --------------------------------------------------------------------- *)

Record deque (A : Type) : Type := mkDeque {
  items : list A;
  maxlen : Z
}.
Arguments mkDeque {A}.
Arguments items {A}.
Arguments maxlen {A}.

(* the last [n] elements of [l] *)
Definition last_n {A} (n : nat) (l : list A) : list A := drop (length l - n) l.

(* deque(iterable, maxlen=m) *)
Definition deque_new {A} (l : list A) (m : Z) : result (deque A) :=
  if m <? 0 then Raise ValueError
  else Ok (mkDeque (last_n (Z.to_nat m) l) m).

(* d.append(x): the oldest item is dropped when the deque is full *)
Definition deque_append {A} (d : deque A) (x : A) : deque A :=
  mkDeque (last_n (Z.to_nat (maxlen d)) (items d ++ [x])) (maxlen d).

(* np.random.randint(high): an integer of [0, high), ValueError when the
   interval is empty.  [u] is the raw output of the generator. *)
Definition np_random_randint (high : Z) (u : Z) : result Z :=
  if high <=? 0 then Raise ValueError else Ok (u mod high).

(* --------------------------------------------------------------------- *)
(* class Atari(Environment)                                              *)
(* --------------------------------------------------------------------- *)

Section Atari.

Context {R : Type} `{Reward R} {Sim : Type} (G : GymLib R Sim).

(* x_mushroom_rl.utils.frames.preprocess_frame is not part of the sources
   at hand: the preprocessed frames and the function are parameters. *)
Context {PFrame : Type}.
Context (preprocess_frame : ndarray → option (option Z * option Z) → bool → PFrame).

(* The optional atariari dependency, probed at import time. *)
Context (ATARI_ARI_INSTALLED : bool) (atari_dict_keys : list string).

(** Modelled from the spec: LazyFrames of x_mushroom_rl.utils.frames, the
    stacked observation handed to the agent; it holds the frames of the
    history buffer, in order, and the history length. *)
Record LazyFrames : Type := mkLazyFrames {
  lf_frames : list PFrame;
  lf_history_length : Z
}.

(* self.env: the frame-skip wrapper over the made environment, or the made
   environment (under the AtariARI wrapper or as it is).  The wrappers that
   belong to gym or atariari forward step and reset, and are part of the
   simulator boundary [G]. *)
Inductive EnvObj : Type :=
| EMaxAndSkip (w : MaxAndSkip) (h : Handle Sim)
| EAtariARI (h : Handle Sim)
| EPlain (h : Handle Sim).

Definition handle (e : EnvObj) : Handle Sim :=
  match e with EMaxAndSkip _ h | EAtariARI h | EPlain h => h end.

Definition with_handle (e : EnvObj) (h : Handle Sim) : EnvObj :=
  match e with
  | EMaxAndSkip w _ => EMaxAndSkip w h
  | EAtariARI _ => EAtariARI h
  | EPlain _ => EPlain h
  end.

(* self.env.env.step(a): one step of the inner environment *)
Definition inner_step (e : EnvObj) (action : Z) : EnvObj :=
  with_handle e (raw_step G (handle e) action).1.

(* self.env.step(action) *)
Definition wrapped_step (e : EnvObj) (action : Z)
  : result (EnvObj * (ndarray * R * bool * gmap string Z)) :=
  match e with
  | EMaxAndSkip w h =>
    '(w', h', out) ← MaxAndSkip_step G w h action;
    mret (EMaxAndSkip w' h', out)
  | _ =>
    let '(h', o) := raw_step G (handle e) action in
    mret (with_handle e h', (U8 (o_obs o), o_reward o, o_absorbing o, o_info o))
  end.

(* self.env.reset() *)
Definition wrapped_reset (e : EnvObj) : EnvObj * Frame :=
  let '(h', obs) := raw_reset G (handle e) in (with_handle e h', obs).

Record Atari : Type := mkAtari {
  env : EnvObj;
  augmented : bool;
  grey_and_rescale : bool;
  _img_size : option (option Z * option Z);
  _episode_ends_at_life : bool;
  _max_lives : Z;
  _lives : Z;
  _force_fire : option bool;
  _real_reset : bool;
  _max_no_op_actions : Z;
  _history_length : Z;
  _current_no_op : option Z;
  _state : option (deque PFrame)       (* unset until the first reset *)
}.

(* self.env.unwrapped.get_action_meanings()[i] == s *)
Definition action_meaning_is (e : EnvObj) (i : nat) (s : string) : result bool :=
  m ← from_option IndexError (get_action_meanings G (sim (handle e)) !! i);
  mret (bool_decide (m = s)).

(* Atari.__init__.  The MDPInfo built from Box and Discrete (modules outside
   the sources at hand) is passed to Environment.__init__ and read by no
   method of the adapter; it is not part of the record. *)
Definition Atari_init (name : string) (width height : option Z)
    (ends_at_life max_pooling : bool) (history_length max_no_op_actions : Z)
  : result Atari :=
  let '(e, aug) :=
    if str_contains "NoFrameskip" name then
      let h := mkHandle (gym_make G name) [] in
      (EMaxAndSkip (MaxAndSkip_init G h history_length max_pooling) h, false)
    else if str_contains "-Augmented" name && ATARI_ARI_INSTALLED then
      let name := str_remove "-Augmented" name in
      if bool_decide (lower4 name ∈ lower4 <$> atari_dict_keys)
      then (EAtariARI (mkHandle (gym_make G name) []), true)
      else (EPlain (mkHandle (gym_make G name) []), true)
    else (EPlain (mkHandle (gym_make G name) []), false) in
  let '(grey, img_size) :=
    match width, height with
    | None, None => (false, None)
    | _, _ => (true, Some (width, height))
    end in
  let max_lives := ale_lives G (sim (handle e)) in
  noop ← action_meaning_is e 0 "NOOP";
  if noop : bool then
    mret {| env := e; augmented := aug; grey_and_rescale := grey;
            _img_size := img_size; _episode_ends_at_life := ends_at_life;
            _max_lives := max_lives; _lives := max_lives;
            _force_fire := None; _real_reset := true;
            _max_no_op_actions := max_no_op_actions;
            _history_length := history_length;
            _current_no_op := None; _state := None |}
  else Raise AssertionError.

(* Atari(name): the defaults of the constructor *)
Definition Atari_init_default (name : string) : result Atari :=
  Atari_init name (Some 84) (Some 84) false true 4 30.

(* Atari.reset; [u] is the raw output of the random generator *)
Definition Atari_reset (a : Atari) (u : Z) : result (Atari * LazyFrames) :=
  '(e, st, lives) ←
    (if _real_reset a then
       let '(e, obs) := wrapped_reset (env a) in
       let f := preprocess_frame (U8 obs) (_img_size a) (grey_and_rescale a) in
       d ← deque_new (replicate (Z.to_nat (_history_length a)) f) (_history_length a);
       mret (e, Some d, _max_lives a)
     else mret (env a, _state a, _lives a));
  fire ← action_meaning_is e 1 "FIRE";
  no_op ← np_random_randint (_max_no_op_actions a + 1) u;
  d ← from_option AttributeError st;
  mret ({| env := e; augmented := augmented a;
           grey_and_rescale := grey_and_rescale a; _img_size := _img_size a;
           _episode_ends_at_life := _episode_ends_at_life a;
           _max_lives := _max_lives a; _lives := lives;
           _force_fire := Some fire; _real_reset := _real_reset a;
           _max_no_op_actions := _max_no_op_actions a;
           _history_length := _history_length a;
           _current_no_op := Some no_op; _state := Some d |},
        mkLazyFrames (items d) (_history_length a)).

(* while self._current_no_op > 0: self.env.env.step(0); self._current_no_op -= 1
   -- at most [fuel] passes *)
Fixpoint noop_loop (fuel : nat) (e : EnvObj) (n : Z) : EnvObj * Z :=
  match fuel with
  | O => (e, n)
  | S fuel' => if 0 <? n then noop_loop fuel' (inner_step e 0) (n - 1) else (e, n)
  end.

(* Atari.step, before the caller's action: the forced FIRE and the no-op
   actions.  The result is the environment, the force-fire flag and the
   no-op counter after them. *)
Definition prime (a : Atari) : result (EnvObj * option bool * Z) :=
  let '(e1, fire1) :=
    match _force_fire a with
    | Some true => (inner_step (env a) 1, Some false)
    | ff => (env a, ff)
    end in
  n ← from_option TypeError (_current_no_op a);
  let '(e2, n2) := noop_loop (Z.to_nat n) e1 n in
  mret (e2, fire1, n2).

(* Atari.step up to its return statements: the adapter after the step and
   the stacked view, reward, absorbing, info and obs to return *)
Definition Atari_step_locals (a : Atari) (action : Z)
  : result (Atari * (LazyFrames * R * bool * gmap string Z * ndarray)) :=
  '(e2, fire1, n2) ← prime a;
  '(e3, (obs, reward, absorbing, info)) ← wrapped_step e2 action;
  let real_reset := absorbing in
  lives ← from_option KeyError (info !! "ale.lives");
  '(absorbing', lives', fire') ←
    (if bool_decide (lives ≠ _lives a) then
       fire ← action_meaning_is e3 1 "FIRE";
       mret (if _episode_ends_at_life a then true else absorbing, lives, Some fire)
     else mret (absorbing, _lives a, fire1));
  d ← from_option AttributeError (_state a);
  let d' := deque_append d
              (preprocess_frame obs (_img_size a) (grey_and_rescale a)) in
  mret ({| env := e3; augmented := augmented a;
           grey_and_rescale := grey_and_rescale a; _img_size := _img_size a;
           _episode_ends_at_life := _episode_ends_at_life a;
           _max_lives := _max_lives a; _lives := lives';
           _force_fire := fire'; _real_reset := real_reset;
           _max_no_op_actions := _max_no_op_actions a;
           _history_length := _history_length a;
           _current_no_op := Some n2; _state := Some d' |},
        (mkLazyFrames (items d') (_history_length a),
         reward, absorbing', info, obs)).

(* What Atari.step returns; the raw observation comes with it in augmented
   mode only. *)
Record StepOut : Type := mkStepOut {
  s_frames : LazyFrames;
  s_reward : R;
  s_absorbing : bool;
  s_info : gmap string Z;
  s_obs : option ndarray
}.

(* Atari.step *)
Definition Atari_step (a : Atari) (action : Z) : result (Atari * StepOut) :=
  '(a', (frames, reward, absorbing, info, obs)) ← Atari_step_locals a action;
  mret (a', {| s_frames := frames; s_reward := reward;
               s_absorbing := absorbing; s_info := info;
               s_obs := if augmented a then Some obs else None |}).

(* Atari.stop *)
Definition Atari_stop (a : Atari) : Atari :=
  let h := handle (env a) in
  {| env := with_handle (env a) (mkHandle (sim h) (calls h ++ [CClose]));
     augmented := augmented a;
     grey_and_rescale := grey_and_rescale a; _img_size := _img_size a;
     _episode_ends_at_life := _episode_ends_at_life a;
     _max_lives := _max_lives a; _lives := _lives a;
     _force_fire := _force_fire a; _real_reset := true;
     _max_no_op_actions := _max_no_op_actions a;
     _history_length := _history_length a;
     _current_no_op := _current_no_op a; _state := _state a |}.

(* Atari.set_episode_end *)
Definition Atari_set_episode_end (a : Atari) (ends_at_life : bool) : Atari :=
  {| env := env a; augmented := augmented a;
     grey_and_rescale := grey_and_rescale a; _img_size := _img_size a;
     _episode_ends_at_life := ends_at_life;
     _max_lives := _max_lives a; _lives := _lives a;
     _force_fire := _force_fire a; _real_reset := _real_reset a;
     _max_no_op_actions := _max_no_op_actions a;
     _history_length := _history_length a;
     _current_no_op := _current_no_op a; _state := _state a |}.

(* successive calls of step, with what each one has at its return
   statement (stacked view, reward, absorbing, info, obs), in order *)
Fixpoint Atari_steps (a : Atari) (actions : list Z)
  : result (Atari * list (LazyFrames * R * bool * gmap string Z * ndarray)) :=
  match actions with
  | [] => mret (a, [])
  | action :: rest =>
    '(a1, l) ← Atari_step_locals a action;
    '(a2, ls) ← Atari_steps a1 rest;
    mret (a2, l :: ls)
  end.

(* the frame a step pushes on the history buffer, and the frames of the
   stacked view it returns *)
Definition pushed (a : Atari)
    (l : LazyFrames * R * bool * gmap string Z * ndarray) : PFrame :=
  preprocess_frame l.2 (_img_size a) (grey_and_rescale a).
Definition view_of (l : LazyFrames * R * bool * gmap string Z * ndarray)
  : list PFrame :=
  lf_frames l.1.1.1.1.

(* The adapters an experiment can come to: constructed, then driven through
   the methods. *)
Inductive reachable : Atari → Prop :=
| reach_init name width height ends_at_life max_pooling history_length
    max_no_op_actions a :
    Atari_init name width height ends_at_life max_pooling history_length
      max_no_op_actions = Ok a →
    reachable a
| reach_reset a u a' frames :
    reachable a → Atari_reset a u = Ok (a', frames) → reachable a'
| reach_step a action a' out :
    reachable a → Atari_step a action = Ok (a', out) → reachable a'
| reach_stop a : reachable a → reachable (Atari_stop a)
| reach_set_episode_end a ends_at_life :
    reachable a → reachable (Atari_set_episode_end a ends_at_life).

(* the environment after the priming steps of a step *)
Definition prime_env (a : Atari) : EnvObj :=
  match prime a with
  | Ok (e2, _, _) => e2
  | Raise _ => env a
  end.

(* the calls of the priming steps of a step that finds the no-op counter at
   [n]: the forced FIRE, then the no-ops *)
Definition priming_calls (a : Atari) (n : Z) : list Call :=
  (match _force_fire a with Some true => [CStep 1] | _ => [] end)
  ++ replicate (Z.to_nat n) (CStep 0).

(* a call that steps the simulator *)
Definition is_step (c : Call) : Prop := ∃ action, c = CStep action.

(* The history buffer, once there is one, is full and of the capacity
   history_length; there is none before the first reset only, which is a
   full reset. *)
Definition buffer_full (a : Atari) : Prop :=
  match _state a with
  | Some d => maxlen d = _history_length a
              ∧ Z.of_nat (length (items d)) = _history_length a
  | None => _real_reset a = true
  end.

(* the skip count of the frame-skip wrapper, if there is one *)
Definition skip_of (e : EnvObj) : option Z :=
  match e with EMaxAndSkip w _ => Some (_skip w) | _ => None end.

(* The skip count of the frame-skip wrapper is the history length. *)
Definition skip_is_history (a : Atari) : Prop :=
  match skip_of (env a) with
  | Some skip => skip = _history_length a
  | None => True
  end.

(* the environment after the simulator reset of Atari.reset, if it is due *)
Definition reset_env (a : Atari) : EnvObj :=
  if _real_reset a then (wrapped_reset (env a)).1 else env a.

(* the frame the simulator shows on reset, preprocessed *)
Definition reset_frame (a : Atari) : PFrame :=
  preprocess_frame (U8 (wrapped_reset (env a)).2) (_img_size a)
    (grey_and_rescale a).

(* what Atari.reset needs to complete *)
Definition can_reset (a : Atari) : Prop :=
  0 ≤ _max_no_op_actions a
  ∧ is_Some (get_action_meanings G (sim (handle (reset_env a))) !! 1%nat)
  ∧ if _real_reset a then 0 ≤ _history_length a else is_Some (_state a).

(* Games as the arcade learning environment has them: every step reports
   the lives left and there are two actions at least. *)
Definition ale_game : Prop :=
  (∀ s action, is_Some (o_info (env_step G s action).2 !! "ale.lives"))
  ∧ (∀ s, is_Some (get_action_meanings G s !! 1%nat)).

(* the skip count of the frame-skip wrapper, if there is one, is positive *)
Definition skips (e : EnvObj) : Prop :=
  match skip_of e with Some skip => 1 ≤ skip | None => True end.

End Atari.

End AtariEnv.

(* --------------------------------------------------------------------- *)
(* class Gym(Environment)                                                *)
(* --------------------------------------------------------------------- *)

Module GymEnv.

(* A numeric value: a scalar (no dimension) or an array, by its shape and
   its row-major data. *)
Record ndvalue : Type := mkNd {
  nd_shape : list nat;
  nd_data : list Q
}.

Definition ndim (v : ndvalue) : nat := length (nd_shape v).

(* np.atleast_1d(v): a value without dimension is reshaped to (1,) *)
Definition np_atleast_1d (v : ndvalue) : ndvalue :=
  match nd_shape v with
  | [] => mkNd [1%nat] (nd_data v)
  | _ => v
  end.

(* a[0] *)
Definition index0 (a : ndvalue) : result ndvalue :=
  match nd_shape a with
  | [] => Raise IndexError
  | O :: _ => Raise IndexError
  | S _ :: ds => Ok (mkNd ds (take (foldr Nat.mul 1%nat ds) (nd_data a)))
  end.

(* gym.spaces *)
#[warnings="-register-all"]
Inductive GymSpace : Type :=
| GDiscrete (n : Z)
| GBox (low high : ndvalue) (shape : list nat)
| GMultiDiscrete (nvec : list Z)
| GMultiBinary (n : Z)
| GTuple (spaces : list GymSpace)
| GDict (spaces : list (string * GymSpace)).

Definition is_GMultiDiscrete (s : GymSpace) : bool :=
  match s with GMultiDiscrete _ => true | _ => false end.

(* the kinds of space the adapter converts *)
Definition is_GDiscrete_or_GBox (s : GymSpace) : bool :=
  match s with GDiscrete _ | GBox _ _ _ => true | _ => false end.

(** Modelled from the spec: the space descriptors of
    x_mushroom_rl.utils.spaces, Discrete{n} and Box{low, high, shape},
    immutable records of what they were built from. *)
Inductive Space : Type :=
| Discrete (n : Z)
| Box (low high : ndvalue) (shape : list nat).

Definition is_Discrete (s : Space) : bool :=
  match s with Discrete _ => true | _ => false end.

(** Modelled from the spec: MDPInfo of x_mushroom_rl.environments, the
    bundle (observation space, action space, discount factor, horizon). *)
Record MDPInfo : Type := mkMDPInfo {
  observation_space : Space;
  action_space : Space;
  gamma : Q;
  horizon : Z
}.

(* Values of the attributes the adapter sets on the environment object. *)
Inductive AttrVal : Type :=
| AInf                       (* np.inf *)
| AValue (v : ndvalue).

Section Gym.

Context {R Sim KwArgs PyArg : Type}.

(* A Python environment object: its attributes and the rest of its state. *)
Record EnvState : Type := mkEnvState {
  dyn : Sim;
  attrs : gmap string AttrVal
}.

Record GOutcome : Type := mkGOutcome {
  g_obs : ndvalue;
  g_reward : R;
  g_absorbing : bool;
  g_info : gmap string Z
}.

(* A gym environment: its state, its methods and its spaces. *)
Record GymEnvObj : Type := mkGymEnvObj {
  e_state : EnvState;
  e_step : EnvState → ndvalue → EnvState * GOutcome;
  e_reset : EnvState → EnvState * ndvalue;
  e_observation_space : GymSpace;
  e_action_space : GymSpace
}.

Definition set_state (e : GymEnvObj) (s : EnvState) : GymEnvObj :=
  {| e_state := s; e_step := e_step e; e_reset := e_reset e;
     e_observation_space := e_observation_space e;
     e_action_space := e_action_space e |}.

(* self.env.<name> = v *)
Definition env_setattr (e : GymEnvObj) (name : string) (v : AttrVal) : GymEnvObj :=
  set_state e (mkEnvState (dyn (e_state e)) (<[name := v]> (attrs (e_state e)))).

(* self.env.reset() *)
Definition env_do_reset (e : GymEnvObj) : GymEnvObj * ndvalue :=
  let '(s, obs) := e_reset e (e_state e) in (set_state e s, obs).

(* self.env.step(action) *)
Definition env_do_step (e : GymEnvObj) (action : ndvalue) : GymEnvObj * GOutcome :=
  let '(s, out) := e_step e (e_state e) action in (set_state e s, out).

(* gym.make(name, **env_args), an error for a name that is not registered *)
Context (gym_make : string → KwArgs → result GymEnvObj).
Context (pybullet_found : bool) (pybullet_envs_getList : list string).

(* An entry of [wrappers]: a tuple (class, keyword arguments) or a class. *)
Definition WrapperClass : Type := GymEnvObj → list PyArg → KwArgs → GymEnvObj.
Inductive Wrapper : Type :=
| WTuple (cls : WrapperClass) (kwargs : KwArgs)
| WClass (cls : WrapperClass).

Record Gym : Type := mkGym {
  env : GymEnvObj;
  _not_pybullet : bool;
  _first : bool;
  _convert_action : ndvalue → result ndvalue;
  info : MDPInfo
}.

(* Gym._convert_gym_space *)
Definition Gym__convert_gym_space (space : GymSpace) : result Space :=
  match space with
  | GDiscrete n => Ok (Discrete n)
  | GBox low high shape => Ok (Box low high shape)
  | _ => Raise ValueError
  end.

(* for wrapper, args in zip(wrappers, wrappers_args): ... *)
Definition apply_wrappers (e : GymEnvObj) (ws : list (Wrapper * list PyArg))
    (env_args : KwArgs) : GymEnvObj :=
  fold_left (fun e '(w, args) =>
    match w with
    | WTuple cls kwargs => cls e args kwargs
    | WClass cls => cls e args env_args
    end) ws e.

(* Gym.__init__, the creation of the environment: gym.make, the wrappers
   and the time limit lifted *)
Definition Gym_make_env (name : string) (wrappers : option (list Wrapper))
    (wrappers_args : option (list (list PyArg))) (env_args : KwArgs)
  : result GymEnvObj :=
  e ← gym_make name env_args;
  let e :=
    match wrappers with
    | None => e
    | Some ws =>
      let was := default (replicate (length ws) []) wrappers_args in
      apply_wrappers e (zip ws was) env_args
    end in
  mret (env_setattr e "_max_episode_steps" AInf).

(* Gym.__init__ *)
Definition Gym_init (name : string) (horizon : Z) (gamma : Q)
    (wrappers : option (list Wrapper)) (wrappers_args : option (list (list PyArg)))
    (env_args : KwArgs) : result Gym :=
  let not_pybullet :=
    negb (pybullet_found && bool_decide (("- " +:+ name) ∈ pybullet_envs_getList)) in
  e ← Gym_make_env name wrappers wrappers_args env_args;
  if is_GMultiDiscrete (e_observation_space e) then Raise AssertionError
  else if is_GMultiDiscrete (e_action_space e) then Raise AssertionError
  else
    action_space ← Gym__convert_gym_space (e_action_space e);
    observation_space ← Gym__convert_gym_space (e_observation_space e);
    let mdp_info := mkMDPInfo observation_space action_space gamma horizon in
    mret {| env := e; _not_pybullet := not_pybullet; _first := true;
            _convert_action :=
              if is_Discrete action_space then index0 else Ok;
            info := mdp_info |}.

Definition with_env (g : Gym) (e : GymEnvObj) : Gym :=
  {| env := e; _not_pybullet := _not_pybullet g; _first := _first g;
     _convert_action := _convert_action g; info := info g |}.

(* Gym.reset *)
Definition Gym_reset (g : Gym) (state : option ndvalue) : Gym * ndvalue :=
  match state with
  | None =>
    let '(e, obs) := env_do_reset (env g) in
    (with_env g e, np_atleast_1d obs)
  | Some state =>
    let '(e, _) := env_do_reset (env g) in
    let e := env_setattr e "state" (AValue state) in
    (with_env g e, np_atleast_1d state)
  end.

(* Gym.step *)
Definition Gym_step (g : Gym) (action : ndvalue)
  : result (Gym * (ndvalue * R * bool * gmap string Z)) :=
  action ← _convert_action g action;
  let '(e, out) := env_do_step (env g) action in
  mret (with_env g e, (np_atleast_1d (g_obs out), g_reward out,
                       g_absorbing out, g_info out)).

End Gym.

End GymEnv.

(* --------------------------------------------------------------------- *)
(* Observables of a run, used to state the properties                    *)
(* --------------------------------------------------------------------- *)

Module Trace.

Section Trace.

Context {R Sim : Type} (G : GymLib R Sim).

(* the outcomes of [n] successive steps of the simulator under one action *)
Fixpoint run_raw (n : nat) (s : Sim) (action : Z) : list (Outcome R) :=
  match n with
  | O => []
  | S n' => let '(s', o) := env_step G s action in o :: run_raw n' s' action
  end.

(* the state of the simulator after [n] successive steps under one action *)
Fixpoint sim_after (n : nat) (s : Sim) (action : Z) : Sim :=
  match n with
  | O => s
  | S n' => sim_after n' (env_step G s action).1 action
  end.

(* a sequence of outcomes, cut after its first absorbing one *)
Fixpoint until_absorbing (os : list (Outcome R)) : list (Outcome R) :=
  match os with
  | [] => []
  | o :: rest => if o_absorbing o then [o] else o :: until_absorbing rest
  end.

(* the sub-steps a wrapped step of skip count [skip] goes through *)
Definition substeps (skip : Z) (s : Sim) (action : Z) : list (Outcome R) :=
  until_absorbing (run_raw (Z.to_nat skip) s action).

(* the content of a slot of the pooling buffer after a pass over [os], when
   the slot is written at index [k] *)
Definition slot_after (k : Z) (os : list (Outcome R)) (old : Frame) : Frame :=
  if 0 <=? k then
    match os !! Z.to_nat k with
    | Some o => to_uint8 <$> o_obs o
    | None => old
    end
  else old.

(* the pooling of the frames of two outcomes, as the wrapper [w] pools *)
Definition pool_of (w : AtariEnv.MaxAndSkip) (o2 o3 : Outcome R) : ndarray :=
  if AtariEnv._max_pooling w
  then frame_max (to_uint8 <$> o_obs o2) (to_uint8 <$> o_obs o3)
  else frame_mean (to_uint8 <$> o_obs o2) (to_uint8 <$> o_obs o3).

(* "the returned frame pools the raw frames of the sub-steps skip-2 and
   skip-1 of this call" *)
Definition pools_last_two `{Reward R} (w : AtariEnv.MaxAndSkip)
    (h : Handle Sim) (action : Z) : Prop :=
  ∀ w' h' frame total absorbing info,
    AtariEnv.MaxAndSkip_step G w h action
      = Ok (w', h', (frame, total, absorbing, info)) →
    ∃ o2 o3,
      substeps (AtariEnv._skip w) (sim h) action
        !! Z.to_nat (AtariEnv._skip w - 2) = Some o2
      ∧ substeps (AtariEnv._skip w) (sim h) action
        !! Z.to_nat (AtariEnv._skip w - 1) = Some o3
      ∧ frame = pool_of w o2 o3.

End Trace.

End Trace.

(* --------------------------------------------------------------------- *)
(* A scripted simulator: it plays back a list of outcomes                *)
(* --------------------------------------------------------------------- *)

Module Scripted.

Definition info_lives (n : Z) : gmap string Z := {[ "ale.lives" := n ]}.

(* an entry of a script: the frame, the reward, the absorbing flag and the
   lives left that a step reports *)
Record Beat : Type := mkBeat {
  b_obs : Frame;
  b_reward : Z;
  b_absorbing : bool;
  b_lives : Z
}.

Definition outcome (b : Beat) : Outcome Z :=
  mkOutcome (b_obs b) (b_reward b) (b_absorbing b) (info_lives (b_lives b)).

(* what is played once the script is over *)
Definition idle : Beat := mkBeat [0; 0] 0 false 3.

Definition play (script : list Beat) (action : Z) : list Beat * Outcome Z :=
  match script with
  | [] => ([], outcome idle)
  | b :: rest => (rest, outcome b)
  end.

(* a game of two pixels, three lives and the given action meanings, whose
   steps play [script] back and whose reset shows [first] *)
Definition game (meanings : list string) (first : Frame)
    (script : list Beat) : GymLib Z (list Beat) :=
  {| gym_make := fun _ => script;
     env_reset := fun s => (s, first);
     env_step := play;
     ale_lives := fun _ => 3;
     get_action_meanings := fun _ => meanings;
     observation_space_shape := fun _ => [2%nat] |}.

Definition breakout : list string := ["NOOP"; "FIRE"; "RIGHT"; "LEFT"].

(* four sub-steps with rewards 1, 0, 0, 2 and no absorbing one *)
Definition rewards_1002 : list Beat :=
  [ mkBeat [10; 200] 1 false 3;
    mkBeat [20; 100] 0 false 3;
    mkBeat [30; 7] 0 false 3;
    mkBeat [5; 40] 2 false 3 ].

(* the game is over at the first sub-step *)
Definition over_at_once : list Beat :=
  [ mkBeat [10; 200] 5 true 0;
    mkBeat [20; 100] 0 false 0;
    mkBeat [30; 7] 0 false 0;
    mkBeat [5; 40] 2 false 0 ].

(* a FIRE step, then four sub-steps of which the last reports a life lost *)
Definition life_lost : list Beat :=
  [ mkBeat [1; 1] 0 false 3;
    mkBeat [10; 200] 1 false 3;
    mkBeat [20; 100] 0 false 3;
    mkBeat [30; 7] 0 false 3;
    mkBeat [5; 40] 2 false 2 ].

(* A gym environment with a three-dimensional continuous observation and
   the given action space; its reset shows (1, 0, 0). *)
Definition unit_box : GymEnv.GymSpace :=
  GymEnv.GBox (GymEnv.mkNd [3%nat] [-1; -1; -8]%Q) (GymEnv.mkNd [3%nat] [1; 1; 8]%Q)
    [3%nat].

Definition pendulum (actions : GymEnv.GymSpace)
  : @GymEnv.GymEnvObj Z nat :=
  {| GymEnv.e_state := GymEnv.mkEnvState 0%nat ∅;
     GymEnv.e_step := λ s _,
       (GymEnv.mkEnvState (S (GymEnv.dyn s)) (GymEnv.attrs s),
        GymEnv.mkGOutcome (GymEnv.mkNd [3%nat] [0; 1; 0]%Q) (-1) false ∅);
     GymEnv.e_reset := λ s,
       (GymEnv.mkEnvState 0%nat (GymEnv.attrs s),
        GymEnv.mkNd [3%nat] [1; 0; 0]%Q);
     GymEnv.e_observation_space := unit_box;
     GymEnv.e_action_space := actions |}.

(* gym.make over a registry of two names *)
Definition registry (name : string) (_ : unit)
  : result (@GymEnv.GymEnvObj Z nat) :=
  if bool_decide (name = "Pendulum-v0") then Ok (pendulum unit_box)
  else if bool_decide (name = "Pair-v0")
       then Ok (pendulum (GymEnv.GTuple [GymEnv.GDiscrete 2; GymEnv.GDiscrete 3]))
       else Raise SimulatorError.

(* preprocess_frame left out: the frames are kept as they come *)
Definition keep (obs : ndarray) (_ : option (option Z * option Z)) (_ : bool)
  : ndarray := obs.

Import AtariEnv.

(* Atari('BreakoutNoFrameskip-v4', ends_at_life=...) over a script *)
Definition fresh (script : list Beat) (ends_at_life : bool)
  : result (@Atari (list Beat) ndarray) :=
  Atari_init (game breakout [7; 7] script) false []
    "BreakoutNoFrameskip-v4" (Some 84) (Some 84) ends_at_life true 4 30.

(* the adapter after its first reset, when [noop] no-op actions are drawn *)
Definition playing (script : list Beat) (ends_at_life : bool) (noop : Z)
  : @Atari (list Beat) ndarray :=
  let h := mkHandle script [CReset] in
  {| env := EMaxAndSkip
              {| _obs_buffer := ([0; 0], [0; 0]); _skip := 4;
                 _max_pooling := true |} h;
     augmented := false; grey_and_rescale := true;
     _img_size := Some (Some 84, Some 84);
     _episode_ends_at_life := ends_at_life;
     _max_lives := 3; _lives := 3;
     _force_fire := Some true; _real_reset := true;
     _max_no_op_actions := 30; _history_length := 4;
     _current_no_op := Some noop;
     _state := Some (mkDeque (replicate 4 (U8 [7; 7])) 4) |}.

End Scripted.

(* --------------------------------------------------------------------- *)
(* Further observables and operations of the adapters                    *)
(* --------------------------------------------------------------------- *)

Module AtariAux.

Import AtariEnv.

(* both slots of the pooling buffer hold 8-bit pixels *)
Definition uint8_buffer (w : MaxAndSkip) : Prop :=
  Forall is_uint8 (_obs_buffer w).1 ∧ Forall is_uint8 (_obs_buffer w).2.

(* the pixels of a pooled frame are within the range of a raw frame *)
Definition in_pixel_range (f : ndarray) : Prop :=
  match f with
  | U8 px => Forall is_uint8 px
  | F64 px => Forall (λ q, (0 <= q)%Q ∧ (q <= 255)%Q) px
  end.

(* what the constructor of the Atari adapter fixes *)
Definition config {Sim PFrame : Type} (a : @Atari Sim PFrame)
  : bool * bool * option (option Z * option Z) * Z * Z * Z :=
  (augmented a, grey_and_rescale a, _img_size a, _max_lives a,
   _max_no_op_actions a, _history_length a).

(* the number of calls the simulator gets in one step of the environment
   [e] of an adapter (self.env.step), when that step completes *)
Definition raw_steps {R} `{Reward R} {Sim} (G : GymLib R Sim)
    (e : @EnvObj Sim) (action : Z) : option nat :=
  match wrapped_step G e action with
  | Ok (e3, _) => Some (length (calls (handle e3)) - length (calls (handle e)))%nat
  | Raise _ => None
  end.



(* the name the constructor gives to gym.make (lines 77-88) *)
Definition made_name (ARI : bool) (name : string) : string :=
  if negb (str_contains "NoFrameskip" name) && str_contains "-Augmented" name && ARI
  then str_remove "-Augmented" name else name.

(* the library, once gym.make has returned the game [s] *)
Definition made {R Sim} (G : GymLib R Sim) (s : Sim) : GymLib R Sim :=
  {| gym_make := fun _ => s;
     env_reset := env_reset G;
     env_step := env_step G;
     ale_lives := ale_lives G;
     get_action_meanings := get_action_meanings G;
     observation_space_shape := observation_space_shape G |}.

(* Atari.__init__ over a registry of games: gym.make raises for a name that
   is not registered.  It is the first call of each branch of lines 77-89,
   after tests on the name only, and nothing catches its error. *)
Definition Atari_init_registered {R Sim PFrame} (G : GymLib R Sim)
    (registry : string → result Sim) (ARI : bool) (keys : list string)
    (name : string) (width height : option Z)
    (ends_at_life max_pooling : bool) (history_length max_no_op_actions : Z)
  : result (@Atari Sim PFrame) :=
  s ← registry (made_name ARI name);
  Atari_init (made G s) ARI keys name width height ends_at_life max_pooling
    history_length max_no_op_actions.

End AtariAux.

Module GymAux.

Import GymEnv.

Section RenderStop.

Context {R Sim : Type}.

(* self.env.render(mode=mode) and self.env.close() belong to gym: what they
   do to the environment object is a parameter; close may raise. *)
Context (env_render : @GymEnvObj R Sim → string → @GymEnvObj R Sim).
Context (env_close : @GymEnvObj R Sim → result (@GymEnvObj R Sim)).

(* Gym.render *)
Definition Gym_render (g : @Gym R Sim) (mode : string) : @Gym R Sim :=
  if _first g || _not_pybullet g then
    {| env := env_render (env g) mode; _not_pybullet := _not_pybullet g;
       _first := false; _convert_action := _convert_action g;
       info := info g |}
  else g.

(* Gym.stop: try: if self._not_pybullet: self.env.close()  except: pass *)
Definition Gym_stop (g : @Gym R Sim) : @Gym R Sim :=
  if _not_pybullet g then
    match env_close (env g) with
    | Ok e => with_env g e
    | Raise _ => g
    end
  else g.

(* [n] calls of render in a row *)
Fixpoint Gym_renders (n : nat) (g : @Gym R Sim) (mode : string) : @Gym R Sim :=
  match n with
  | O => g
  | S n' => Gym_renders n' (Gym_render g mode) mode
  end.

End RenderStop.

End GymAux.

Module Cases.

Import Scripted.

(* an episode of four sub-steps, then a game that is over at its first
   sub-step *)
Definition two_episodes : list Beat := rewards_1002 ++ over_at_once.

(* a game whose steps report nothing in their info *)
Definition mute : GymLib Z unit :=
  {| gym_make := fun _ => tt;
     env_reset := fun s => (s, [7; 7]);
     env_step := fun s _ => (s, mkOutcome [1; 2] 0 false ∅);
     ale_lives := fun _ => 3;
     get_action_meanings := fun _ => breakout;
     observation_space_shape := fun _ => [2%nat] |}.

End Cases.

(* ===================================================================== *)
(* Properties                                                            *)
(* ===================================================================== *)

Lemma to_uint8_id (v : Z) : is_uint8 v → to_uint8 v = v.
Proof. unfold is_uint8, to_uint8. intros Hv. apply Z.mod_small. lia. Qed.

Lemma to_uint8_frame (f : Frame) : Forall is_uint8 f → to_uint8 <$> f = f.
Proof.
  induction 1 as [|v f Hv _ IH]; [reflexivity|].
  rewrite fmap_cons, IH, (to_uint8_id v Hv). reflexivity.
Qed.

(* The helpers on small inputs. *)
Example str_contains_example :
  AtariEnv.str_contains "NoFrameskip" "BreakoutNoFrameskip-v4" = true
  ∧ AtariEnv.str_contains "NoFrameskip" "Breakout-v0" = false
  ∧ AtariEnv.str_contains "-Augmented" "Pong-Augmented-v4" = true.
Proof. repeat split; reflexivity. Qed.

Example str_remove_example :
  AtariEnv.str_remove "-Augmented" "Pong-Augmented-v4" = "Pong-v4"
  ∧ AtariEnv.str_remove "ab" "xababyab" = "xy".
Proof. split; reflexivity. Qed.

Example lower4_example :
  AtariEnv.lower4 "MsPacman-v0" = "mspa" ∧ AtariEnv.lower4 "Ab" = "ab".
Proof. split; reflexivity. Qed.

Example deque_example :
  AtariEnv.deque_append (AtariEnv.mkDeque [1; 2; 3] 3) 4
    = AtariEnv.mkDeque [2; 3; 4] 3
  ∧ AtariEnv.deque_append (AtariEnv.mkDeque [] 0) 4 = AtariEnv.mkDeque [] 0
  ∧ AtariEnv.deque_new [1; 2; 3] 2 = Ok (AtariEnv.mkDeque [2; 3] 2)
  ∧ AtariEnv.deque_new [1; 2; 3] (-1) = Raise ValueError.
Proof. repeat split; reflexivity. Qed.

Example pooling_example :
  frame_max [1; 200] [3; 100] = U8 [3; 200]
  ∧ frame_mean [1; 200] [2; 100] = F64 [3 # 2; 150 # 1]%Q
  ∧ to_uint8 300 = 44.
Proof. repeat split; reflexivity. Qed.

Module FrameSkip.

Import AtariEnv Trace.

Section FrameSkip.

Context {R : Type} `{Reward R} {Sim : Type} (G : GymLib R Sim).

Lemma until_absorbing_length (os : list (Outcome R)) :
  (length (until_absorbing os) ≤ length os)%nat.
Proof.
  induction os as [|o os IH]; simpl; [lia|].
  destruct (o_absorbing o); simpl; lia.
Qed.

Lemma run_raw_length n s action : length (run_raw G n s action) = n.
Proof.
  revert s. induction n as [|n IH]; intros s; simpl; [reflexivity|].
  destruct (env_step G s action) as [s' o]. simpl. by rewrite IH.
Qed.

Lemma substeps_length skip s action :
  (length (substeps G skip s action) ≤ Z.to_nat skip)%nat.
Proof.
  unfold substeps.
  etransitivity; [apply until_absorbing_length|]. by rewrite run_raw_length.
Qed.

(* Only the last of the sub-steps gone through can be absorbing. *)
Lemma until_absorbing_lookup (os : list (Outcome R)) j o :
  until_absorbing os !! j = Some o → o_absorbing o = true →
  length (until_absorbing os) = S j.
Proof.
  revert j. induction os as [|o' os IH]; intros j; simpl; [done|].
  destruct (o_absorbing o') eqn:Ho'.
  - destruct j as [|j]; simpl; [done|]. by rewrite lookup_nil.
  - destruct j as [|j]; simpl.
    + intros [= ->] Ho. congruence.
    + intros Hj Ho. f_equal. by apply IH.
Qed.

(* Without an absorbing outcome nothing is cut. *)
Lemma until_absorbing_none (os : list (Outcome R)) :
  Forall (λ o, o_absorbing o = false) os → until_absorbing os = os.
Proof.
  induction 1 as [|o os Ho _ IH]; simpl; [done|]. by rewrite Ho, IH.
Qed.

(* When all the sub-steps are gone through, the ones before the last were
   not absorbing and nothing was cut. *)
Lemma until_absorbing_full (os : list (Outcome R)) :
  length (until_absorbing os) = length os → until_absorbing os = os.
Proof.
  induction os as [|o os IH]; simpl; [done|].
  destruct (o_absorbing o); simpl.
  - destruct os; simpl; [done|lia].
  - intros [= Hl]. by rewrite IH.
Qed.

Lemma slot_after_nil k (old : Frame) : slot_after (R := R) k [] old = old.
Proof. unfold slot_after. by destruct (0 <=? k). Qed.

Lemma slot_after_cons k i (o : Outcome R) rest old :
  slot_after (k - i) (o :: rest) old
  = if i =? k then to_uint8 <$> o_obs o else slot_after (k - (i + 1)) rest old.
Proof.
  unfold slot_after.
  destruct (Z.eqb_spec i k) as [->|Hne].
  - by rewrite Z.sub_diag.
  - destruct (Z.leb_spec 0 (k - i)) as [Hle|Hlt].
    + replace (Z.to_nat (k - i)) with (S (Z.to_nat (k - (i + 1)))) by lia.
      simpl. destruct (Z.leb_spec 0 (k - (i + 1))); [done|lia].
    + destruct (Z.leb_spec 0 (k - (i + 1))); [lia|done].
Qed.

(* A slot written at an index below the current one is not written any more. *)
Lemma slot_after_past k (os : list (Outcome R)) old :
  k < 0 → slot_after k os old = old.
Proof. unfold slot_after. intros Hk. destruct (Z.leb_spec 0 k); [lia|done]. Qed.

(* The loop of MaxAndSkip.step, pass by pass. *)
Lemma skip_loop_spec n i action (st : LoopState (Sim := Sim)) :
  let os := until_absorbing (run_raw G n (sim (l_env st)) action) in
  let st' := skip_loop G n i action st in
  let w := l_wrapper st in
  calls (l_env st') = calls (l_env st) ++ replicate (length os) (CStep action)
  ∧ sim (l_env st') = sim_after G (length os) (sim (l_env st)) action
  ∧ l_total st' = fold_left r_add (o_reward <$> os) (l_total st)
  ∧ l_last st' = match last os with
                 | Some o => Some (o_absorbing o, o_info o)
                 | None => l_last st
                 end
  ∧ _skip (l_wrapper st') = _skip w
  ∧ _max_pooling (l_wrapper st') = _max_pooling w
  ∧ (_obs_buffer (l_wrapper st')).1
      = slot_after (_skip w - 2 - i) os (_obs_buffer w).1
  ∧ (_obs_buffer (l_wrapper st')).2
      = slot_after (_skip w - 1 - i) os (_obs_buffer w).2.
Proof.
  revert i st. induction n as [|n IH]; intros i st; simpl.
  { rewrite app_nil_r, !slot_after_nil. done. }
  unfold raw_step.
  destruct (env_step G (sim (l_env st)) action) as [s' o] eqn:Hstep.
  simpl.
  set (w0 := l_wrapper st).
  set (w1 := if i =? _skip w0 - 2 then store0 w0 (o_obs o) else w0).
  set (w2 := if i =? _skip w0 - 1 then store1 w1 (o_obs o) else w1).
  assert (Hskip : _skip w2 = _skip w0).
  { unfold w2, w1. by repeat destruct (_ =? _). }
  assert (Hmp : _max_pooling w2 = _max_pooling w0).
  { unfold w2, w1. by repeat destruct (_ =? _). }
  assert (Hb1 : (_obs_buffer w2).1 =
                if i =? _skip w0 - 2 then to_uint8 <$> o_obs o else (_obs_buffer w0).1).
  { unfold w2, w1. by repeat destruct (_ =? _). }
  assert (Hb2 : (_obs_buffer w2).2 =
                if i =? _skip w0 - 1 then to_uint8 <$> o_obs o else (_obs_buffer w0).2).
  { unfold w2, w1. by repeat destruct (_ =? _). }
  clearbody w2. clear w1.
  destruct (o_absorbing o) eqn:Habs; simpl.
  - rewrite Hskip, Hmp, Hb1, Hb2, !slot_after_cons, !slot_after_nil, Hstep.
    simpl. by rewrite Habs.
  - specialize (IH (i + 1)
      (mkLoop w2 (mkHandle s' (calls (l_env st) ++ [CStep action]))
              (r_add (l_total st) (o_reward o))
              (Some (false, o_info o)))).
    simpl in IH.
    destruct IH as (Hc & Hs & Ht & Hl & Hk & Hm & H1 & H2).
    rewrite Hc, Hs, Ht, Hl, Hk, Hm, H1, H2, Hskip, Hmp, Hb1, Hb2,
      !slot_after_cons, Hstep.
    simpl. rewrite <- app_assoc. simpl.
    repeat split; try done.
    + rewrite last_cons.
      destruct (last (until_absorbing (run_raw G n s' action))); [done|].
      by rewrite Habs.
    + destruct (Z.eqb_spec i (_skip w0 - 2)) as [Heq|Hne]; [|done].
      apply slot_after_past. lia.
    + destruct (Z.eqb_spec i (_skip w0 - 1)) as [Heq|Hne]; [|done].
      apply slot_after_past. lia.
Qed.

Lemma until_absorbing_nonempty (os : list (Outcome R)) :
  os ≠ [] → until_absorbing os ≠ [].
Proof. destruct os as [|o os]; simpl; [done|]. by destruct (o_absorbing o). Qed.

Lemma substeps_nonempty skip s action :
  1 ≤ skip → substeps G skip s action ≠ [].
Proof.
  intros Hs. apply until_absorbing_nonempty.
  intros Hnil. apply (f_equal length) in Hnil.
  rewrite run_raw_length in Hnil. simpl in Hnil. lia.
Qed.

(* A skip loop that stops early stops on an absorbing outcome. *)
Lemma until_absorbing_short (os : list (Outcome R)) :
  (length (until_absorbing os) < length os)%nat →
  ∃ o, last (until_absorbing os) = Some o ∧ o_absorbing o = true.
Proof.
  induction os as [|o os IH]; simpl; [lia|].
  destruct (o_absorbing o) eqn:Ho; simpl.
  - intros _. by exists o.
  - intros Hl. destruct IH as (o' & Hlast & Ho'); [lia|].
    exists o'. rewrite last_cons, Hlast. done.
Qed.

(* MaxAndSkip.step, for a positive skip count. *)
Lemma MaxAndSkip_step_spec (w : MaxAndSkip) (h : Handle Sim) action :
  1 ≤ _skip w →
  let os := substeps G (_skip w) (sim h) action in
  ∃ w' h' olast,
    MaxAndSkip_step G w h action
      = Ok (w', h', (pool w', reward_sum (o_reward <$> os),
                     o_absorbing olast, o_info olast))
    ∧ last os = Some olast
    ∧ calls h' = calls h ++ replicate (length os) (CStep action)
    ∧ sim h' = sim_after G (length os) (sim h) action
    ∧ _skip w' = _skip w
    ∧ _max_pooling w' = _max_pooling w
    ∧ (_obs_buffer w').1 = slot_after (_skip w - 2) os (_obs_buffer w).1
    ∧ (_obs_buffer w').2 = slot_after (_skip w - 1) os (_obs_buffer w).2.
Proof.
  intros Hs os. unfold MaxAndSkip_step.
  pose proof (skip_loop_spec (Z.to_nat (_skip w)) 0 action
                (mkLoop w h r_zero None)) as Hloop.
  simpl in Hloop. fold (substeps G (_skip w) (sim h) action) in Hloop.
  fold os in Hloop.
  destruct Hloop as (Hc & Hsim & Ht & Hl & Hk & Hm & H1 & H2).
  destruct (last os) as [olast|] eqn:Hlast.
  2: { apply last_None in Hlast. by apply substeps_nonempty in Hlast. }
  rewrite Hl. rewrite !Z.sub_0_r in *.
  eexists _, _, olast. rewrite Ht. repeat split; done.
Qed.

(* MaxAndSkip.step, for a skip count that is not positive: the loop body
   never runs and the locals it binds are read unbound. *)
Lemma MaxAndSkip_step_no_pass (w : MaxAndSkip) (h : Handle Sim) action :
  _skip w ≤ 0 → MaxAndSkip_step G w h action = Raise UnboundLocalError.
Proof.
  intros Hs. unfold MaxAndSkip_step.
  replace (Z.to_nat (_skip w)) with 0%nat by lia. done.
Qed.

(* With a skip count of 1 only the second slot of the buffer is ever
   written: the first one keeps what it had, zeros after construction. *)
Lemma MaxAndSkip_step_skip_one (w : MaxAndSkip) (h : Handle Sim) action :
  _skip w = 1 →
  ∃ w' h' total absorbing info,
    MaxAndSkip_step G w h action = Ok (w', h', (pool w', total, absorbing, info))
    ∧ _obs_buffer w'
      = ((_obs_buffer w).1, to_uint8 <$> o_obs (env_step G (sim h) action).2).
Proof.
  intros Hs.
  destruct (MaxAndSkip_step_spec w h action ltac:(lia))
    as (w' & h' & olast & Hstep & _ & _ & _ & _ & _ & H1 & H2).
  eexists w', h', _, _, _. split; [exact Hstep|].
  rewrite Hs in H1, H2. unfold substeps, slot_after in H1, H2. simpl in H1, H2.
  destruct (env_step G (sim h) action) as [s' o]. simpl in *.
  destruct (o_absorbing o); simpl in H2;
    destruct (_obs_buffer w') as [b0 b1]; simpl in *; by subst.
Qed.

Lemma pool_init (h : Handle Sim) skip mp :
  pool (MaxAndSkip_init G h skip mp)
  = let n := foldr Nat.mul 1%nat (observation_space_shape G (sim h)) in
    if mp then U8 (replicate n 0) else F64 (replicate n 0%Q).
Proof.
  unfold pool, MaxAndSkip_init, np_zeros, frame_max, frame_mean. simpl.
  destruct mp; by rewrite zip_with_replicate.
Qed.

End FrameSkip.

End FrameSkip.

Import AtariEnv Trace.

(** C1 (as amended).  A wrapped step of the frame-skip-and-pool wrapper with
    skip count s >= 1 goes through the raw steps of one and the same action
    up to and including the first absorbing one, s of them at most, and
    returns the sum of their rewards with the absorbing flag and the info of
    the last one.  When all the s sub-steps are gone through and s >= 2, the
    returned frame is the element-wise maximum (max-pooling) or average
    (otherwise) of the raw frames of the sub-steps s-2 and s-1.  With s = 4,
    raw rewards 1, 0, 0, 2 and no absorbing sub-step, the reward is 3 and the
    frame pools the sub-steps 2 and 3. *)
Theorem frame_skip_step :
  (∀ (R : Type) (HR : Reward R) (Sim : Type) (G : GymLib R Sim)
     (w : MaxAndSkip) (h : Handle Sim) (action : Z),
     1 ≤ _skip w →
     let os := substeps G (_skip w) (sim h) action in
     ∃ w' h' frame olast,
       MaxAndSkip_step G w h action
         = Ok (w', h', (frame, reward_sum (o_reward <$> os),
                        o_absorbing olast, o_info olast))
       ∧ last os = Some olast
       ∧ 1 ≤ Z.of_nat (length os) ≤ _skip w
       ∧ calls h' = calls h ++ replicate (length os) (CStep action)
       ∧ (∀ j o, os !! j = Some o → o_absorbing o = true → length os = S j)
       ∧ (Z.of_nat (length os) < _skip w → o_absorbing olast = true)
       ∧ (Z.of_nat (length os) = _skip w → 2 ≤ _skip w →
          ∃ o2 o3, os !! Z.to_nat (_skip w - 2) = Some o2
                   ∧ os !! Z.to_nat (_skip w - 1) = Some o3
                   ∧ frame = pool_of w o2 o3))
  ∧ (∀ (Sim : Type) (G : GymLib Z Sim)
       (w : MaxAndSkip) (h : Handle Sim) (action : Z),
       _skip w = 4 →
       o_reward <$> run_raw G 4 (sim h) action = [1; 0; 0; 2] →
       Forall (λ o, o_absorbing o = false) (run_raw G 4 (sim h) action) →
       ∃ w' h' info o2 o3,
         MaxAndSkip_step G w h action
           = Ok (w', h', (pool_of w o2 o3, 3, false, info))
         ∧ run_raw G 4 (sim h) action !! 2%nat = Some o2
         ∧ run_raw G 4 (sim h) action !! 3%nat = Some o3).
Proof.
  assert (Hgen : ∀ (R : Type) (HR : Reward R) (Sim : Type) (G : GymLib R Sim)
     (w : MaxAndSkip) (h : Handle Sim) (action : Z),
     1 ≤ _skip w →
     let os := substeps G (_skip w) (sim h) action in
     ∃ w' h' frame olast,
       MaxAndSkip_step G w h action
         = Ok (w', h', (frame, reward_sum (o_reward <$> os),
                        o_absorbing olast, o_info olast))
       ∧ last os = Some olast
       ∧ 1 ≤ Z.of_nat (length os) ≤ _skip w
       ∧ calls h' = calls h ++ replicate (length os) (CStep action)
       ∧ (∀ j o, os !! j = Some o → o_absorbing o = true → length os = S j)
       ∧ (Z.of_nat (length os) < _skip w → o_absorbing olast = true)
       ∧ (Z.of_nat (length os) = _skip w → 2 ≤ _skip w →
          ∃ o2 o3, os !! Z.to_nat (_skip w - 2) = Some o2
                   ∧ os !! Z.to_nat (_skip w - 1) = Some o3
                   ∧ frame = pool_of w o2 o3)).
  { intros R HR Sim G w h action Hs os.
    destruct (FrameSkip.MaxAndSkip_step_spec G w h action Hs)
      as (w' & h' & olast & Hstep & Hlast & Hc & _ & Hk & Hm & H1 & H2).
    fold os in Hstep, Hlast, Hc, H1, H2.
    pose proof (FrameSkip.substeps_length G (_skip w) (sim h) action) as Hlen.
    fold os in Hlen.
    assert (Hne : os ≠ []) by by apply FrameSkip.substeps_nonempty.
    exists w', h', (pool w'), olast. repeat split; try done.
    - destruct os; [done|simpl; lia].
    - lia.
    - intros j o. apply FrameSkip.until_absorbing_lookup.
    - intros Hlt.
      destruct (FrameSkip.until_absorbing_short
                  (run_raw G (Z.to_nat (_skip w)) (sim h) action))
        as (o & Ho & Habs).
      { rewrite FrameSkip.run_raw_length. fold (substeps G (_skip w) (sim h) action).
        fold os. lia. }
      fold (substeps G (_skip w) (sim h) action) in Ho. fold os in Ho.
      congruence.
    - intros Hfull H2s.
      destruct (lookup_lt_is_Some_2 os (Z.to_nat (_skip w - 2))) as [o2 Ho2]; [lia|].
      destruct (lookup_lt_is_Some_2 os (Z.to_nat (_skip w - 1))) as [o3 Ho3]; [lia|].
      exists o2, o3. repeat split; try done.
      unfold pool, pool_of. rewrite Hm, H1, H2. unfold slot_after.
      destruct (Z.leb_spec 0 (_skip w - 2)); [|lia].
      destruct (Z.leb_spec 0 (_skip w - 1)); [|lia].
      by rewrite Ho2, Ho3. }
  split; [exact Hgen|].
  intros Sim G w h action Hs Hrew Hnone.
  destruct (Hgen Z _ Sim G w h action ltac:(lia))
    as (w' & h' & frame & olast & Hstep & Hlast & _ & _ & _ & _ & Hpool).
  assert (Hos : substeps G (_skip w) (sim h) action = run_raw G 4 (sim h) action).
  { unfold substeps. rewrite Hs. change (Z.to_nat 4) with 4%nat.
    by apply FrameSkip.until_absorbing_none. }
  rewrite Hos in *.
  destruct Hpool as (o2 & o3 & Ho2 & Ho3 & ->).
  { rewrite FrameSkip.run_raw_length. lia. }
  { lia. }
  rewrite Hs in Ho2, Ho3. change (Z.to_nat (4 - 2)) with 2%nat in Ho2.
  change (Z.to_nat (4 - 1)) with 3%nat in Ho3.
  exists w', h', (o_info olast), o2, o3. repeat split; try done.
  rewrite Hstep, Hrew. do 3 f_equal.
  apply last_Some_elem_of in Hlast.
  eapply Forall_forall in Hnone; [|exact Hlast]. by rewrite Hnone.
Qed.

Lemma frame_skip_step_witness :
  let G := Scripted.game Scripted.breakout [0; 0] Scripted.rewards_1002 in
  let h := mkHandle Scripted.rewards_1002 [] in
  let w := MaxAndSkip_init G h 4 true in
  (∃ w' h' frame (olast : Outcome Z),
     MaxAndSkip_step G w h 2
       = Ok (w', h', (frame, 3, o_absorbing olast, o_info olast))
     ∧ calls h' = [CStep 2; CStep 2; CStep 2; CStep 2]
     ∧ frame = U8 [30; 40])
  ∧ (∃ w' h' info o2 o3,
       MaxAndSkip_step G w h 2 = Ok (w', h', (pool_of w o2 o3, 3, false, info))
       ∧ (Scripted.outcome <$> Scripted.rewards_1002) !! 2%nat = Some o2
       ∧ (Scripted.outcome <$> Scripted.rewards_1002) !! 3%nat = Some o3).
Proof.
  intros G h w. split.
  - destruct (proj1 frame_skip_step Z _ _ G w h 2)
      as (w' & h' & frame & olast & Hstep & _ & _ & Hc & _ & _ & Hpool).
    { simpl. lia. }
    destruct Hpool as (o2 & o3 & Ho2 & Ho3 & Hf).
    { reflexivity. }
    { simpl. lia. }
    exists w', h', frame, olast. repeat split.
    + exact Hstep.
    + exact Hc.
    + rewrite Hf. vm_compute in Ho2, Ho3.
      injection Ho2 as <-. injection Ho3 as <-. reflexivity.
  - apply (proj2 frame_skip_step _ G w h 2).
    + reflexivity.
    + reflexivity.
    + repeat constructor.
Defined.

(* C1 as it is stated fails when the game ends early in the skip loop: the
   sub-steps 2 and 3 are not gone through and the frame is the one of the
   untouched (here initial, all-zero) buffer. *)
Lemma frame_skip_step_early_end :
  let G := Scripted.game Scripted.breakout [0; 0] Scripted.over_at_once in
  let h := mkHandle Scripted.over_at_once [] in
  let w := MaxAndSkip_init G h 4 true in
  (∃ w' h' info,
     MaxAndSkip_step G w h 2 = Ok (w', h', (U8 [0; 0], 5, true, info))
     ∧ calls h' = [CStep 2])
  ∧ ¬ pools_last_two G w h 2.
Proof.
  intros G h w. split.
  - eexists _, _, _. split; reflexivity.
  - intros Hpools.
    edestruct Hpools as (o2 & o3 & Ho2 & _); [reflexivity|].
    vm_compute in Ho2. discriminate Ho2.
Qed.

(** C10.  When a sub-step of index j < skip - 2 of a wrapped step reports
    absorbing, the step writes neither slot of the pooling buffer: the
    wrapper is left as it was and the returned frame is the pooling of the
    buffer as it stood before the call, which is the all-zero buffer if the
    wrapper has just been constructed. *)
Theorem early_absorbing_stale_frame :
  ∀ (R : Type) (HR : Reward R) (Sim : Type) (G : GymLib R Sim)
    (w : MaxAndSkip) (h : Handle Sim) (action : Z) (j : nat) (o : Outcome R),
    substeps G (_skip w) (sim h) action !! j = Some o →
    o_absorbing o = true →
    Z.of_nat j < _skip w - 2 →
    ∃ h' total,
      MaxAndSkip_step G w h action = Ok (w, h', (pool w, total, true, o_info o))
      ∧ calls h' = calls h ++ replicate (S j) (CStep action)
      ∧ ∀ e skip mp, w = MaxAndSkip_init G e skip mp →
          pool w = let n := foldr Nat.mul 1%nat
                              (observation_space_shape G (sim e)) in
                   if mp then U8 (replicate n 0) else F64 (replicate n 0%Q).
Proof.
  intros R HR Sim G w h action j o Hj Habs Hlt.
  destruct (FrameSkip.MaxAndSkip_step_spec G w h action ltac:(lia))
    as (w' & h' & olast & Hstep & Hlast & Hc & _ & Hk & Hm & H1 & H2).
  pose proof (FrameSkip.until_absorbing_lookup _ _ _ Hj Habs) as Hlen.
  fold (substeps G (_skip w) (sim h) action) in Hlen.
  assert (olast = o) as ->.
  { rewrite last_lookup, Hlen in Hlast. simpl in Hlast. congruence. }
  assert (w' = w) as ->.
  { unfold slot_after in H1, H2.
    destruct (Z.leb_spec 0 (_skip w - 2)); [|lia].
    destruct (Z.leb_spec 0 (_skip w - 1)); [|lia].
    rewrite lookup_ge_None_2 in H1 by lia.
    rewrite lookup_ge_None_2 in H2 by lia.
    destruct w as [[b0 b1] k m], w' as [[b0' b1'] k' m'].
    simpl in *. by subst. }
  exists h', (reward_sum (o_reward <$> substeps G (_skip w) (sim h) action)).
  rewrite Hstep, Habs, Hc, Hlen. repeat split; try done.
  intros e skip mp ->. apply FrameSkip.pool_init.
Qed.

Lemma early_absorbing_stale_frame_witness :
  let G := Scripted.game Scripted.breakout [0; 0] Scripted.over_at_once in
  let h := mkHandle Scripted.over_at_once [] in
  let w := MaxAndSkip_init G h 4 false in
  ∃ h' total,
    MaxAndSkip_step G w h 2
      = Ok (w, h', (F64 [0%Q; 0%Q], total, true, Scripted.info_lives 0))
    ∧ calls h' = [CStep 2].
Proof.
  intros G h w.
  destruct (early_absorbing_stale_frame Z _ _ G w h 2 0%nat
              (mkOutcome [10; 200] 5 true (Scripted.info_lives 0)))
    as (h' & total & Hstep & Hc & Hinit).
  - reflexivity.
  - reflexivity.
  - simpl. lia.
  - exists h', total. split; [|exact Hc].
    rewrite Hstep. rewrite (Hinit h 4 false eq_refl). reflexivity.
Defined.

(* --------------------------------------------------------------------- *)
(* The Atari adapter                                                     *)
(* --------------------------------------------------------------------- *)

Lemma bind_Ok {A B} (m : result A) (f : A → result B) b :
  m ≫= f = Ok b → ∃ a, m = Ok a ∧ f a = Ok b.
Proof. destruct m as [a|e]; simpl; [eauto|done]. Qed.

Lemma from_option_Ok {A} e (o : option A) a : from_option e o = Ok a → o = Some a.
Proof. destruct o; simpl; congruence. Qed.

Section LastN.

Context {A : Type}.
Implicit Types l k : list A.

Lemma last_n_length n l : length (last_n n l) = Nat.min n (length l).
Proof. unfold last_n. rewrite length_drop. lia. Qed.

Lemma last_n_all n l : (length l ≤ n)%nat → last_n n l = l.
Proof. unfold last_n. intros Hl. by replace (length l - n)%nat with 0%nat by lia. Qed.

Lemma last_n_app_ge n l k : (n ≤ length k)%nat → last_n n (l ++ k) = last_n n k.
Proof.
  unfold last_n. intros Hk. rewrite length_app, drop_app_ge by lia.
  f_equal. lia.
Qed.

Lemma last_n_last_n_app n l k : last_n n (last_n n l ++ k) = last_n n (l ++ k).
Proof.
  destruct (decide (length l ≤ n)%nat) as [Hle|Hgt].
  { by rewrite (last_n_all n l). }
  unfold last_n. rewrite !length_app, length_drop.
  set (m := (length l - n)%nat).
  destruct (decide (length k ≤ n)%nat) as [Hk|Hk].
  - rewrite (drop_app_le (drop m l) k) by (rewrite length_drop; lia).
    rewrite drop_drop, (drop_app_le l k) by lia.
    do 2 f_equal. lia.
  - rewrite (drop_app_ge (drop m l) k) by (rewrite length_drop; lia).
    rewrite (drop_app_ge l k) by lia.
    rewrite length_drop. f_equal. lia.
Qed.

(* A full buffer of capacity n >= 1 loses its oldest frame to a new one. *)
Lemma last_n_push n l x :
  length l = n → (1 ≤ n)%nat → last_n n (l ++ [x]) = drop 1 l ++ [x].
Proof.
  intros Hl Hn. unfold last_n. rewrite length_app. simpl.
  rewrite drop_app_le by lia. do 2 f_equal. lia.
Qed.

End LastN.

Module AtariFacts.

Import AtariEnv Trace.

Section AtariFacts.

Context {R : Type} `{Reward R} {Sim : Type} (G : GymLib R Sim).
Context {PFrame : Type}.
Context (preprocess_frame : ndarray → option (option Z * option Z) → bool → PFrame).
Context (ATARI_ARI_INSTALLED : bool) (atari_dict_keys : list string).

Implicit Types (e : @EnvObj Sim) (a : @Atari Sim PFrame) (h : Handle Sim).

Lemma handle_with_handle e h : handle (with_handle e h) = h.
Proof. by destruct e. Qed.

Lemma with_handle_twice e h h' : with_handle (with_handle e h) h' = with_handle e h'.
Proof. by destruct e. Qed.

Lemma with_handle_same e : with_handle e (handle e) = e.
Proof. by destruct e. Qed.

Lemma skips_with_handle e h : skips (with_handle e h) ↔ skips e.
Proof. by destruct e. Qed.

Lemma sim_after_S n s action :
  sim_after G (S n) s action = (env_step G (sim_after G n s action) action).1.
Proof.
  revert s. induction n as [|n IH]; intros s; [done|].
  change (sim_after G (S (S n)) s action)
    with (sim_after G (S n) (env_step G s action).1 action).
  by rewrite IH.
Qed.

(* One step of the inner environment: a single call on the simulator, the
   wrapper is not gone through. *)
Lemma inner_step_spec e action :
  inner_step G e action = with_handle e (handle (inner_step G e action))
  ∧ calls (handle (inner_step G e action)) = calls (handle e) ++ [CStep action]
  ∧ sim (handle (inner_step G e action)) = (env_step G (sim (handle e)) action).1.
Proof.
  unfold inner_step, raw_step.
  destruct (env_step G (sim (handle e)) action) as [s' o]. simpl.
  rewrite handle_with_handle. done.
Qed.

(* The no-op loop: as many steps of the inner environment under action 0
   as the counter says, after which the counter is not positive. *)
Lemma noop_loop_spec fuel n e :
  fuel = Z.to_nat n →
  let r := noop_loop G fuel e n in
  r.1 = with_handle e (handle r.1)
  ∧ calls (handle r.1) = calls (handle e) ++ replicate fuel (CStep 0)
  ∧ sim (handle r.1) = sim_after G fuel (sim (handle e)) 0
  ∧ r.2 = Z.min n 0.
Proof.
  revert n e. induction fuel as [|fuel IH]; intros n e Hfuel; simpl.
  { rewrite with_handle_same, app_nil_r. repeat split; try done. lia. }
  destruct (Z.ltb_spec 0 n) as [Hn|Hn]; [|lia].
  destruct (IH (n - 1) (inner_step G e 0) ltac:(lia)) as (He & Hc & Hs & Hk).
  destruct (inner_step_spec e 0) as (He0 & Hc0 & Hs0).
  repeat split.
  - rewrite He at 1. rewrite He0 at 1. by rewrite with_handle_twice.
  - rewrite Hc, Hc0, <- app_assoc. done.
  - rewrite Hs, Hs0. done.
  - rewrite Hk. lia.
Qed.

Lemma prime_spec a n :
  _current_no_op a = Some n →
  ∃ e2,
    prime G a
      = Ok (e2, match _force_fire a with Some true => Some false | ff => ff end,
            Z.min n 0)
    ∧ e2 = with_handle (env a) (handle e2)
    ∧ calls (handle e2) = calls (handle (env a)) ++ priming_calls a n.
Proof.
  intros Hn. unfold prime, priming_calls. rewrite Hn. simpl.
  set (e1 := match _force_fire a with
             | Some true => inner_step G (env a) 1 | _ => env a end).
  assert (He1 : e1 = with_handle (env a) (handle e1)
          ∧ calls (handle e1) = calls (handle (env a)) ++
              match _force_fire a with Some true => [CStep 1] | _ => [] end).
  { unfold e1. destruct (_force_fire a) as [[]|].
    - destruct (inner_step_spec (env a) 1) as (? & ? & _). done.
    - by rewrite with_handle_same, app_nil_r.
    - by rewrite with_handle_same, app_nil_r. }
  destruct He1 as (He1 & Hc1).
  destruct (noop_loop_spec (Z.to_nat n) n e1 eq_refl) as (He & Hc & _ & Hk).
  exists (noop_loop G (Z.to_nat n) e1 n).1.
  repeat split.
  - assert (Hsame : (match _force_fire a with
                     | Some true => (inner_step G (env a) 1, Some false)
                     | ff => (env a, ff) end)
             = (e1, match _force_fire a with Some true => Some false | ff => ff end)).
    { unfold e1. by destruct (_force_fire a) as [[]|]. }
    rewrite Hsame.
    destruct (noop_loop G (Z.to_nat n) e1 n) as [e2 n2] eqn:Hloop.
    simpl in *. by rewrite Hk.
  - rewrite He at 1. rewrite He1 at 1. by rewrite with_handle_twice.
  - rewrite Hc, Hc1, <- app_assoc. done.
Qed.

Lemma run_raw_Forall (P : Outcome R → Prop) n s action :
  (∀ s, P (env_step G s action).2) → Forall P (run_raw G n s action).
Proof.
  intros HP. revert s. induction n as [|n IH]; intros s; simpl; [constructor|].
  specialize (HP s).
  destruct (env_step G s action) as [s' o]. constructor; [done|apply IH].
Qed.

Lemma until_absorbing_Forall (P : Outcome R → Prop) os :
  Forall P os → Forall P (until_absorbing os).
Proof.
  induction 1 as [|o os Ho _ IH]; simpl; [constructor|].
  destruct (o_absorbing o); repeat constructor; done.
Qed.

Lemma Forall_replicate_step n action : Forall is_step (replicate n (CStep action)).
Proof. apply Forall_replicate. by exists action. Qed.

(* self.env.step(action) succeeds when the skip count is positive; it only
   steps the simulator and keeps the kind of the environment and the skip
   count. *)
Lemma wrapped_step_spec e action :
  skips e →
  ∃ e3 obs reward absorbing info l,
    wrapped_step G e action = Ok (e3, (obs, reward, absorbing, info))
    ∧ calls (handle e3) = calls (handle e) ++ l
    ∧ Forall is_step l
    ∧ (∃ s, info = o_info (env_step G s action).2)
    ∧ match e, e3 with
      | EMaxAndSkip w _, EMaxAndSkip w' _ =>
        _skip w' = _skip w ∧ _max_pooling w' = _max_pooling w
      | EAtariARI _, EAtariARI _ | EPlain _, EPlain _ => True
      | _, _ => False
      end.
Proof.
  intros Hs.
  destruct e as [w h|h|h]; simpl in Hs.
  - destruct (FrameSkip.MaxAndSkip_step_spec G w h action Hs)
      as (w' & h' & olast & Hstep & Hlast & Hc & _ & Hk & Hm & _).
    eexists (EMaxAndSkip w' h'), (pool w'), _, (o_absorbing olast), (o_info olast), _.
    unfold wrapped_step. rewrite Hstep. simpl.
    repeat split; try done.
    + apply Forall_replicate_step.
    + apply last_Some_elem_of in Hlast.
      assert (HF : Forall (λ o, ∃ s, o_info o = o_info (env_step G s action).2)
                     (substeps G (_skip w) (sim h) action)).
      { apply until_absorbing_Forall, run_raw_Forall.
        intros s. by exists s. }
      eapply Forall_forall in HF; [|exact Hlast]. done.
  - unfold wrapped_step, raw_step. simpl.
    destruct (env_step G (sim h) action) as [s' o] eqn:Hstep. simpl.
    eexists _, _, _, _, _, [CStep action]. repeat split.
    + repeat constructor. by exists action.
    + exists (sim h). by rewrite Hstep.
  - unfold wrapped_step, raw_step. simpl.
    destruct (env_step G (sim h) action) as [s' o] eqn:Hstep. simpl.
    eexists _, _, _, _, _, [CStep action]. repeat split.
    + repeat constructor. by exists action.
    + exists (sim h). by rewrite Hstep.
Qed.

Lemma wrapped_step_Ok_skips e action r :
  wrapped_step G e action = Ok r → skips e.
Proof.
  destruct e as [w h|h|h]; simpl; try done.
  destruct (Z.le_gt_cases 1 (_skip w)) as [Hs|Hs]; [done|].
  rewrite FrameSkip.MaxAndSkip_step_no_pass by lia. done.
Qed.

Lemma deque_new_replicate (f : PFrame) (hl : Z) :
  0 ≤ hl →
  deque_new (replicate (Z.to_nat hl) f) hl
  = Ok (mkDeque (replicate (Z.to_nat hl) f) hl).
Proof.
  intros Hhl. unfold deque_new.
  destruct (Z.ltb_spec hl 0); [lia|].
  rewrite last_n_all; [done|]. by rewrite length_replicate.
Qed.

Lemma action_meaning_is_spec e i s m :
  get_action_meanings G (sim (handle e)) !! i = Some m →
  action_meaning_is G e i s = Ok (bool_decide (m = s)).
Proof. unfold action_meaning_is. by intros ->. Qed.

Lemma np_random_randint_spec high u :
  0 < high →
  np_random_randint high u = Ok (u mod high) ∧ 0 ≤ u mod high < high.
Proof.
  intros Hh. unfold np_random_randint.
  destruct (Z.leb_spec high 0); [lia|].
  split; [done|]. by apply Z.mod_pos_bound.
Qed.

(* Atari.reset when a full reset is due. *)
Lemma Atari_reset_full a u m :
  _real_reset a = true →
  0 ≤ _history_length a →
  0 ≤ _max_no_op_actions a →
  get_action_meanings G (sim (handle (wrapped_reset G (env a)).1)) !! 1%nat = Some m →
  let f := reset_frame G preprocess_frame a in
  let fs := replicate (Z.to_nat (_history_length a)) f in
  Atari_reset G preprocess_frame a u
  = Ok ({| env := (wrapped_reset G (env a)).1; augmented := augmented a;
           grey_and_rescale := grey_and_rescale a; _img_size := _img_size a;
           _episode_ends_at_life := _episode_ends_at_life a;
           _max_lives := _max_lives a; _lives := _max_lives a;
           _force_fire := Some (bool_decide (m = "FIRE"));
           _real_reset := true;
           _max_no_op_actions := _max_no_op_actions a;
           _history_length := _history_length a;
           _current_no_op := Some (u mod (_max_no_op_actions a + 1));
           _state := Some (mkDeque fs (_history_length a)) |},
        mkLazyFrames fs (_history_length a)).
Proof.
  intros Hreal Hhl Hmax Hm f fs. unfold Atari_reset. rewrite Hreal.
  unfold reset_frame in f.
  destruct (wrapped_reset G (env a)) as [e obs] eqn:Hreset. simpl in *.
  fold f. rewrite deque_new_replicate by done. simpl.
  rewrite (action_meaning_is_spec _ _ _ _ Hm). simpl.
  destruct (np_random_randint_spec (_max_no_op_actions a + 1) u ltac:(lia))
    as [-> _].
  done.
Qed.

(* Atari.reset when the previous episode did not end in the simulator. *)
Lemma Atari_reset_soft a u m d :
  _real_reset a = false →
  _state a = Some d →
  0 ≤ _max_no_op_actions a →
  get_action_meanings G (sim (handle (env a))) !! 1%nat = Some m →
  Atari_reset G preprocess_frame a u
  = Ok ({| env := env a; augmented := augmented a;
           grey_and_rescale := grey_and_rescale a; _img_size := _img_size a;
           _episode_ends_at_life := _episode_ends_at_life a;
           _max_lives := _max_lives a; _lives := _lives a;
           _force_fire := Some (bool_decide (m = "FIRE"));
           _real_reset := false;
           _max_no_op_actions := _max_no_op_actions a;
           _history_length := _history_length a;
           _current_no_op := Some (u mod (_max_no_op_actions a + 1));
           _state := Some d |},
        mkLazyFrames (items d) (_history_length a)).
Proof.
  intros Hreal Hd Hmax Hm. unfold Atari_reset. rewrite Hreal. simpl.
  rewrite (action_meaning_is_spec _ _ _ _ Hm). simpl.
  destruct (np_random_randint_spec (_max_no_op_actions a + 1) u ltac:(lia))
    as [-> _].
  simpl. rewrite Hd. done.
Qed.

(* Atari.step, from what its parts give. *)
Lemma Atari_step_locals_spec a action e2 fire1 n2 e3 obs reward absorbing info
    lives d m :
  prime G a = Ok (e2, fire1, n2) →
  wrapped_step G e2 action = Ok (e3, (obs, reward, absorbing, info)) →
  info !! "ale.lives" = Some lives →
  (lives ≠ _lives a → get_action_meanings G (sim (handle e3)) !! 1%nat = Some m) →
  _state a = Some d →
  let changed := bool_decide (lives ≠ _lives a) in
  let d' := deque_append d
              (preprocess_frame obs (_img_size a) (grey_and_rescale a)) in
  Atari_step_locals G preprocess_frame a action
  = Ok ({| env := e3; augmented := augmented a;
           grey_and_rescale := grey_and_rescale a; _img_size := _img_size a;
           _episode_ends_at_life := _episode_ends_at_life a;
           _max_lives := _max_lives a;
           _lives := if changed then lives else _lives a;
           _force_fire := if changed then Some (bool_decide (m = "FIRE"))
                          else fire1;
           _real_reset := absorbing;
           _max_no_op_actions := _max_no_op_actions a;
           _history_length := _history_length a;
           _current_no_op := Some n2; _state := Some d' |},
        (mkLazyFrames (items d') (_history_length a), reward,
         if changed then (if _episode_ends_at_life a then true else absorbing)
         else absorbing,
         info, obs)).
Proof.
  intros Hprime Hstep Hlives Hm Hd changed d'.
  unfold Atari_step_locals. rewrite Hprime. simpl. rewrite Hstep. simpl.
  rewrite Hlives. simpl. fold changed. unfold changed.
  case_bool_decide as Hch.
  - rewrite (action_meaning_is_spec _ _ _ _ (Hm Hch)). simpl.
    rewrite Hd. done.
  - simpl. rewrite Hd. done.
Qed.

Lemma Atari_step_of_locals a action a' frames reward absorbing info obs :
  Atari_step_locals G preprocess_frame a action
    = Ok (a', (frames, reward, absorbing, info, obs)) →
  Atari_step G preprocess_frame a action
  = Ok (a', {| s_frames := frames; s_reward := reward; s_absorbing := absorbing;
               s_info := info;
               s_obs := if augmented a then Some obs else None |}).
Proof. unfold Atari_step. by intros ->. Qed.

Lemma Atari_step_locals_of_step a action a' out :
  Atari_step G preprocess_frame a action = Ok (a', out) →
  ∃ obs, Atari_step_locals G preprocess_frame a action
         = Ok (a', (s_frames out, s_reward out, s_absorbing out, s_info out, obs)).
Proof.
  unfold Atari_step. intros Hstep.
  apply bind_Ok in Hstep as ([a1 [[[[fr r] ab] inf] obs]] & Hloc & Hret).
  simpl in Hret. injection Hret as <- <-. by exists obs.
Qed.

(* What a completed construction gives. *)
Lemma Atari_init_Ok name width height ends_at_life max_pooling history_length
    max_no_op_actions a :
  Atari_init (PFrame := PFrame) G ATARI_ARI_INSTALLED atari_dict_keys name
    width height ends_at_life max_pooling history_length max_no_op_actions
    = Ok a →
  _state a = None ∧ _real_reset a = true
  ∧ _history_length a = history_length
  ∧ _episode_ends_at_life a = ends_at_life
  ∧ _max_no_op_actions a = max_no_op_actions
  ∧ _force_fire a = None ∧ _current_no_op a = None
  ∧ skip_is_history a
  ∧ (str_contains "NoFrameskip" name = true →
     let h := mkHandle (gym_make G name) [] in
     env a = EMaxAndSkip (MaxAndSkip_init G h history_length max_pooling) h
     ∧ augmented a = false).
Proof.
  unfold Atari_init.
  set (sel := if str_contains "NoFrameskip" name then _ else _).
  assert (Hsel : (str_contains "NoFrameskip" name = true →
                  sel = (EMaxAndSkip
                           (MaxAndSkip_init G (mkHandle (gym_make G name) [])
                              history_length max_pooling)
                           (mkHandle (gym_make G name) []), false))
                 ∧ match skip_of sel.1 with
                   | Some skip => skip = history_length
                   | None => True
                   end).
  { unfold sel. destruct (str_contains "NoFrameskip" name); simpl.
    - done.
    - split; [done|].
      destruct (_ && _); [|done]. by case_bool_decide. }
  destruct Hsel as [Hno Hskip]. clearbody sel. destruct sel as [e aug].
  match goal with
  | |- context [let '(_, _) := ?x in _] => destruct x as [grey img_size]
  end.
  intros Hinit. apply bind_Ok in Hinit as (noop & _ & Hinit).
  destruct noop; [|done]. injection Hinit as <-. simpl in *.
  split_and!; try done.
  intros Hname. by injection (Hno Hname) as -> ->.
Qed.

(* What a completed reset gives. *)
Lemma Atari_reset_Ok a u a' frames :
  Atari_reset G preprocess_frame a u = Ok (a', frames) →
  _history_length a' = _history_length a
  ∧ _real_reset a' = _real_reset a
  ∧ (∃ n, _current_no_op a' = Some n
          ∧ n = u mod (_max_no_op_actions a + 1)
          ∧ 0 ≤ n ≤ _max_no_op_actions a)
  ∧ (∃ d, _state a' = Some d
          ∧ frames = mkLazyFrames (items d) (_history_length a))
  ∧ if _real_reset a
    then 0 ≤ _history_length a
         ∧ env a' = (wrapped_reset G (env a)).1
         ∧ _lives a' = _max_lives a
         ∧ _state a' = Some (mkDeque
                               (replicate (Z.to_nat (_history_length a))
                                  (reset_frame G preprocess_frame a))
                               (_history_length a))
    else env a' = env a ∧ _lives a' = _lives a ∧ _state a' = _state a.
Proof.
  unfold Atari_reset, reset_frame. intros Hreset.
  apply bind_Ok in Hreset as ([[e st] lives] & Hfirst & Hreset).
  apply bind_Ok in Hreset as (fire & _ & Hreset).
  apply bind_Ok in Hreset as (n & Hn & Hreset).
  apply bind_Ok in Hreset as (d & Hd & Hreset).
  apply from_option_Ok in Hd as ->.
  injection Hreset as <- <-. simpl.
  assert (Hrange : n = u mod (_max_no_op_actions a + 1)
                   ∧ 0 ≤ n ≤ _max_no_op_actions a).
  { unfold np_random_randint in Hn.
    destruct (Z.leb_spec (_max_no_op_actions a + 1) 0); [done|].
    injection Hn as <-.
    pose proof (Z.mod_pos_bound u (_max_no_op_actions a + 1)). lia. }
  repeat split; eauto.
  destruct (_real_reset a).
  - destruct (wrapped_reset G (env a)) as [e0 obs]. simpl in *.
    destruct (Z.le_gt_cases 0 (_history_length a)) as [Hhl|Hhl].
    + rewrite deque_new_replicate in Hfirst by done.
      injection Hfirst as <- <- <-. done.
    + unfold deque_new in Hfirst.
      destruct (Z.ltb_spec (_history_length a) 0); [done|lia].
  - simpl in Hfirst. injection Hfirst as <- <- <-. done.
Qed.

(* What a completed step gives. *)
Lemma Atari_step_locals_Ok a action a' frames reward absorbing info obs :
  Atari_step_locals G preprocess_frame a action
    = Ok (a', (frames, reward, absorbing, info, obs)) →
  ∃ d n e3 absorbing0,
    _state a = Some d ∧ _current_no_op a = Some n
    ∧ wrapped_step G (prime_env G a) action
      = Ok (e3, (obs, reward, absorbing0, info))
    ∧ env a' = e3
    ∧ _real_reset a' = absorbing0
    ∧ _state a' = Some (deque_append d
                          (preprocess_frame obs (_img_size a) (grey_and_rescale a)))
    ∧ frames = mkLazyFrames
                 (items (deque_append d
                           (preprocess_frame obs (_img_size a) (grey_and_rescale a))))
                 (_history_length a)
    ∧ _history_length a' = _history_length a
    ∧ _img_size a' = _img_size a
    ∧ grey_and_rescale a' = grey_and_rescale a
    ∧ _max_no_op_actions a' = _max_no_op_actions a
    ∧ _current_no_op a' = Some (Z.min n 0).
Proof.
  unfold Atari_step_locals. intros Hstep.
  apply bind_Ok in Hstep as ([[e2 fire1] n2] & Hprime & Hstep).
  apply bind_Ok in Hstep as ([e3 [[[obs0 reward0] absorbing0] info0]] & Hw & Hstep).
  apply bind_Ok in Hstep as (lives & _ & Hstep).
  apply bind_Ok in Hstep as ([[absorbing' lives'] fire'] & _ & Hstep).
  apply bind_Ok in Hstep as (d & Hd & Hstep).
  apply from_option_Ok in Hd.
  injection Hstep as <- <- <- <- <- <-.
  destruct (_current_no_op a) as [n|] eqn:Hn.
  2: { unfold prime in Hprime. rewrite Hn in Hprime.
       by destruct (_force_fire a) as [[]|]. }
  destruct (prime_spec a n Hn) as (e2' & Hprime' & _).
  unfold prime_env. rewrite Hprime' in Hprime. injection Hprime as -> _ <-.
  exists d, n, e3, absorbing0. rewrite Hprime'. simpl. repeat split; done.
Qed.

Lemma skip_of_with_handle e h : skip_of (with_handle e h) = skip_of e.
Proof. by destruct e. Qed.

Lemma wrapped_step_skip_of e action e3 out :
  wrapped_step G e action = Ok (e3, out) → skip_of e3 = skip_of e.
Proof.
  intros Hstep.
  destruct (wrapped_step_spec e action (wrapped_step_Ok_skips _ _ _ Hstep))
    as (e3' & obs & reward & absorbing & info & l & Hstep' & _ & _ & _ & Hkind).
  rewrite Hstep' in Hstep. injection Hstep as -> _.
  destruct e, e3; simpl in *; try done. f_equal. tauto.
Qed.

Lemma prime_env_spec a n :
  _current_no_op a = Some n →
  prime_env G a = with_handle (env a) (handle (prime_env G a))
  ∧ calls (handle (prime_env G a)) = calls (handle (env a)) ++ priming_calls a n.
Proof.
  intros Hn. destruct (prime_spec a n Hn) as (e2 & Hprime & He2 & Hc).
  unfold prime_env. rewrite Hprime. done.
Qed.


Lemma deque_append_full (d : deque PFrame) f hl :
  maxlen d = hl → Z.of_nat (length (items d)) = hl →
  maxlen (deque_append d f) = hl
  ∧ Z.of_nat (length (items (deque_append d f))) = hl.
Proof.
  intros Hm Hl. unfold deque_append. simpl. split; [done|].
  rewrite last_n_length, length_app. simpl. lia.
Qed.

(* The history buffer of an adapter is full from the first reset on, and
   the frame-skip wrapper always skips history_length frames. *)
Lemma reachable_inv a :
  reachable G preprocess_frame ATARI_ARI_INSTALLED atari_dict_keys a →
  buffer_full a ∧ skip_is_history a.
Proof.
  induction 1 as [name width height eal mp hl mno a Hinit
                 | a u a' frames _ [IHb IHs] Hreset
                 | a action a' out _ [IHb IHs] Hstep
                 | a _ [IHb IHs]
                 | a eal _ [IHb IHs]].
  - apply Atari_init_Ok in Hinit as (Hst & Hreal & _ & _ & _ & _ & _ & Hskip & _).
    split; [|done]. unfold buffer_full. by rewrite Hst.
  - apply Atari_reset_Ok in Hreset as (Hhl & Hreal & _ & (d & Hd & _) & Hpath).
    unfold buffer_full, skip_is_history in *. rewrite Hhl, Hd.
    destruct (_real_reset a).
    + destruct Hpath as (Hpos & He & _ & Hst).
      rewrite Hd in Hst. injection Hst as ->. simpl.
      rewrite length_replicate, He.
      unfold wrapped_reset. destruct (raw_reset G (handle (env a))) as [h' obs].
      simpl. rewrite skip_of_with_handle. split; [lia|done].
    + destruct Hpath as (He & _ & Hst). rewrite He.
      rewrite Hd in Hst. by rewrite <- Hst in IHb.
  - apply Atari_step_locals_of_step in Hstep as (obs & Hstep).
    apply Atari_step_locals_Ok in Hstep
      as (d & n & e3 & ab0 & Hd & Hn & Hw & He & _ & Hd' & _ & Hhl & _).
    unfold buffer_full, skip_is_history in *.
    rewrite Hd in IHb. rewrite Hd', Hhl, He.
    destruct IHb as [IHm IHl].
    split; [by apply deque_append_full|].
    rewrite (wrapped_step_skip_of _ _ _ _ Hw).
    destruct (prime_env_spec a n Hn) as [-> _].
    by rewrite skip_of_with_handle.
  - unfold buffer_full, skip_is_history in *. simpl.
    rewrite skip_of_with_handle. split; [|done].
    by destruct (_state a).
  - done.
Qed.

(* Atari.step succeeds on an adapter that has been reset, for a game of the
   arcade learning environment. *)
Lemma Atari_step_locals_total a action n d :
  ale_game G → skips (env a) →
  _current_no_op a = Some n → _state a = Some d →
  ∃ a' frames reward absorbing info obs,
    Atari_step_locals G preprocess_frame a action
      = Ok (a', (frames, reward, absorbing, info, obs)).
Proof.
  intros [Hlives Hmean] Hskips Hn Hd.
  destruct (prime_spec a n Hn) as (e2 & Hprime & He2 & _).
  destruct (wrapped_step_spec e2 action)
    as (e3 & obs & reward & absorbing & info & l & Hw & _ & _ & [s Hinfo] & _).
  { rewrite He2. unfold skips in *. by rewrite skip_of_with_handle. }
  destruct (Hlives s action) as [lives Hl]. rewrite <- Hinfo in Hl.
  destruct (Hmean (sim (handle e3))) as [m Hm].
  eexists _, _, _, _, _, _.
  by eapply (Atari_step_locals_spec a action e2 _ _ e3 obs reward absorbing info
               lives d m).
Qed.

(* Successive steps push their frames on the history buffer, which keeps
   the last ones. *)
Lemma Atari_steps_spec actions : ∀ a n d,
  ale_game G → skips (env a) →
  _current_no_op a = Some n → _state a = Some d →
  (length (items d) ≤ Z.to_nat (maxlen d))%nat →
  ∃ a2 ls,
    Atari_steps G preprocess_frame a actions = Ok (a2, ls)
    ∧ length ls = length actions
    ∧ _state a2
      = Some (mkDeque (last_n (Z.to_nat (maxlen d))
                         (items d ++ (pushed preprocess_frame a <$> ls)))
                      (maxlen d))
    ∧ (∀ i l, ls !! i = Some l →
         view_of l = last_n (Z.to_nat (maxlen d))
                       (items d ++ take (S i) (pushed preprocess_frame a <$> ls)))
    ∧ _history_length a2 = _history_length a.
Proof.
  induction actions as [|action rest IH]; intros a n d Hale Hskips Hn Hd Hlen.
  { exists a, []. simpl. rewrite app_nil_r, last_n_all by done.
    split_and!; try done. by destruct d. }
  destruct (Atari_step_locals_total a action n d Hale Hskips Hn Hd)
    as (a1 & frames & reward & absorbing & info & obs & Hstep).
  pose proof Hstep as Hinv.
  apply Atari_step_locals_Ok in Hinv
    as (d0 & n0 & e3 & ab0 & Hd0 & Hn0 & Hw & He & _ & Hd1 & Hfr & Hhl & Himg
        & Hgrey & _ & Hn1).
  rewrite Hd in Hd0. injection Hd0 as <-.
  rewrite Hn in Hn0. injection Hn0 as <-.
  set (f := preprocess_frame obs (_img_size a) (grey_and_rescale a)) in *.
  destruct (IH a1 (Z.min n 0) (deque_append d f)) as (a2 & ls & Hrest & Hl & Hst & Hviews & Hhl2);
    try done.
  { unfold skips in *. rewrite He, (wrapped_step_skip_of _ _ _ _ Hw).
    destruct (prime_env_spec a n Hn) as [-> _].
    by rewrite skip_of_with_handle. }
  { simpl. rewrite last_n_length. lia. }
  assert (Hpushed : pushed preprocess_frame a1 <$> ls
                    = pushed preprocess_frame a <$> ls).
  { unfold pushed. by rewrite Himg, Hgrey. }
  rewrite Hpushed in Hst, Hviews. simpl in Hst, Hviews.
  exists a2, ((frames, reward, absorbing, info, obs) :: ls).
  simpl. rewrite Hstep. simpl. rewrite Hrest. simpl.
  change (pushed preprocess_frame a (frames, reward, absorbing, info, obs)) with f.
  split_and!; try done.
  - by rewrite Hl.
  - rewrite Hst, last_n_last_n_app, <- app_assoc. done.
  - intros [|i] l Hi.
    + injection Hi as <-. unfold view_of. simpl. rewrite Hfr. simpl.
      by rewrite take_0.
    + simpl in Hi. rewrite (Hviews i l Hi), last_n_last_n_app, <- app_assoc.
      done.
  - by rewrite Hhl2.
Qed.

Lemma wrapped_reset_spec e :
  (wrapped_reset G e).1 = with_handle e (handle (wrapped_reset G e).1)
  ∧ calls (handle (wrapped_reset G e).1) = calls (handle e) ++ [CReset]
  ∧ sim (handle (wrapped_reset G e).1) = (env_reset G (sim (handle e))).1
  ∧ (wrapped_reset G e).2 = (env_reset G (sim (handle e))).2.
Proof.
  unfold wrapped_reset, raw_reset.
  destruct (env_reset G (sim (handle e))) as [s' obs]. simpl.
  by rewrite handle_with_handle.
Qed.

Lemma Atari_reset_total a u :
  can_reset G a → ∃ a' frames, Atari_reset G preprocess_frame a u = Ok (a', frames).
Proof.
  unfold can_reset, reset_env. intros (Hmax & [m Hm] & Hpath).
  destruct (_real_reset a) eqn:Hreal.
  - eexists _, _. by apply (Atari_reset_full a u m).
  - destruct Hpath as [d Hd]. eexists _, _. by apply (Atari_reset_soft a u m d).
Qed.

Lemma Forall_priming_calls a n : Forall is_step (priming_calls a n).
Proof.
  unfold priming_calls. apply Forall_app. split.
  - destruct (_force_fire a) as [[]|]; repeat constructor. by exists 1.
  - apply Forall_replicate_step.
Qed.

End AtariFacts.

End AtariFacts.

(** C2.  On a step where the info of the simulator reports a lives count
    other than the stored one: with ends_at_life set (at construction or by
    set_episode_end) the returned absorbing flag is True whatever the flag
    of the simulator; with ends_at_life unset it is the flag of the
    simulator, and the force-fire flag is set for the new life to whether
    action 1 of the game is FIRE.  The simulator is only stepped, never
    reset, the history buffer only gets the new frame, and the next reset is
    a full one exactly when the simulator reported absorbing. *)
Theorem life_loss_handling :
  ∀ (R : Type) (HR : Reward R) (Sim : Type) (G : GymLib R Sim) (PFrame : Type)
    (preprocess_frame : ndarray → option (option Z * option Z) → bool → PFrame)
    (ARI : bool) (keys : list string),
  (∀ name width height ends_at_life max_pooling history_length
      max_no_op_actions (a : @Atari Sim PFrame),
      Atari_init G ARI keys name width height ends_at_life max_pooling
        history_length max_no_op_actions = Ok a →
      _episode_ends_at_life a = ends_at_life)
  ∧ (∀ (a : @Atari Sim PFrame) ends_at_life,
       _episode_ends_at_life (Atari_set_episode_end a ends_at_life) = ends_at_life)
  ∧ (∀ (a : @Atari Sim PFrame) action n e3 obs reward absorbing info lives d m,
       _current_no_op a = Some n →
       _state a = Some d →
       wrapped_step G (prime_env G a) action
         = Ok (e3, (obs, reward, absorbing, info)) →
       info !! "ale.lives" = Some lives →
       lives ≠ _lives a →
       get_action_meanings G (sim (handle e3)) !! 1%nat = Some m →
       ∃ a' out,
         Atari_step G preprocess_frame a action = Ok (a', out)
         ∧ s_absorbing out
           = (if _episode_ends_at_life a then true else absorbing)
         ∧ _force_fire a' = Some (bool_decide (m = "FIRE"))
         ∧ _lives a' = lives
         ∧ _real_reset a' = absorbing
         ∧ (∃ l, calls (handle (env a')) = calls (handle (env a)) ++ l
                 ∧ Forall is_step l)
         ∧ _state a'
           = Some (deque_append d
                     (preprocess_frame obs (_img_size a) (grey_and_rescale a)))).
Proof.
  intros R HR Sim G PFrame pf ARI keys. split_and!.
  - intros name width height eal mp hl mno a Hinit.
    by apply AtariFacts.Atari_init_Ok in Hinit as (_ & _ & _ & ? & _).
  - done.
  - intros a action n e3 obs reward absorbing info lives d m Hn Hd Hw Hl Hne Hm.
    destruct (AtariFacts.prime_spec G a n Hn) as (e2 & Hprime & He2 & Hc2).
    assert (He : prime_env G a = e2) by (unfold prime_env; by rewrite Hprime).
    rewrite He in Hw.
    pose proof (AtariFacts.Atari_step_locals_spec G pf a action e2 _ _ e3 obs
                  reward absorbing info lives d m Hprime Hw Hl (λ _, Hm) Hd)
      as Hloc.
    simpl in Hloc. rewrite bool_decide_eq_true_2 in Hloc by done.
    apply AtariFacts.Atari_step_of_locals in Hloc.
    eexists _, _. split; [exact Hloc|]. simpl. split_and!; try done.
    destruct (AtariFacts.wrapped_step_spec G e2 action
                (AtariFacts.wrapped_step_Ok_skips G _ _ _ Hw))
      as (e3' & ? & ? & ? & ? & l & Hw' & Hc3 & Hl3 & _).
    rewrite Hw' in Hw. injection Hw as -> _ _ _ _.
    exists (priming_calls a n ++ l). split.
    + by rewrite Hc3, Hc2, <- app_assoc.
    + apply Forall_app. split; [apply AtariFacts.Forall_priming_calls|done].
Qed.

(* The scripted adapter is what construction and a first reset give. *)
Lemma playing_reachable script ends_at_life noop :
  0 ≤ noop < 31 →
  Scripted.fresh script ends_at_life
    ≫= (λ a, Atari_reset (Scripted.game Scripted.breakout [7; 7] script)
               Scripted.keep a noop)
  = Ok (Scripted.playing script ends_at_life noop,
        mkLazyFrames (replicate 4 (U8 [7; 7])) 4)
  ∧ reachable (Scripted.game Scripted.breakout [7; 7] script) Scripted.keep
      false [] (Scripted.playing script ends_at_life noop).
Proof.
  intros Hnoop.
  assert (Hrun : Scripted.fresh script ends_at_life
    ≫= (λ a, Atari_reset (Scripted.game Scripted.breakout [7; 7] script)
               Scripted.keep a noop)
    = Ok (Scripted.playing script ends_at_life noop,
          mkLazyFrames (replicate 4 (U8 [7; 7])) 4)).
  { unfold Scripted.fresh, Atari_init. simpl.
    unfold Atari_reset. simpl. unfold np_random_randint. simpl.
    rewrite Z.mod_small by lia. reflexivity. }
  split; [exact Hrun|].
  apply bind_Ok in Hrun as (a0 & Hinit & Hreset).
  eapply reach_reset; [|exact Hreset].
  eapply reach_init. exact Hinit.
Qed.

Lemma life_loss_handling_witness :
  let G := Scripted.game Scripted.breakout [7; 7] Scripted.life_lost in
  (∃ a' out,
     Atari_step G Scripted.keep (Scripted.playing Scripted.life_lost true 0) 2
       = Ok (a', out)
     ∧ s_absorbing out = true ∧ _real_reset a' = false
     ∧ _force_fire a' = Some true ∧ _lives a' = 2)
  ∧ (∃ a' out,
     Atari_step G Scripted.keep (Scripted.playing Scripted.life_lost false 0) 2
       = Ok (a', out)
     ∧ s_absorbing out = false ∧ _real_reset a' = false
     ∧ _force_fire a' = Some true ∧ _lives a' = 2).
Proof.
  intros G. split.
  - edestruct (proj2 (proj2 (life_loss_handling Z _ _ G _ Scripted.keep false []))
                 (Scripted.playing Scripted.life_lost true 0) 2)
      as (a' & out & Hstep & Habs & Hfire & Hlives & Hreal & _).
    + reflexivity.
    + reflexivity.
    + vm_compute. reflexivity.
    + vm_compute. reflexivity.
    + vm_compute. discriminate.
    + reflexivity.
    + exists a', out. split_and!; assumption.
  - edestruct (proj2 (proj2 (life_loss_handling Z _ _ G _ Scripted.keep false []))
                 (Scripted.playing Scripted.life_lost false 0) 2)
      as (a' & out & Hstep & Habs & Hfire & Hlives & Hreal & _).
    + reflexivity.
    + reflexivity.
    + vm_compute. reflexivity.
    + vm_compute. reflexivity.
    + vm_compute. discriminate.
    + reflexivity.
    + exists a', out. split_and!; assumption.
Defined.









(** C5.  After a reset that takes the full-reset path the history buffer
    holds exactly history_length frames, each of them the preprocessed
    frame the simulator showed on reset; and after every reset of an adapter
    the buffer, and the stacked view returned, hold exactly history_length
    frames. *)
Theorem cold_start :
  ∀ (R : Type) (HR : Reward R) (Sim : Type) (G : GymLib R Sim) (PFrame : Type)
    (preprocess_frame : ndarray → option (option Z * option Z) → bool → PFrame)
    (ARI : bool) (keys : list string),
  (∀ (a : @Atari Sim PFrame) u,
     _real_reset a = true →
     can_reset G a →
     ∃ a' frames d,
       Atari_reset G preprocess_frame a u = Ok (a', frames)
       ∧ _state a' = Some d
       ∧ maxlen d = _history_length a'
       ∧ Z.of_nat (length (items d)) = _history_length a'
       ∧ Forall (λ f, f = reset_frame G preprocess_frame a) (items d)
       ∧ lf_frames frames = items d)
  ∧ (∀ (a : @Atari Sim PFrame) u,
       reachable G preprocess_frame ARI keys a →
       can_reset G a →
       ∃ a' frames d,
         Atari_reset G preprocess_frame a u = Ok (a', frames)
         ∧ _state a' = Some d
         ∧ maxlen d = _history_length a'
         ∧ Z.of_nat (length (items d)) = _history_length a'
         ∧ lf_frames frames = items d).
Proof.
  intros R HR Sim G PFrame pf ARI keys. split.
  - intros a u Hreal Hcan.
    destruct (AtariFacts.Atari_reset_total G pf a u Hcan) as (a' & frames & Hreset).
    pose proof Hreset as Hinv.
    apply AtariFacts.Atari_reset_Ok in Hinv as (Hhl & _ & _ & (d & Hd & ->) & Hpath).
    rewrite Hreal in Hpath. destruct Hpath as (Hpos & _ & _ & Hst).
    rewrite Hd in Hst. injection Hst as ->.
    eexists a', _, _. split_and!; try done; simpl.
    + rewrite length_replicate. lia.
    + by apply Forall_replicate.
  - intros a u Hreach Hcan.
    destruct (AtariFacts.Atari_reset_total G pf a u Hcan) as (a' & frames & Hreset).
    assert (Hreach' : reachable G pf ARI keys a') by (by eapply reach_reset).
    apply AtariFacts.reachable_inv in Hreach' as [Hfull _].
    apply AtariFacts.Atari_reset_Ok in Hreset as Hinv.
    destruct Hinv as (_ & _ & _ & (d & Hd & ->) & _).
    unfold buffer_full in Hfull. rewrite Hd in Hfull.
    exists a', (mkLazyFrames (items d) (_history_length a)), d.
    split_and!; tauto.
Qed.

Lemma scripted_ale_game first script :
  ale_game (Scripted.game Scripted.breakout first script).
Proof.
  split.
  - intros s action. simpl. destruct s as [|b s]; simpl; by eexists.
  - intros s. by eexists.
Qed.

Lemma cold_start_witness :
  let G := Scripted.game Scripted.breakout [7; 7] Scripted.life_lost in
  let a := Scripted.playing Scripted.life_lost true 0 in
  (∃ a' frames d,
     Atari_reset G Scripted.keep a 5 = Ok (a', frames)
     ∧ _state a' = Some d
     ∧ Z.of_nat (length (items d)) = 4
     ∧ Forall (λ f, f = U8 [7; 7]) (items d)
     ∧ lf_frames frames = items d)
  ∧ (∃ a' frames d,
     Atari_reset G Scripted.keep a 5 = Ok (a', frames)
     ∧ _state a' = Some d
     ∧ Z.of_nat (length (items d)) = _history_length a').
Proof.
  intros G a.
  pose proof (cold_start Z _ _ G _ Scripted.keep false []) as [Hcold Hlen].
  assert (Hcan : can_reset G a).
  { split_and!; [vm_compute; discriminate|by eexists|vm_compute; discriminate]. }
  split.
  - destruct (Hcold a 5 eq_refl Hcan)
      as (a' & frames & d & Hreset & Hd & _ & Hl & Hall & Hfr).
    apply AtariFacts.Atari_reset_Ok in Hreset as Hinv.
    destruct Hinv as (Hhl & _).
    exists a', frames, d. split_and!; try assumption.
    by rewrite Hl, Hhl.
  - destruct (Hlen a 5) as (a' & frames & d & Hreset & Hd & _ & Hl & _).
    + apply (playing_reachable Scripted.life_lost true 0). lia.
    + exact Hcan.
    + exists a', frames, d. split_and!; assumption.
Defined.

(** C6.  After a reset, history_length + k steps in a row leave in the
    history buffer exactly the frames pushed by the last history_length of
    them, in the order of their arrival.  All along, the stacked view a step
    returns holds the last history_length frames of the sequence made of the
    buffer at reset and of the frames pushed so far, so that each step drops
    the oldest frame and appends its own. *)
Theorem history_buffer_fifo :
  ∀ (R : Type) (HR : Reward R) (Sim : Type) (G : GymLib R Sim) (PFrame : Type)
    (preprocess_frame : ndarray → option (option Z * option Z) → bool → PFrame)
    (ARI : bool) (keys : list string)
    (a a1 : @Atari Sim PFrame) u frames actions (k : nat),
    ale_game G →
    reachable G preprocess_frame ARI keys a →
    skips (env a) →
    Atari_reset G preprocess_frame a u = Ok (a1, frames) →
    length actions = (Z.to_nat (_history_length a) + k)%nat →
    ∃ a2 ls d,
      Atari_steps G preprocess_frame a1 actions = Ok (a2, ls)
      ∧ length ls = length actions
      ∧ _state a2 = Some d
      ∧ Z.of_nat (length (items d)) = _history_length a
      ∧ items d = last_n (Z.to_nat (_history_length a))
                    (pushed preprocess_frame a1 <$> ls)
      ∧ (∀ i l, ls !! i = Some l →
           view_of l
           = last_n (Z.to_nat (_history_length a))
               (lf_frames frames
                ++ take (S i) (pushed preprocess_frame a1 <$> ls)))
      ∧ (1 ≤ _history_length a →
         ∀ i l l', ls !! i = Some l → ls !! S i = Some l' →
           view_of l' = drop 1 (view_of l) ++ [pushed preprocess_frame a1 l']).
Proof.
  intros R HR Sim G PFrame pf ARI keys a a1 u frames actions k
    Hale Hreach Hskips Hreset Hlen.
  assert (Hreach1 : reachable G pf ARI keys a1) by (by eapply reach_reset).
  apply AtariFacts.reachable_inv in Hreach1 as [Hfull _].
  apply AtariFacts.Atari_reset_Ok in Hreset
    as (Hhl & _ & (n & Hn & _) & (d1 & Hd1 & ->) & Hpath).
  unfold buffer_full in Hfull. rewrite Hd1, Hhl in Hfull.
  destruct Hfull as [Hmax Hfullen].
  assert (Hskips1 : skips (env a1)).
  { unfold skips in *. destruct (_real_reset a).
    - destruct Hpath as (_ & -> & _).
      destruct (AtariFacts.wrapped_reset_spec G (env a)) as [-> _].
      by rewrite (AtariFacts.skip_of_with_handle (Sim := Sim)).
    - by destruct Hpath as (-> & _). }
  destruct (AtariFacts.Atari_steps_spec G pf actions a1 n d1 Hale Hskips1 Hn Hd1
              ltac:(lia))
    as (a2 & ls & Hsteps & Hl & Hst & Hviews & _).
  rewrite Hmax in Hst, Hviews. simpl.
  set (fs := pushed pf a1 <$> ls) in *.
  assert (Hfs : length fs = length ls) by apply length_fmap.
  eexists a2, ls, _. split_and!; [done|done|exact Hst|..]; simpl.
  - rewrite last_n_length, length_app. lia.
  - apply last_n_app_ge. fold fs. lia.
  - exact Hviews.
  - intros Hpos i l l' Hi Hi'.
    rewrite (Hviews _ _ Hi), (Hviews _ _ Hi').
    assert (Hf : fs !! S i = Some (pushed pf a1 l')).
    { unfold fs. by rewrite list_lookup_fmap, Hi'. }
    rewrite (take_S_r _ _ _ Hf), app_assoc.
    rewrite <- last_n_last_n_app.
    apply last_n_push; [|lia].
    rewrite last_n_length, length_app. lia.
Qed.

Lemma history_buffer_fifo_witness :
  let G := Scripted.game Scripted.breakout [7; 7] Scripted.life_lost in
  let a := Scripted.playing Scripted.life_lost false 0 in
  ∃ a1 frames a2 ls d,
    Atari_reset G Scripted.keep a 0 = Ok (a1, frames)
    ∧ Atari_steps G Scripted.keep a1 [2; 2; 2; 2; 2] = Ok (a2, ls)
    ∧ length ls = 5%nat
    ∧ _state a2 = Some d
    ∧ items d = last_n 4 (pushed Scripted.keep a1 <$> ls).
Proof.
  intros G a.
  destruct (AtariFacts.Atari_reset_total G Scripted.keep a 0)
    as (a1 & frames & Hreset).
  { split_and!; [vm_compute; discriminate|by eexists|vm_compute; discriminate]. }
  destruct (history_buffer_fifo Z _ _ G _ Scripted.keep false [] a a1 0 frames
              [2; 2; 2; 2; 2] 1)
    as (a2 & ls & d & Hsteps & Hl & Hd & _ & Hitems & _).
  - apply scripted_ale_game.
  - apply (playing_reachable Scripted.life_lost false 0). lia.
  - vm_compute. discriminate.
  - exact Hreset.
  - reflexivity.
  - exists a1, frames, a2, ls, d. split_and!; assumption.
Defined.

Lemma until_absorbing_but_last {R} (os : list (Outcome R)) :
  (∀ j o, os !! j = Some o → (S j < length os)%nat → o_absorbing o = false) →
  until_absorbing os = os.
Proof.
  induction os as [|o os IH]; intros Hall; simpl; [done|].
  destruct os as [|o' os].
  { by destruct (o_absorbing o). }
  rewrite (Hall 0%nat o eq_refl) by (simpl; lia).
  f_equal. apply IH. intros j o'' Hj Hlt.
  apply (Hall (S j) o'' Hj). simpl in *. lia.
Qed.

(* C9 as it is stated fails when the game ends early in the skip loop: an
   adapter constructed for 'BreakoutNoFrameskip-v4' with a history length
   of 4 goes through a single raw step of the simulator under the action
   of the caller when the first sub-step reports absorbing. *)
Lemma no_frameskip_early_end :
  let script := Scripted.idle :: Scripted.over_at_once in
  let G := Scripted.game Scripted.breakout [7; 7] script in
  let a := Scripted.playing script false 0 in
  Scripted.fresh script false ≫= (λ a0, Atari_reset G Scripted.keep a0 0)
  = Ok (a, mkLazyFrames (replicate 4 (U8 [7; 7])) 4)
  ∧ _history_length a = 4
  ∧ (∃ a' out,
       Atari_step G Scripted.keep a 2 = Ok (a', out)
       ∧ s_absorbing out = true
       ∧ calls (handle (env a')) = [CReset; CStep 1; CStep 2])
  ∧ AtariAux.raw_steps G (prime_env G a) 2 = Some 1%nat
  ∧ AtariAux.raw_steps G (prime_env G a) 2
    ≠ Some (Z.to_nat (_history_length a)).
Proof.
  intros script G a. split_and!.
  - apply (playing_reachable script false 0). lia.
  - reflexivity.
  - eexists _, _. split_and!; reflexivity.
  - reflexivity.
  - vm_compute. discriminate.
Qed.

(** C9.  An adapter constructed for a game whose name contains
    'NoFrameskip' has the frame-skip wrapper, with its skip count set to
    the history_length given to the constructor (4 by default) and its
    pooling mode to max_pooling.  The skip count stays equal to the history
    length whatever is done with the adapter.  With a history length of 1
    or more a wrapped step goes through history_length raw steps of the
    simulator unless one of them before the last reports absorbing, and
    never through more; with a history length of 0 or less it raises
    UnboundLocalError. *)
Theorem no_frameskip_skip_count :
  ∀ (R : Type) (HR : Reward R) (Sim : Type) (G : GymLib R Sim) (PFrame : Type)
    (preprocess_frame : ndarray → option (option Z * option Z) → bool → PFrame)
    (ARI : bool) (keys : list string),
  (∀ name width height ends_at_life max_pooling history_length
      max_no_op_actions,
      str_contains "NoFrameskip" name = true →
      get_action_meanings G (gym_make G name) !! 0%nat = Some "NOOP" →
      ∃ (a : @Atari Sim PFrame) w h,
        Atari_init G ARI keys name width height ends_at_life max_pooling
          history_length max_no_op_actions = Ok a
        ∧ env a = EMaxAndSkip w h
        ∧ _skip w = history_length
        ∧ _history_length a = history_length
        ∧ _max_pooling w = max_pooling)
  ∧ (∀ name,
       str_contains "NoFrameskip" name = true →
       get_action_meanings G (gym_make G name) !! 0%nat = Some "NOOP" →
       ∃ (a : @Atari Sim PFrame) w h,
         Atari_init_default G ARI keys name = Ok a
         ∧ env a = EMaxAndSkip w h
         ∧ _skip w = 4
         ∧ _history_length a = 4)
  ∧ (∀ (a : @Atari Sim PFrame) w h,
       reachable G preprocess_frame ARI keys a →
       env a = EMaxAndSkip w h →
       _skip w = _history_length a)
  ∧ (∀ (a : @Atari Sim PFrame) w h action,
       reachable G preprocess_frame ARI keys a →
       env a = EMaxAndSkip w h →
       1 ≤ _history_length a →
       ∃ e3 out n,
         wrapped_step G (env a) action = Ok (e3, out)
         ∧ calls (handle e3) = calls h ++ replicate n (CStep action)
         ∧ 1 ≤ Z.of_nat n ≤ _history_length a
         ∧ ((∀ j o,
               run_raw G (Z.to_nat (_history_length a)) (sim h) action !! j
                 = Some o →
               Z.of_nat j < _history_length a - 1 →
               o_absorbing o = false) →
            Z.of_nat n = _history_length a))
  ∧ (∀ (a : @Atari Sim PFrame) w h action,
       reachable G preprocess_frame ARI keys a →
       env a = EMaxAndSkip w h →
       _history_length a ≤ 0 →
       wrapped_step G (env a) action = Raise UnboundLocalError).
Proof.
  intros R HR Sim G PFrame pf ARI keys.
  assert (Hinit : ∀ name width height ends_at_life max_pooling history_length
      max_no_op_actions,
      str_contains "NoFrameskip" name = true →
      get_action_meanings G (gym_make G name) !! 0%nat = Some "NOOP" →
      ∃ (a : @Atari Sim PFrame) w h,
        Atari_init G ARI keys name width height ends_at_life max_pooling
          history_length max_no_op_actions = Ok a
        ∧ env a = EMaxAndSkip w h
        ∧ _skip w = history_length
        ∧ _history_length a = history_length
        ∧ _max_pooling w = max_pooling).
  { intros name width height eal mp hl mno Hname Hnoop.
    unfold Atari_init. rewrite Hname.
    match goal with
    | |- context [let '(_, _) := ?x in _] => destruct x as [grey img_size]
    end.
    unfold action_meaning_is. simpl. rewrite Hnoop. simpl.
    eexists _, _, _. split_and!; reflexivity. }
  assert (Hinv : ∀ (a : @Atari Sim PFrame) w h,
       reachable G pf ARI keys a →
       env a = EMaxAndSkip w h →
       _skip w = _history_length a).
  { intros a w h Hreach He.
    apply AtariFacts.reachable_inv in Hreach as [_ Hskip].
    unfold skip_is_history in Hskip. by rewrite He in Hskip. }
  split_and!; [exact Hinit| |exact Hinv| |].
  - intros name Hname Hnoop.
    destruct (Hinit name (Some 84) (Some 84) false true 4 30 Hname Hnoop)
      as (a & w & h & Ha & He & Hs & Hh & _).
    by exists a, w, h.
  - intros a w h action Hreach He Hpos.
    pose proof (Hinv a w h Hreach He) as Hskip.
    destruct (FrameSkip.MaxAndSkip_step_spec G w h action ltac:(lia))
      as (w' & h' & olast & Hstep & _ & Hc & _).
    pose proof (FrameSkip.substeps_length G (_skip w) (sim h) action) as Hle.
    pose proof (FrameSkip.substeps_nonempty G (_skip w) (sim h) action
                  ltac:(lia)) as Hne.
    rewrite He. simpl. rewrite Hstep. simpl.
    eexists _, _, _. split_and!; [reflexivity|exact Hc|..].
    + destruct (substeps G (_skip w) (sim h) action); [done|simpl; lia].
    + lia.
    + intros Hnone. unfold substeps.
      rewrite until_absorbing_but_last, FrameSkip.run_raw_length; [lia|].
      intros j o Hj Hlt. rewrite FrameSkip.run_raw_length in Hlt.
      apply (Hnone j o); [by rewrite <- Hskip|lia].
  - intros a w h action Hreach He Hle.
    pose proof (Hinv a w h Hreach He) as Hskip.
    rewrite He. simpl.
    by rewrite FrameSkip.MaxAndSkip_step_no_pass by lia.
Qed.

Lemma no_frameskip_skip_count_witness :
  let G := Scripted.game Scripted.breakout [7; 7] Scripted.rewards_1002 in
  (∃ (a : @Atari (list Scripted.Beat) ndarray) w h,
     Atari_init G false [] "PongNoFrameskip-v4" (Some 84) (Some 84) false true
       3 30 = Ok a
     ∧ env a = EMaxAndSkip w h ∧ _skip w = 3 ∧ _history_length a = 3)
  ∧ (∃ (a : @Atari (list Scripted.Beat) ndarray) w h,
       Atari_init_default G false [] "PongNoFrameskip-v4" = Ok a
       ∧ env a = EMaxAndSkip w h ∧ _skip w = 4)
  ∧ (∃ e3 out,
       wrapped_step G (env (Scripted.playing Scripted.rewards_1002 false 0)) 2
         = Ok (e3, out)
       ∧ calls (handle e3) = [CReset; CStep 2; CStep 2; CStep 2; CStep 2]).
Proof.
  intros G.
  pose proof (no_frameskip_skip_count Z _ _ G _ Scripted.keep false [])
    as (Hinit & Hdefault & _ & Hsteps & _).
  split_and!.
  - destruct (Hinit "PongNoFrameskip-v4" (Some 84) (Some 84) false true 3 30)
      as (a & w & h & Ha & He & Hs & Hh & _); [reflexivity|reflexivity|].
    by exists a, w, h.
  - destruct (Hdefault "PongNoFrameskip-v4")
      as (a & w & h & Ha & He & Hs & _); [reflexivity|reflexivity|].
    by exists a, w, h.
  - edestruct (Hsteps (Scripted.playing Scripted.rewards_1002 false 0))
      as (e3 & out & n & Hw & Hc & _ & Hn).
    + apply (playing_reachable Scripted.rewards_1002 false 0). lia.
    + reflexivity.
    + vm_compute. discriminate.
    + exists e3, out. split; [exact Hw|].
      rewrite Hc. simpl.
      assert (Hfour : Z.of_nat n = 4).
      { apply Hn. intros j o Hj Hlt. simpl in Hlt.
        destruct j as [|[|[|j]]]; simpl in Hj;
          [injection Hj as <-; reflexivity ..|lia]. }
      replace n with 4%nat by lia. reflexivity.
Defined.

(* --------------------------------------------------------------------- *)
(* The Gym adapter                                                       *)
(* --------------------------------------------------------------------- *)

Module GymAdapter.

Import GymEnv.

Lemma convert_other (space : GymSpace) :
  is_GDiscrete_or_GBox space = false →
  Gym__convert_gym_space space = Raise ValueError.
Proof. by destruct space. Qed.

Lemma convert_supported (space : GymSpace) :
  is_GDiscrete_or_GBox space = true →
  ∃ s, Gym__convert_gym_space space = Ok s ∧ is_GMultiDiscrete space = false.
Proof. destruct space; try done; by eexists. Qed.

(** C7.  The conversion of a gym space maps Discrete(n) to Discrete(n) and
    a Box to the Box of the same low, high and shape, and raises ValueError
    for every other kind of space.  The constructor of the adapter converts
    the action space and the observation space of the environment it has
    made: if either is of another kind it raises (AssertionError for a
    multi-discrete space, ValueError otherwise) and no adapter is built;
    if both are Discrete or Box the adapter is built with the converted
    spaces. *)
Theorem space_conversion :
  (∀ n, Gym__convert_gym_space (GDiscrete n) = Ok (Discrete n))
  ∧ (∀ low high shape,
       Gym__convert_gym_space (GBox low high shape) = Ok (Box low high shape))
  ∧ (∀ space,
       is_GDiscrete_or_GBox space = false →
       Gym__convert_gym_space space = Raise ValueError)
  ∧ (∀ (R Sim KwArgs PyArg : Type)
       (gym_make : string → KwArgs → result (@GymEnvObj R Sim))
       (pybullet_found : bool) (pybullet_envs : list string)
       name horizon gamma (wrappers : option (list (@Wrapper R Sim KwArgs PyArg)))
       wrappers_args env_args e,
       Gym_make_env gym_make name wrappers wrappers_args env_args = Ok e →
       (is_GDiscrete_or_GBox (e_action_space e) = false
        ∨ is_GDiscrete_or_GBox (e_observation_space e) = false →
        ∃ err,
          Gym_init gym_make pybullet_found pybullet_envs name horizon gamma
            wrappers wrappers_args env_args = Raise err
          ∧ (err = AssertionError ∨ err = ValueError))
       ∧ (∀ a o,
            Gym__convert_gym_space (e_action_space e) = Ok a →
            Gym__convert_gym_space (e_observation_space e) = Ok o →
            ∃ g,
              Gym_init gym_make pybullet_found pybullet_envs name horizon gamma
                wrappers wrappers_args env_args = Ok g
              ∧ env g = e
              ∧ action_space (info g) = a
              ∧ observation_space (info g) = o)).
Proof.
  split_and!; try done.
  - apply convert_other.
  - intros R Sim KwArgs PyArg gym_make pb pbl name horizon gamma wrappers
      wargs env_args e Hmake.
    unfold Gym_init. rewrite Hmake. simpl. split.
    + intros Hother.
      destruct (is_GMultiDiscrete (e_observation_space e)) eqn:Hmo; [by eauto|].
      destruct (is_GMultiDiscrete (e_action_space e)) eqn:Hma; [by eauto|].
      destruct (is_GDiscrete_or_GBox (e_action_space e)) eqn:Ha.
      * destruct Hother as [?|Ho]; [done|].
        destruct (convert_supported _ Ha) as (a & -> & _). simpl.
        rewrite (convert_other _ Ho). simpl. by eauto.
      * rewrite (convert_other _ Ha). simpl. by eauto.
    + intros a o Ha Ho.
      assert (Hma : is_GMultiDiscrete (e_action_space e) = false).
      { by destruct (e_action_space e). }
      assert (Hmo : is_GMultiDiscrete (e_observation_space e) = false).
      { by destruct (e_observation_space e). }
      rewrite Hma, Hmo, Ha. simpl. rewrite Ho. simpl.
      by eexists.
Qed.

Lemma space_conversion_witness :
  Gym__convert_gym_space (GTuple [GDiscrete 2; GDiscrete 3]) = Raise ValueError
  ∧ (∃ err,
       Gym_init (PyArg := unit) Scripted.registry false [] "Pair-v0" 100
         (99 # 100) None None tt = Raise err
       ∧ (err = AssertionError ∨ err = ValueError))
  ∧ (∃ g,
       Gym_init (PyArg := unit) Scripted.registry false [] "Pendulum-v0" 100
         (99 # 100) None None tt = Ok g
       ∧ observation_space (info g)
         = Box (mkNd [3%nat] [-1; -1; -8]%Q) (mkNd [3%nat] [1; 1; 8]%Q) [3%nat]).
Proof.
  destruct space_conversion as (_ & _ & Hother & Hinit).
  split_and!.
  - apply Hother. reflexivity.
  - edestruct (Hinit Z nat unit unit Scripted.registry false [] "Pair-v0" 100
                 (99 # 100) None None tt) as [Hraise _].
    + reflexivity.
    + apply Hraise. left. reflexivity.
  - edestruct (Hinit Z nat unit unit Scripted.registry false [] "Pendulum-v0" 100
                 (99 # 100) None None tt) as [_ Hok].
    + reflexivity.
    + edestruct Hok as (g & Hg & _ & _ & Ho); [reflexivity|reflexivity|].
      exists g. split; [exact Hg|exact Ho].
Defined.

Lemma np_atleast_1d_ndim (v : ndvalue) : (1 ≤ ndim (np_atleast_1d v))%nat.
Proof.
  unfold np_atleast_1d, ndim. destruct v as [[|d ds] data]; simpl; lia.
Qed.

Lemma np_atleast_1d_id (v : ndvalue) :
  (1 ≤ ndim v)%nat → np_atleast_1d v = v.
Proof.
  unfold np_atleast_1d, ndim. destruct v as [[|d ds] data]; simpl; [lia|done].
Qed.

(** C8.  Gym.reset without a state calls reset on the environment, which
    is left in the state its reset gives, and returns the observation of
    that reset made at least one-dimensional.  With a state it calls reset
    on the environment as well, then sets the attribute state of the
    environment to the given value, whatever the reset left there and
    touching nothing else of what the reset gave, and returns the given
    value made at least one-dimensional.  Either way the methods and the
    spaces of the environment and the rest of the adapter are as before.
    Making a value at least one-dimensional keeps its data, turns a value
    without dimension into a vector of one element and leaves an array as
    it is. *)
Theorem gym_reset :
  ∀ (R Sim : Type) (g : @Gym R Sim),
  let after := (e_reset (env g) (e_state (env g))).1 in
  let shown := (e_reset (env g) (e_state (env g))).2 in
  (∃ g',
     Gym_reset g None = (g', np_atleast_1d shown)
     ∧ e_state (env g') = after
     ∧ set_state (env g') (e_state (env g)) = env g
     ∧ with_env g' (env g) = g)
  ∧ (∀ state,
       ∃ g',
         Gym_reset g (Some state) = (g', np_atleast_1d state)
         ∧ e_state (env g')
           = mkEnvState (dyn after) (<["state" := AValue state]> (attrs after))
         ∧ attrs (e_state (env g')) !! "state" = Some (AValue state)
         ∧ dyn (e_state (env g')) = dyn after
         ∧ (∀ name, name ≠ "state" →
              attrs (e_state (env g')) !! name = attrs after !! name)
         ∧ set_state (env g') (e_state (env g)) = env g
         ∧ with_env g' (env g) = g)
  ∧ (∀ v, (1 ≤ ndim (np_atleast_1d v))%nat
          ∧ nd_data (np_atleast_1d v) = nd_data v
          ∧ (ndim v = 0%nat → nd_shape (np_atleast_1d v) = [1%nat])
          ∧ ((1 ≤ ndim v)%nat → np_atleast_1d v = v)).
Proof.
  intros R Sim g after shown. subst after shown.
  destruct g as [[s0 fstep freset ospace aspace] np first conv inf].
  split_and!.
  - unfold Gym_reset, env_do_reset. simpl.
    destruct (freset s0) as [s obs]. simpl.
    eexists. split_and!; reflexivity.
  - intros state. unfold Gym_reset, env_do_reset. simpl.
    destruct (freset s0) as [s obs]. simpl.
    eexists. split_and!; try reflexivity; simpl.
    + apply lookup_insert_eq.
    + intros name Hname. by apply lookup_insert_ne.
  - intros v. split_and!.
    + apply np_atleast_1d_ndim.
    + unfold np_atleast_1d. by destruct v as [[|d ds] data].
    + unfold np_atleast_1d, ndim. by destruct v as [[|d ds] data].
    + apply np_atleast_1d_id.
Qed.

Lemma gym_reset_witness :
  ∃ (g g1 : @Gym Z nat) out,
    Gym_init (PyArg := unit) Scripted.registry false [] "Pendulum-v0" 100
      (99 # 100) None None tt = Ok g
    ∧ Gym_step g (mkNd [1%nat] [0%Q]) = Ok (g1, out)
    ∧ dyn (e_state (env g1)) = 1%nat
    ∧ dyn (e_state (env (Gym_reset g1 None).1)) = 0%nat
    ∧ (Gym_reset g1 None).2 = mkNd [3%nat] [1; 0; 0]%Q
    ∧ dyn (e_state (env (Gym_reset g1 (Some (mkNd [] [5%Q]))).1)) = 0%nat
    ∧ (Gym_reset g1 (Some (mkNd [] [5%Q]))).2 = mkNd [1%nat] [5%Q]
    ∧ attrs (e_state (env (Gym_reset g1 (Some (mkNd [] [5%Q]))).1)) !! "state"
      = Some (AValue (mkNd [] [5%Q]))
    ∧ attrs (e_state (env (Gym_reset g1 (Some (mkNd [] [5%Q]))).1))
        !! "_max_episode_steps"
      = Some AInf
    ∧ np_atleast_1d (mkNd [3%nat] [1; 0; 0]%Q) = mkNd [3%nat] [1; 0; 0]%Q.
Proof.
  eexists _, _, _. split; [reflexivity|]. split; [reflexivity|].
  match goal with
  | |- context [Gym_reset ?g _] =>
    destruct (gym_reset Z nat g) as (Hnone & Hsome & Hnd)
  end.
  destruct Hnone as (g' & Hreset & Hst & _).
  destruct (Hsome (mkNd [] [5%Q])) as (g'' & Hreset' & _ & Hattr & Hdyn & Hrest & _).
  split_and!.
  - reflexivity.
  - rewrite Hreset. simpl. rewrite Hst. reflexivity.
  - rewrite Hreset. reflexivity.
  - rewrite Hreset'. simpl. rewrite Hdyn. reflexivity.
  - rewrite Hreset'. reflexivity.
  - rewrite Hreset'. exact Hattr.
  - rewrite Hreset'. simpl. rewrite Hrest by discriminate. reflexivity.
  - apply (Hnd (mkNd [3%nat] [1; 0; 0]%Q)). unfold ndim. simpl. lia.
Defined.

End GymAdapter.

(* ===================================================================== *)
(* Further properties of the adapters                                    *)
(* ===================================================================== *)

Import AtariAux.

(* A wrapped step that meets an absorbing sub-step before index skip-2
   returns the wrapper as it was. *)
Lemma MaxAndSkip_step_early {R} `{Reward R} {Sim} (G : GymLib R Sim)
    (w : MaxAndSkip) (h : Handle Sim) action j (o : Outcome R) :
  substeps G (_skip w) (sim h) action !! j = Some o →
  o_absorbing o = true →
  Z.of_nat j < _skip w - 2 →
  ∃ h' total,
    MaxAndSkip_step G w h action = Ok (w, h', (pool w, total, true, o_info o))
    ∧ calls h' = calls h ++ replicate (S j) (CStep action).
Proof.
  intros Hj Habs Hlt.
  destruct (FrameSkip.MaxAndSkip_step_spec G w h action ltac:(lia))
    as (w' & h' & olast & Hstep & Hlast & Hc & _ & Hk & Hm & H1 & H2).
  pose proof (FrameSkip.until_absorbing_lookup _ _ _ Hj Habs) as Hlen.
  fold (substeps G (_skip w) (sim h) action) in Hlen.
  assert (olast = o) as ->.
  { rewrite last_lookup, Hlen in Hlast. simpl in Hlast. congruence. }
  assert (w' = w) as ->.
  { unfold slot_after in H1, H2.
    destruct (Z.leb_spec 0 (_skip w - 2)); [|lia].
    destruct (Z.leb_spec 0 (_skip w - 1)); [|lia].
    rewrite lookup_ge_None_2 in H1 by lia.
    rewrite lookup_ge_None_2 in H2 by lia.
    destruct w as [[b0 b1] k m], w' as [[b0' b1'] k' m'].
    simpl in *. by subst. }
  eexists h', _. rewrite Hstep, Habs, Hc, Hlen. done.
Qed.

(** X1.  MaxAndSkip.reset resets the simulator and nothing else: the
    pooling buffer keeps the frames captured before the reset.  So a
    wrapped step after the reset that meets an absorbing sub-step before
    index skip-2 returns a frame pooled from the previous episode. *)
Theorem frame_skip_reset_keeps_buffer :
  ∀ (R : Type) (HR : Reward R) (Sim : Type) (G : GymLib R Sim)
    (w : MaxAndSkip) (h : Handle Sim),
    ∃ h',
      MaxAndSkip_reset G w h = (w, h', (env_reset G (sim h)).2)
      ∧ calls h' = calls h ++ [CReset]
      ∧ sim h' = (env_reset G (sim h)).1
      ∧ ∀ action j o,
          substeps G (_skip w) (sim h') action !! j = Some o →
          o_absorbing o = true →
          Z.of_nat j < _skip w - 2 →
          ∃ h'' total,
            MaxAndSkip_step G w h' action
              = Ok (w, h'', (pool w, total, true, o_info o)).
Proof.
  intros R HR Sim G w h. unfold MaxAndSkip_reset, raw_reset.
  destruct (env_reset G (sim h)) as [s' obs]. simpl.
  eexists. split_and!; try reflexivity.
  intros action j o Hj Habs Hlt.
  destruct (MaxAndSkip_step_early G w _ action j o Hj Habs Hlt)
    as (h'' & total & Hstep & _).
  by exists h'', total.
Qed.

Lemma frame_skip_reset_keeps_buffer_witness :
  let G := Scripted.game Scripted.breakout [7; 7] Cases.two_episodes in
  let h := mkHandle Cases.two_episodes [] in
  ∃ w1 h1 h2 h3 out total,
    MaxAndSkip_step G (MaxAndSkip_init G h 4 true) h 2 = Ok (w1, h1, out)
    ∧ _obs_buffer w1 = ([30; 7], [5; 40])
    ∧ MaxAndSkip_reset G w1 h1 = (w1, h2, [7; 7])
    ∧ MaxAndSkip_step G w1 h2 2
      = Ok (w1, h3, (U8 [30; 40], total, true, Scripted.info_lives 0)).
Proof.
  intros G h.
  destruct (MaxAndSkip_step G (MaxAndSkip_init G h 4 true) h 2)
    as [[[w1 h1] out]|] eqn:Hstep; [|vm_compute in Hstep; discriminate Hstep].
  assert (Hw1 : w1 = {| _obs_buffer := ([30; 7], [5; 40]); _skip := 4;
                        _max_pooling := true |}
                ∧ sim h1 = Scripted.over_at_once).
  { vm_compute in Hstep. injection Hstep as <- <- _. split; reflexivity. }
  destruct Hw1 as [Hw1 Hs1].
  destruct (frame_skip_reset_keeps_buffer Z _ _ G w1 h1)
    as (h2 & Hreset & _ & Hs2 & Hstale).
  destruct (Hstale 2 0%nat (Scripted.outcome (Scripted.mkBeat [10; 200] 5 true 0)))
    as (h3 & total & Hstep2).
  - rewrite Hs2, Hs1, Hw1. reflexivity.
  - reflexivity.
  - rewrite Hw1. simpl. lia.
  - exists w1, h1, h2, h3, out, total. split_and!.
    + reflexivity.
    + by rewrite Hw1.
    + rewrite Hreset. reflexivity.
    + rewrite Hstep2. rewrite Hw1. reflexivity.
Defined.

(** X2.  The frame-skip wrapper needs a positive skip count: with a skip
    count of 0 or less the loop of MaxAndSkip.step never runs and the step
    raises UnboundLocalError.  As the skip count is the history length, an
    adapter of a NoFrameskip game constructed with history_length <= 0
    never completes a step. *)
Theorem frame_skip_needs_positive_skip :
  ∀ (R : Type) (HR : Reward R) (Sim : Type) (G : GymLib R Sim) (PFrame : Type)
    (preprocess_frame : ndarray → option (option Z * option Z) → bool → PFrame)
    (ARI : bool) (keys : list string),
  (∀ (w : MaxAndSkip) (h : Handle Sim) action,
     _skip w ≤ 0 → MaxAndSkip_step G w h action = Raise UnboundLocalError)
  ∧ (∀ (a : @Atari Sim PFrame) action n w h,
       env a = EMaxAndSkip w h →
       _skip w ≤ 0 →
       _current_no_op a = Some n →
       Atari_step G preprocess_frame a action = Raise UnboundLocalError)
  ∧ (∀ (a : @Atari Sim PFrame) action w h,
       reachable G preprocess_frame ARI keys a →
       env a = EMaxAndSkip w h →
       _history_length a ≤ 0 →
       ∃ e, Atari_step G preprocess_frame a action = Raise e
            ∧ (e = TypeError ∨ e = UnboundLocalError)).
Proof.
  intros R HR Sim G PFrame pf ARI keys.
  assert (Hstep : ∀ (a : @Atari Sim PFrame) action n w h,
       env a = EMaxAndSkip w h →
       _skip w ≤ 0 →
       _current_no_op a = Some n →
       Atari_step G pf a action = Raise UnboundLocalError).
  { intros a action n w h He Hs Hn.
    destruct (AtariFacts.prime_spec G a n Hn) as (e2 & Hprime & He2 & _).
    unfold Atari_step, Atari_step_locals. rewrite Hprime. simpl.
    rewrite He2, He. simpl.
    by rewrite FrameSkip.MaxAndSkip_step_no_pass. }
  split_and!.
  - intros w h action. apply FrameSkip.MaxAndSkip_step_no_pass.
  - exact Hstep.
  - intros a action w h Hreach He Hhl.
    apply AtariFacts.reachable_inv in Hreach as [_ Hskip].
    unfold skip_is_history in Hskip. rewrite He in Hskip. simpl in Hskip.
    destruct (_current_no_op a) as [n|] eqn:Hn.
    + exists UnboundLocalError. split; [|by right].
      apply (Hstep a action n w h He); [lia|done].
    + exists TypeError. split; [|by left].
      unfold Atari_step, Atari_step_locals, prime. rewrite Hn.
      by destruct (_force_fire a) as [[]|].
Qed.

Lemma frame_skip_needs_positive_skip_witness :
  let G := Scripted.game Scripted.breakout [7; 7] Scripted.rewards_1002 in
  ∃ (a0 a1 : @Atari (list Scripted.Beat) ndarray) frames,
    Atari_init G false [] "PongNoFrameskip-v4" (Some 84) (Some 84) false true
      0 30 = Ok a0
    ∧ Atari_reset G Scripted.keep a0 3 = Ok (a1, frames)
    ∧ lf_frames frames = []
    ∧ Atari_step G Scripted.keep a1 2 = Raise UnboundLocalError.
Proof.
  intros G.
  destruct (Atari_init (PFrame := ndarray) G false [] "PongNoFrameskip-v4"
              (Some 84) (Some 84) false true 0 30) as [a0|] eqn:Hinit;
    [|vm_compute in Hinit; discriminate Hinit].
  destruct (Atari_reset G Scripted.keep a0 3) as [[a1 frames]|] eqn:Hreset;
    [|vm_compute in Hinit; injection Hinit as <-;
      vm_compute in Hreset; discriminate Hreset].
  assert (Hfields : lf_frames frames = []
                    ∧ _current_no_op a1 = Some 3
                    ∧ ∃ w h, env a1 = EMaxAndSkip w h ∧ _skip w = 0).
  { vm_compute in Hinit. injection Hinit as <-.
    vm_compute in Hreset. injection Hreset as <- <-.
    split_and!; [reflexivity|reflexivity|]. eexists _, _. split; reflexivity. }
  destruct Hfields as (Hfr & Hn & w & h & He & Hs).
  exists a0, a1, frames. split_and!; [reflexivity|exact Hreset|exact Hfr|].
  apply (proj1 (proj2 (frame_skip_needs_positive_skip Z _ _ G _ Scripted.keep
                         false [])) a1 2 3 w h He); [lia|exact Hn].
Defined.

Lemma to_uint8_is_uint8 (v : Z) : is_uint8 (to_uint8 v).
Proof. unfold is_uint8, to_uint8. apply Z.mod_pos_bound. lia. Qed.

Lemma to_uint8_frame_is_uint8 (f : Frame) : Forall is_uint8 (to_uint8 <$> f).
Proof. apply Forall_fmap, Forall_true. intros v. apply to_uint8_is_uint8. Qed.

(** X3.  With a skip count of 1 a wrapped step is one raw step, and it
    writes the second slot of the pooling buffer only: the first slot keeps
    what it held.  On a wrapper fresh from its constructor, whose buffer is
    zero, max-pooling therefore returns the raw frame and average pooling
    returns it halved. *)
Theorem frame_skip_one :
  ∀ (R : Type) (HR : Reward R) (Sim : Type) (G : GymLib R Sim)
    (w : MaxAndSkip) (h : Handle Sim) (action : Z),
    _skip w = 1 →
    let o := (env_step G (sim h) action).2 in
    let w' := {| _obs_buffer := ((_obs_buffer w).1, to_uint8 <$> o_obs o);
                 _skip := 1; _max_pooling := _max_pooling w |} in
    ∃ h',
      MaxAndSkip_step G w h action
        = Ok (w', h', (pool w', r_add r_zero (o_reward o),
                       o_absorbing o, o_info o))
      ∧ calls h' = calls h ++ [CStep action]
      ∧ ∀ e mp,
          w = MaxAndSkip_init G e 1 mp →
          length (o_obs o)
            = foldr Nat.mul 1%nat (observation_space_shape G (sim e)) →
          pool w' = if mp then U8 (to_uint8 <$> o_obs o)
                    else F64 ((λ v, mean2 0 (to_uint8 v)) <$> o_obs o).
Proof.
  intros R HR Sim G w h action Hs o w'.
  unfold MaxAndSkip_step. rewrite Hs. simpl. unfold raw_step.
  subst o w'.
  destruct (env_step G (sim h) action) as [s' o] eqn:Hstep. simpl.
  rewrite Hs. simpl.
  assert (Hsame : store1 w (o_obs o)
                  = {| _obs_buffer := ((_obs_buffer w).1, to_uint8 <$> o_obs o);
                       _skip := 1; _max_pooling := _max_pooling w |}).
  { unfold store1. by rewrite Hs. }
  eexists. split_and!.
  - destruct (o_absorbing o); simpl; rewrite Hsame; reflexivity.
  - by destruct (o_absorbing o).
  - intros e mp -> Hlen. unfold pool, frame_max, frame_mean, np_zeros. simpl.
    destruct mp; simpl; unfold np_zeros.
    + rewrite zip_with_replicate_l by (rewrite length_fmap; lia).
      f_equal. rewrite <- list_fmap_compose. apply list_fmap_ext.
      intros i v _. simpl.
      pose proof (to_uint8_is_uint8 v) as Hv. unfold is_uint8 in Hv. lia.
    + rewrite zip_with_replicate_l by (rewrite length_fmap; lia).
      f_equal. by rewrite <- list_fmap_compose.
Qed.

Lemma frame_skip_one_witness :
  let G := Scripted.game Scripted.breakout [7; 7] Scripted.rewards_1002 in
  let h := mkHandle Scripted.rewards_1002 [] in
  (∃ w' h' total,
     MaxAndSkip_step G (MaxAndSkip_init G h 1 true) h 2
       = Ok (w', h', (U8 [10; 200], total, false, Scripted.info_lives 3)))
  ∧ (∃ w' h' total,
     MaxAndSkip_step G (MaxAndSkip_init G h 1 false) h 2
       = Ok (w', h', (F64 [5 # 1; 100 # 1]%Q, total, false,
                      Scripted.info_lives 3))).
Proof.
  intros G h. split.
  - destruct (frame_skip_one Z _ _ G (MaxAndSkip_init G h 1 true) h 2 eq_refl)
      as (h' & Hstep & _ & Hpool).
    eexists _, h', _. rewrite Hstep.
    rewrite (Hpool h true eq_refl eq_refl). reflexivity.
  - destruct (frame_skip_one Z _ _ G (MaxAndSkip_init G h 1 false) h 2 eq_refl)
      as (h' & Hstep & _ & Hpool).
    eexists _, h', _. rewrite Hstep.
    rewrite (Hpool h false eq_refl eq_refl). reflexivity.
Defined.

Lemma Forall_zip_with {A B C} (P : A → Prop) (Q : B → Prop) (S : C → Prop)
    (f : A → B → C) (l : list A) (k : list B) :
  (∀ x y, P x → Q y → S (f x y)) →
  Forall P l → Forall Q k → Forall S (zip_with f l k).
Proof.
  intros Hf Hl. revert k. induction Hl as [|x l Hx _ IH]; intros k Hk.
  { constructor. }
  destruct Hk as [|y k Hy Hk]; simpl; constructor; [by apply Hf|by apply IH].
Qed.

Lemma mean2_range (a b : Z) :
  is_uint8 a → is_uint8 b → (0 <= mean2 a b)%Q ∧ (mean2 a b <= 255)%Q.
Proof.
  unfold is_uint8, mean2. intros Ha Hb.
  rewrite !Qred_correct. unfold Qle, Qdiv, Qmult, Qinv. simpl. lia.
Qed.

Lemma slot_after_is_uint8 {R} k (os : list (Outcome R)) (old : Frame) :
  Forall is_uint8 old → Forall is_uint8 (slot_after k os old).
Proof.
  intros Hold. unfold slot_after.
  destruct (0 <=? k); [|done].
  destruct (os !! Z.to_nat k); [apply to_uint8_frame_is_uint8|done].
Qed.

(** X4.  The pooling buffer only ever holds 8-bit pixels: it does when the
    wrapper is constructed, and a wrapped step keeps it so whatever the
    simulator delivers.  The frame a wrapped step returns is therefore
    within the range of a raw frame, pixels 0..255 under max-pooling and
    averages between 0 and 255 otherwise. *)
Theorem pooling_stays_in_range :
  ∀ (R : Type) (HR : Reward R) (Sim : Type) (G : GymLib R Sim),
  (∀ (h : Handle Sim) skip mp, uint8_buffer (MaxAndSkip_init G h skip mp))
  ∧ (∀ (w : MaxAndSkip) (h : Handle Sim) action,
       uint8_buffer w →
       1 ≤ _skip w →
       ∃ w' h' frame total absorbing info,
         MaxAndSkip_step G w h action
           = Ok (w', h', (frame, total, absorbing, info))
         ∧ uint8_buffer w'
         ∧ in_pixel_range frame).
Proof.
  intros R HR Sim G. split.
  - intros h skip mp. unfold uint8_buffer, MaxAndSkip_init, np_zeros. simpl.
    split; apply Forall_replicate; unfold is_uint8; lia.
  - intros w h action [Hb0 Hb1] Hs.
    destruct (FrameSkip.MaxAndSkip_step_spec G w h action Hs)
      as (w' & h' & olast & Hstep & _ & _ & _ & _ & _ & H1 & H2).
    assert (Hw' : uint8_buffer w').
    { unfold uint8_buffer. rewrite H1, H2.
      split; by apply slot_after_is_uint8. }
    eexists w', h', _, _, _, _. split_and!; [exact Hstep|exact Hw'|].
    destruct Hw' as [Hb0' Hb1'].
    unfold pool, in_pixel_range, frame_max, frame_mean.
    destruct (_max_pooling w').
    + apply (Forall_zip_with is_uint8 is_uint8); [|done|done].
      unfold is_uint8. intros x y Hx Hy. lia.
    + apply (Forall_zip_with is_uint8 is_uint8); [|done|done].
      intros x y Hx Hy. by apply mean2_range.
Qed.

Lemma pooling_stays_in_range_witness :
  let G := Scripted.game Scripted.breakout [7; 7]
             [Scripted.mkBeat [300; -1] 0 false 3;
              Scripted.mkBeat [511; 256] 0 false 3] in
  let h := mkHandle (gym_make G "x") [] in
  ∃ w' h' frame total absorbing info,
    MaxAndSkip_step G (MaxAndSkip_init G h 2 true) h 0
      = Ok (w', h', (frame, total, absorbing, info))
    ∧ uint8_buffer w'
    ∧ in_pixel_range frame.
Proof.
  intros G h.
  apply (proj2 (pooling_stays_in_range Z _ _ G)).
  - apply (proj1 (pooling_stays_in_range Z _ _ G)).
  - simpl. lia.
Defined.

(* the name the constructor passes to gym.make *)
Lemma Atari_init_cases {R Sim} (G : GymLib R Sim) {PFrame} (ARI : bool)
    (keys : list string) name width height ends_at_life max_pooling
    history_length max_no_op_actions :
  let noskip := str_contains "NoFrameskip" name in
  let aug := negb noskip && str_contains "-Augmented" name && ARI in
  let made := if aug then str_remove "-Augmented" name else name in
  let h := mkHandle (gym_make G made) [] in
  let e := if noskip
           then EMaxAndSkip (MaxAndSkip_init G h history_length max_pooling) h
           else if aug && bool_decide (lower4 made ∈ lower4 <$> keys)
                then EAtariARI h else EPlain h in
  let both_none := match width, height with None, None => true | _, _ => false end in
  Atari_init (PFrame := PFrame) G ARI keys name width height ends_at_life
    max_pooling history_length max_no_op_actions
  = match get_action_meanings G (gym_make G made) !! 0%nat with
    | None => Raise IndexError
    | Some m =>
      if bool_decide (m = "NOOP") then
        Ok {| env := e; augmented := aug; grey_and_rescale := negb both_none;
              _img_size := if both_none then None else Some (width, height);
              _episode_ends_at_life := ends_at_life;
              _max_lives := ale_lives G (gym_make G made);
              _lives := ale_lives G (gym_make G made);
              _force_fire := None; _real_reset := true;
              _max_no_op_actions := max_no_op_actions;
              _history_length := history_length;
              _current_no_op := None; _state := None |}
      else Raise AssertionError
    end.
Proof.
  intros noskip aug made h e both_none.
  unfold Atari_init, action_meaning_is.
  subst e h made aug noskip both_none.
  destruct (str_contains "NoFrameskip" name); simpl.
  - destruct width, height; simpl;
      destruct (get_action_meanings G (gym_make G name) !! 0%nat); simpl; try done;
      by case_bool_decide.
  - destruct (str_contains "-Augmented" name), ARI; simpl;
      try case_bool_decide; simpl;
      destruct width, height; simpl;
      match goal with
      | |- context [get_action_meanings G ?s !! 0%nat] =>
        destruct (get_action_meanings G s !! 0%nat); simpl; try done
      end;
      by case_bool_decide.
Qed.

(** X5.  The constructor of the Atari adapter picks one configuration from
    the name: the frame-skip wrapper for a name with 'NoFrameskip', which
    wins over '-Augmented'; otherwise the augmented mode for a name with
    '-Augmented' when atariari is installed, with the suffix removed from
    the name given to gym.make; otherwise the environment as it is, made
    under the name as given.  It makes no call on the environment, starts
    with all the lives, and turns preprocessing off only when width and
    height are both None. *)
Theorem atari_init_selection :
  ∀ (R Sim : Type) (G : GymLib R Sim) (PFrame : Type) (ARI : bool)
    (keys : list string) name width height ends_at_life max_pooling
    history_length max_no_op_actions (a : @Atari Sim PFrame),
    Atari_init G ARI keys name width height ends_at_life max_pooling
      history_length max_no_op_actions = Ok a →
    let noskip := str_contains "NoFrameskip" name in
    let aug := negb noskip && str_contains "-Augmented" name && ARI in
    let made := if aug then str_remove "-Augmented" name else name in
    augmented a = aug
    ∧ handle (env a) = mkHandle (gym_make G made) []
    ∧ (noskip = true ↔ ∃ w h, env a = EMaxAndSkip w h)
    ∧ ((∃ h, env a = EAtariARI h)
       ↔ aug = true ∧ lower4 made ∈ lower4 <$> keys)
    ∧ _lives a = ale_lives G (gym_make G made)
    ∧ _max_lives a = ale_lives G (gym_make G made)
    ∧ (grey_and_rescale a = false ↔ width = None ∧ height = None)
    ∧ (_img_size a = None ↔ width = None ∧ height = None).
Proof.
  intros R Sim G PFrame ARI keys name width height eal mp hl mno a Hinit
    noskip aug made.
  rewrite Atari_init_cases in Hinit. fold noskip aug made in Hinit.
  destruct (get_action_meanings G (gym_make G made) !! 0%nat) as [m|]; [|done].
  case_bool_decide; [|done]. injection Hinit as <-. simpl.
  split_and!; try done.
  - destruct noskip; simpl; [reflexivity|].
    destruct (aug && bool_decide (lower4 made ∈ lower4 <$> keys)); reflexivity.
  - destruct noskip; simpl; [split; [by eauto|done]|].
    split; [done|]. intros (w & h & He).
    destruct (aug && bool_decide (lower4 made ∈ lower4 <$> keys));
      discriminate He.
  - destruct noskip; simpl.
    { subst aug. simpl. split; [intros [h Hh]; discriminate Hh|intros [? _]; done]. }
    destruct aug; simpl.
    + case_bool_decide; split; try by eauto.
      * intros [h Hh]. discriminate Hh.
      * intros [_ ?]. done.
    + split; [intros [h Hh]; discriminate Hh|intros [? _]; done].
  - destruct width, height; simpl; split; try done; intros [? ?]; done.
  - destruct width, height; simpl; split; try done; intros [? ?]; done.
Qed.

Lemma atari_init_selection_witness :
  let G := Scripted.game Scripted.breakout [7; 7] Scripted.rewards_1002 in
  (∃ a : @Atari (list Scripted.Beat) ndarray,
     Atari_init G true ["pong"] "PongNoFrameskip-Augmented-v4" (Some 84) None
       false true 4 30 = Ok a
     ∧ augmented a = false ∧ grey_and_rescale a = true
     ∧ ∃ w h, env a = EMaxAndSkip w h)
  ∧ (∃ a : @Atari (list Scripted.Beat) ndarray,
     Atari_init G true ["pong"] "Pong-Augmented-v4" None None
       false true 4 30 = Ok a
     ∧ augmented a = true ∧ grey_and_rescale a = false
     ∧ ∃ h, env a = EAtariARI h).
Proof.
  intros G. split.
  - destruct (Atari_init (PFrame := ndarray) G true ["pong"]
                "PongNoFrameskip-Augmented-v4" (Some 84) None false true 4 30)
      as [a|] eqn:Hinit; [|vm_compute in Hinit; discriminate Hinit].
    destruct (atari_init_selection Z _ G _ _ _ _ _ _ _ _ _ _ a Hinit)
      as (Haug & _ & Hskip & _ & _ & _ & Hgrey & _).
    exists a. split_and!; [reflexivity|exact Haug| |by apply Hskip].
    destruct (grey_and_rescale a); [reflexivity|].
    destruct (proj1 Hgrey eq_refl) as [Hw _]. discriminate Hw.
  - destruct (Atari_init (PFrame := ndarray) G true ["pong"]
                "Pong-Augmented-v4" None None false true 4 30)
      as [a|] eqn:Hinit; [|vm_compute in Hinit; discriminate Hinit].
    destruct (atari_init_selection Z _ G _ _ _ _ _ _ _ _ _ _ a Hinit)
      as (Haug & _ & _ & Hari & _ & _ & Hgrey & _).
    exists a. split_and!; [reflexivity|exact Haug|by apply Hgrey|].
    apply Hari. split; [reflexivity|]. vm_compute. left.
Defined.

(** X6.  The construction of the Atari adapter over a registry of games
    fails exactly when gym.make raises for the name it is given, whose
    error it passes on, or action 0 of the made game is not NOOP: with
    AssertionError when it has another meaning, with IndexError when the
    game has no action at all; otherwise an adapter of the made game is
    built. *)
Theorem atari_init_outcome :
  ∀ (R Sim : Type) (G : GymLib R Sim) (registry : string → result Sim)
    (PFrame : Type) (ARI : bool)
    (keys : list string) name width height ends_at_life max_pooling
    history_length max_no_op_actions,
    let init := Atari_init_registered (PFrame := PFrame) G registry ARI keys
                  name width height ends_at_life max_pooling history_length
                  max_no_op_actions in
    (∀ err, registry (made_name ARI name) = Raise err → init = Raise err)
    ∧ (∀ s,
         registry (made_name ARI name) = Ok s →
         get_action_meanings G s = [] →
         init = Raise IndexError)
    ∧ (∀ s m rest,
         registry (made_name ARI name) = Ok s →
         get_action_meanings G s = m :: rest →
         m ≠ "NOOP" →
         init = Raise AssertionError)
    ∧ (∀ s rest,
         registry (made_name ARI name) = Ok s →
         get_action_meanings G s = "NOOP" :: rest →
         ∃ a, init = Ok a ∧ handle (env a) = mkHandle s []).
Proof.
  intros R Sim G registry PFrame ARI keys name width height eal mp hl mno init.
  unfold init, Atari_init_registered.
  split_and!.
  - by intros err ->.
  - intros s -> Hm. simpl. rewrite Atari_init_cases. simpl. by rewrite Hm.
  - intros s m rest -> Hm Hne. simpl. rewrite Atari_init_cases. simpl.
    rewrite Hm. simpl. by rewrite bool_decide_eq_false_2.
  - intros s rest -> Hm. simpl. rewrite Atari_init_cases. simpl.
    rewrite Hm. simpl. eexists. split; [reflexivity|]. simpl.
    destruct (str_contains "NoFrameskip" name); simpl; [reflexivity|].
    match goal with
    | |- context [if ?b then EAtariARI _ else _] => by destruct b
    end.
Qed.

Lemma atari_init_outcome_witness :
  let G := Scripted.game Scripted.breakout [7; 7] [] in
  let registry := λ name : string,
    if bool_decide (name = "Pong-v4") then Ok [Scripted.idle]
    else Raise SimulatorError in
  Atari_init_registered (PFrame := ndarray) G registry true [] "Pong-v5"
    (Some 84) (Some 84) false true 4 30 = Raise SimulatorError
  ∧ Atari_init_registered (PFrame := ndarray)
      (Scripted.game ["FIRE"; "NOOP"] [7; 7] []) registry true [] "Pong-v4"
      (Some 84) (Some 84) false true 4 30 = Raise AssertionError
  ∧ Atari_init_registered (PFrame := ndarray)
      (Scripted.game [] [7; 7] []) registry true [] "Pong-v4"
      (Some 84) (Some 84) false true 4 30 = Raise IndexError
  ∧ ∃ a, Atari_init_registered (PFrame := ndarray) G registry true []
           "Pong-Augmented-v4" (Some 84) (Some 84) false true 4 30 = Ok a
         ∧ handle (env a) = mkHandle [Scripted.idle] [].
Proof.
  intros G registry. split_and!.
  - apply (proj1 (atari_init_outcome Z _ G registry ndarray true []
             "Pong-v5" (Some 84) (Some 84) false true 4 30)).
    reflexivity.
  - apply (proj1 (proj2 (proj2 (atari_init_outcome Z _
             (Scripted.game ["FIRE"; "NOOP"] [7; 7] []) registry ndarray true []
             "Pong-v4" (Some 84) (Some 84) false true 4 30)))
             [Scripted.idle] "FIRE" ["NOOP"]).
    + reflexivity.
    + reflexivity.
    + discriminate.
  - apply (proj1 (proj2 (atari_init_outcome Z _
             (Scripted.game [] [7; 7] []) registry ndarray true []
             "Pong-v4" (Some 84) (Some 84) false true 4 30)) [Scripted.idle]).
    + reflexivity.
    + reflexivity.
  - apply (proj2 (proj2 (proj2 (atari_init_outcome Z _ G registry ndarray true []
             "Pong-Augmented-v4" (Some 84) (Some 84) false true 4 30)))
             [Scripted.idle] ["FIRE"; "RIGHT"; "LEFT"]).
    + reflexivity.
    + reflexivity.
Defined.

(* Reset and step leave alone what the constructor fixed. *)
Lemma Atari_reset_config {R Sim} (G : GymLib R Sim) {PFrame}
    (pf : ndarray → option (option Z * option Z) → bool → PFrame)
    (a a' : @Atari Sim PFrame) u frames :
  Atari_reset G pf a u = Ok (a', frames) →
  config a' = config a
  ∧ _episode_ends_at_life a' = _episode_ends_at_life a.
Proof.
  unfold Atari_reset. intros Hreset.
  apply bind_Ok in Hreset as ([[e st] lives] & _ & Hreset).
  apply bind_Ok in Hreset as (fire & _ & Hreset).
  apply bind_Ok in Hreset as (n & _ & Hreset).
  apply bind_Ok in Hreset as (d & _ & Hreset).
  by injection Hreset as <- _.
Qed.

Lemma Atari_step_config {R} `{Reward R} {Sim} (G : GymLib R Sim) {PFrame}
    (pf : ndarray → option (option Z * option Z) → bool → PFrame)
    (a a' : @Atari Sim PFrame) action out :
  Atari_step G pf a action = Ok (a', out) →
  config a' = config a
  ∧ _episode_ends_at_life a' = _episode_ends_at_life a.
Proof.
  intros Hstep.
  apply AtariFacts.Atari_step_locals_of_step in Hstep as (obs & Hstep).
  unfold Atari_step_locals in Hstep.
  apply bind_Ok in Hstep as ([[e2 fire1] n2] & _ & Hstep).
  apply bind_Ok in Hstep as ([e3 [[[obs0 reward0] absorbing0] info0]] & _ & Hstep).
  apply bind_Ok in Hstep as (lives & _ & Hstep).
  apply bind_Ok in Hstep as ([[absorbing' lives'] fire'] & _ & Hstep).
  apply bind_Ok in Hstep as (d & _ & Hstep).
  by injection Hstep as <- _.
Qed.

(* The no-op counter of an adapter: unset exactly as long as the adapter
   has not been reset, and then within [0, max_no_op_actions]. *)
Lemma reachable_counter {R} `{Reward R} {Sim} (G : GymLib R Sim) {PFrame}
    (pf : ndarray → option (option Z * option Z) → bool → PFrame)
    (ARI : bool) (keys : list string) (a : @Atari Sim PFrame) :
  reachable G pf ARI keys a →
  match _current_no_op a with
  | Some n => 0 ≤ n ≤ _max_no_op_actions a ∧ is_Some (_state a)
  | None => _state a = None
  end.
Proof.
  induction 1 as [name width height eal mp hl mno a Hinit
                 | a u a' frames _ IH Hreset
                 | a action a' out _ IH Hstep
                 | a _ IH
                 | a eal _ IH].
  - apply AtariFacts.Atari_init_Ok in Hinit as (Hst & _ & _ & _ & _ & _ & Hn & _).
    by rewrite Hn.
  - pose proof (Atari_reset_config G pf a a' u frames Hreset) as [Hcfg _].
    apply AtariFacts.Atari_reset_Ok in Hreset
      as (_ & _ & (n & Hn & _ & Hrange) & (d & Hd & _) & _).
    rewrite Hn, Hd. injection Hcfg as _ _ _ _ -> _. by eauto.
  - pose proof (Atari_step_config G pf a a' action out Hstep) as [Hcfg _].
    apply AtariFacts.Atari_step_locals_of_step in Hstep as (obs & Hstep).
    apply AtariFacts.Atari_step_locals_Ok in Hstep
      as (d & n & e3 & ab0 & Hd & Hn & _ & _ & _ & Hd' & _ & _ & _ & _ & _ & Hn').
    rewrite Hn in IH. rewrite Hn', Hd'. injection Hcfg as _ _ _ _ -> _.
    split; [lia|by eauto].
  - done.
  - done.
Qed.

(** X7.  An adapter that has not been reset cannot be stepped: whatever
    else was called on it since its construction (stop, set_episode_end),
    step raises TypeError, the no-op counter being unset. *)
Theorem step_before_reset :
  ∀ (R : Type) (HR : Reward R) (Sim : Type) (G : GymLib R Sim) (PFrame : Type)
    (preprocess_frame : ndarray → option (option Z * option Z) → bool → PFrame)
    (ARI : bool) (keys : list string) (a : @Atari Sim PFrame) action,
    reachable G preprocess_frame ARI keys a →
    _state a = None →
    Atari_step G preprocess_frame a action = Raise TypeError.
Proof.
  intros R HR Sim G PFrame pf ARI keys a action Hreach Hst.
  apply (reachable_counter G pf ARI keys) in Hreach.
  destruct (_current_no_op a) as [n|] eqn:Hn.
  { destruct Hreach as [_ [d Hd]]. congruence. }
  unfold Atari_step, Atari_step_locals, prime. rewrite Hn.
  by destruct (_force_fire a) as [[]|].
Qed.

Lemma step_before_reset_witness :
  let G := Scripted.game Scripted.breakout [7; 7] Scripted.rewards_1002 in
  ∃ a : @Atari (list Scripted.Beat) ndarray,
    Scripted.fresh Scripted.rewards_1002 true = Ok a
    ∧ Atari_step G Scripted.keep (Atari_set_episode_end (Atari_stop a) false) 2
      = Raise TypeError.
Proof.
  intros G.
  destruct (Scripted.fresh Scripted.rewards_1002 true) as [a|] eqn:Hinit;
    [|vm_compute in Hinit; discriminate Hinit].
  exists a. split; [reflexivity|].
  apply (step_before_reset Z _ _ G _ Scripted.keep false []).
  - apply reach_set_episode_end, reach_stop. eapply reach_init. exact Hinit.
  - simpl. by apply AtariFacts.Atari_init_Ok in Hinit as (? & _).
Defined.

(** X8.  The no-op counter of an adapter, once a reset has set it, is
    always within [0, max_no_op_actions], and it is only set on an adapter
    that has a history buffer.  It is 0 after every step: the no-op
    actions drawn by a reset are spent by the first step that follows. *)
Theorem noop_counter_bounds :
  ∀ (R : Type) (HR : Reward R) (Sim : Type) (G : GymLib R Sim) (PFrame : Type)
    (preprocess_frame : ndarray → option (option Z * option Z) → bool → PFrame)
    (ARI : bool) (keys : list string) (a : @Atari Sim PFrame),
    reachable G preprocess_frame ARI keys a →
    (∀ n, _current_no_op a = Some n → 0 ≤ n ≤ _max_no_op_actions a)
    ∧ (is_Some (_current_no_op a) → is_Some (_state a))
    ∧ (∀ action a' out,
         Atari_step G preprocess_frame a action = Ok (a', out) →
         _current_no_op a' = Some 0).
Proof.
  intros R HR Sim G PFrame pf ARI keys a Hreach.
  pose proof (reachable_counter G pf ARI keys a Hreach) as Hinv.
  split_and!.
  - intros n Hn. rewrite Hn in Hinv. tauto.
  - intros [n Hn]. rewrite Hn in Hinv. tauto.
  - intros action a' out Hstep.
    apply AtariFacts.Atari_step_locals_of_step in Hstep as (obs & Hstep).
    apply AtariFacts.Atari_step_locals_Ok in Hstep
      as (d & n & e3 & ab0 & Hd & Hn & _ & _ & _ & _ & _ & _ & _ & _ & _ & Hn').
    rewrite Hn in Hinv. rewrite Hn'. f_equal. lia.
Qed.

Lemma noop_counter_bounds_witness :
  let G := Scripted.game Scripted.breakout [7; 7] Scripted.life_lost in
  let a := Scripted.playing Scripted.life_lost false 17 in
  (∀ n, _current_no_op a = Some n → 0 ≤ n ≤ 30)
  ∧ ∃ a' out, Atari_step G Scripted.keep a 2 = Ok (a', out)
              ∧ _current_no_op a' = Some 0.
Proof.
  intros G a.
  destruct (noop_counter_bounds Z _ _ G _ Scripted.keep false [] a)
    as (Hrange & _ & Hzero).
  { apply (playing_reachable Scripted.life_lost false 17). lia. }
  split; [exact Hrange|].
  destruct (Atari_step G Scripted.keep a 2) as [[a' out]|] eqn:Hstep;
    [|vm_compute in Hstep; discriminate Hstep].
  exists a', out. split; [reflexivity|]. by apply (Hzero 2 a' out).
Defined.

(* What a completed step went through. *)
Lemma Atari_step_locals_inv {R} `{Reward R} {Sim} (G : GymLib R Sim) {PFrame}
    (pf : ndarray → option (option Z * option Z) → bool → PFrame)
    (a a' : @Atari Sim PFrame) action l :
  Atari_step_locals G pf a action = Ok (a', l) →
  ∃ e2 fire1 n2 e3 obs reward absorbing info lives d m,
    prime G a = Ok (e2, fire1, n2)
    ∧ wrapped_step G e2 action = Ok (e3, (obs, reward, absorbing, info))
    ∧ info !! "ale.lives" = Some lives
    ∧ (lives ≠ _lives a →
       get_action_meanings G (sim (handle e3)) !! 1%nat = Some m)
    ∧ _state a = Some d.
Proof.
  unfold Atari_step_locals. intros Hstep.
  apply bind_Ok in Hstep as ([[e2 fire1] n2] & Hprime & Hstep).
  apply bind_Ok in Hstep
    as ([e3 [[[obs reward] absorbing] info]] & Hw & Hstep).
  apply bind_Ok in Hstep as (lives & Hl & Hstep).
  apply from_option_Ok in Hl.
  apply bind_Ok in Hstep as ([[absorbing' lives'] fire'] & Hfire & Hstep).
  apply bind_Ok in Hstep as (d & Hd & _).
  apply from_option_Ok in Hd.
  assert (∃ m, lives ≠ _lives a →
               get_action_meanings G (sim (handle e3)) !! 1%nat = Some m)
    as [m Hm].
  { case_bool_decide as Hch; [|by exists ""].
    apply bind_Ok in Hfire as (fire & Hf & _).
    unfold action_meaning_is in Hf.
    apply bind_Ok in Hf as (m & Hm & _). apply from_option_Ok in Hm.
    by exists m. }
  by exists e2, fire1, n2, e3, obs, reward, absorbing, info, lives, d, m.
Qed.

(** X9.  A step whose info mapping has no 'ale.lives' entry raises KeyError:
    the adapter only works over simulators that report the lives left. *)
Theorem step_needs_lives :
  ∀ (R : Type) (HR : Reward R) (Sim : Type) (G : GymLib R Sim) (PFrame : Type)
    (preprocess_frame : ndarray → option (option Z * option Z) → bool → PFrame)
    (a : @Atari Sim PFrame) action n e3 obs reward absorbing info,
    _current_no_op a = Some n →
    wrapped_step G (prime_env G a) action
      = Ok (e3, (obs, reward, absorbing, info)) →
    info !! "ale.lives" = None →
    Atari_step G preprocess_frame a action = Raise KeyError.
Proof.
  intros R HR Sim G PFrame pf a action n e3 obs reward absorbing info
    Hn Hw Hl.
  destruct (AtariFacts.prime_spec G a n Hn) as (e2 & Hprime & _).
  unfold prime_env in Hw. rewrite Hprime in Hw.
  unfold Atari_step, Atari_step_locals. rewrite Hprime. simpl.
  rewrite Hw. simpl. by rewrite Hl.
Qed.

Lemma step_needs_lives_witness :
  ∃ (a0 a1 : @Atari unit ndarray) frames,
    Atari_init Cases.mute false [] "Pong-v4" (Some 84) (Some 84) false true
      4 30 = Ok a0
    ∧ Atari_reset Cases.mute Scripted.keep a0 0 = Ok (a1, frames)
    ∧ Atari_step Cases.mute Scripted.keep a1 2 = Raise KeyError.
Proof.
  destruct (Atari_init (PFrame := ndarray) Cases.mute false [] "Pong-v4"
              (Some 84) (Some 84) false true 4 30) as [a0|] eqn:Hinit;
    [|vm_compute in Hinit; discriminate Hinit].
  destruct (Atari_reset Cases.mute Scripted.keep a0 0) as [[a1 frames]|] eqn:Hreset;
    [|vm_compute in Hinit; injection Hinit as <-;
      vm_compute in Hreset; discriminate Hreset].
  exists a0, a1, frames. split_and!; [reflexivity|exact Hreset|].
  assert (Ha1 : _current_no_op a1 = Some 0 ∧ env a1 = EPlain (mkHandle tt [CReset])
                ∧ _force_fire a1 = Some true).
  { vm_compute in Hinit. injection Hinit as <-.
    vm_compute in Hreset. injection Hreset as <- _. split_and!; reflexivity. }
  destruct Ha1 as (Hn & He & Hf).
  eapply (step_needs_lives Z _ _ Cases.mute _ Scripted.keep a1 2 0).
  - exact Hn.
  - unfold prime_env, prime. rewrite Hn, He, Hf. reflexivity.
  - reflexivity.
Defined.

(** X10.  The lives count the adapter stores is always the one last
    reported: after every step it equals the 'ale.lives' entry of the info
    the step returns. *)
Theorem lives_tracked :
  ∀ (R : Type) (HR : Reward R) (Sim : Type) (G : GymLib R Sim) (PFrame : Type)
    (preprocess_frame : ndarray → option (option Z * option Z) → bool → PFrame)
    (a a' : @Atari Sim PFrame) action out,
    Atari_step G preprocess_frame a action = Ok (a', out) →
    s_info out !! "ale.lives" = Some (_lives a').
Proof.
  intros R HR Sim G PFrame pf a a' action out Hstep.
  apply AtariFacts.Atari_step_locals_of_step in Hstep as (obs' & Hstep).
  pose proof Hstep as Hinv.
  apply Atari_step_locals_inv in Hinv
    as (e2 & fire1 & n2 & e3 & obs & reward & absorbing & info & lives & d & m
        & Hprime & Hw & Hl & Hm & Hd).
  rewrite (AtariFacts.Atari_step_locals_spec G pf a action e2 fire1 n2 e3 obs
             reward absorbing info lives d m Hprime Hw Hl Hm Hd) in Hstep.
  injection Hstep as <- _ _ _ <- _. simpl. rewrite Hl.
  case_bool_decide as Hch; [done|].
  f_equal. destruct (decide (lives = _lives a)); [done|]. by destruct Hch.
Qed.

Lemma lives_tracked_witness :
  let G := Scripted.game Scripted.breakout [7; 7] Scripted.life_lost in
  ∃ a' out,
    Atari_step G Scripted.keep (Scripted.playing Scripted.life_lost false 0) 2
      = Ok (a', out)
    ∧ s_info out !! "ale.lives" = Some (_lives a')
    ∧ _lives a' = 2.
Proof.
  intros G.
  destruct (Atari_step G Scripted.keep
              (Scripted.playing Scripted.life_lost false 0) 2)
    as [[a' out]|] eqn:Hstep; [|vm_compute in Hstep; discriminate Hstep].
  exists a', out. split_and!; [reflexivity| |].
  - exact (lives_tracked Z _ _ G _ Scripted.keep _ a' 2 out Hstep).
  - vm_compute in Hstep. injection Hstep as <- _. reflexivity.
Defined.

(** X11.  The priming steps are spent once.  After a step that found the
    lives count unchanged, the next step issues no priming step at all: its
    action goes to the environment as the previous step left it.  After a
    step that found the lives count changed, the next step issues a single
    FIRE if action 1 of the game is FIRE, and nothing otherwise; in either
    case no no-op action. *)
Theorem priming_once :
  ∀ (R : Type) (HR : Reward R) (Sim : Type) (G : GymLib R Sim) (PFrame : Type)
    (preprocess_frame : ndarray → option (option Z * option Z) → bool → PFrame)
    (a a' : @Atari Sim PFrame) action out n,
    _current_no_op a = Some n →
    0 ≤ n →
    Atari_step G preprocess_frame a action = Ok (a', out) →
    (s_info out !! "ale.lives" = Some (_lives a) → prime_env G a' = env a')
    ∧ (∀ lives m,
         s_info out !! "ale.lives" = Some lives →
         lives ≠ _lives a →
         get_action_meanings G (sim (handle (env a'))) !! 1%nat = Some m →
         calls (handle (prime_env G a'))
         = calls (handle (env a'))
           ++ if bool_decide (m = "FIRE") then [CStep 1] else []).
Proof.
  intros R HR Sim G PFrame pf a a' action out n Hn Hpos Hstep.
  apply AtariFacts.Atari_step_locals_of_step in Hstep as (obs' & Hstep).
  pose proof Hstep as Hinv.
  apply Atari_step_locals_inv in Hinv
    as (e2 & fire1 & n2 & e3 & obs & reward & absorbing & info & lives & d & m
        & Hprime & Hw & Hl & Hm & Hd).
  rewrite (AtariFacts.Atari_step_locals_spec G pf a action e2 fire1 n2 e3 obs
             reward absorbing info lives d m Hprime Hw Hl Hm Hd) in Hstep.
  destruct (AtariFacts.prime_spec G a n Hn) as (e2' & Hprime' & _).
  rewrite Hprime' in Hprime. injection Hprime as <- <- <-.
  rewrite Z.min_r in Hstep by lia.
  injection Hstep as <- _ _ _ <- _. simpl.
  split.
  - intros Hsame. rewrite Hl in Hsame. injection Hsame as ->.
    rewrite bool_decide_eq_false_2 by (intros Hne; by apply Hne).
    unfold prime_env, prime. simpl.
    by destruct (_force_fire a) as [[]|].
  - intros lives' m' Hl' Hne Hm'. rewrite Hl in Hl'. injection Hl' as <-.
    rewrite (Hm Hne) in Hm'. injection Hm' as <-.
    rewrite bool_decide_eq_true_2 by done.
    unfold prime_env, prime. simpl.
    case_bool_decide; simpl.
    + by destruct (AtariFacts.inner_step_spec G e3 1) as (_ & -> & _).
    + by rewrite app_nil_r.
Qed.

Lemma priming_once_witness :
  let G := Scripted.game Scripted.breakout [7; 7] Scripted.rewards_1002 in
  ∃ a' out,
    Atari_step G Scripted.keep (Scripted.playing Scripted.rewards_1002 false 2) 3
      = Ok (a', out)
    ∧ calls (handle (env a'))
      = [CReset; CStep 1; CStep 0; CStep 0; CStep 3; CStep 3; CStep 3; CStep 3]
    ∧ prime_env G a' = env a'.
Proof.
  intros G.
  destruct (Atari_step G Scripted.keep
              (Scripted.playing Scripted.rewards_1002 false 2) 3)
    as [[a' out]|] eqn:Hstep; [|vm_compute in Hstep; discriminate Hstep].
  destruct (priming_once Z _ _ G _ Scripted.keep
              (Scripted.playing Scripted.rewards_1002 false 2) a' 3 out 2
              eq_refl ltac:(lia) Hstep) as [Hsame _].
  exists a', out. split_and!; [reflexivity| |].
  - vm_compute in Hstep. injection Hstep as <- _. reflexivity.
  - apply Hsame. vm_compute in Hstep. injection Hstep as _ <-. reflexivity.
Defined.

(** X12.  After stop the next reset is a full one, whatever the state of
    the episode: it resets the simulator (right after closing it), fills the
    history buffer with copies of the frame shown and restores the lives
    count to its maximum. *)
Theorem stop_forces_full_reset :
  ∀ (R : Type) (HR : Reward R) (Sim : Type) (G : GymLib R Sim) (PFrame : Type)
    (preprocess_frame : ndarray → option (option Z * option Z) → bool → PFrame)
    (a : @Atari Sim PFrame) u m,
    0 ≤ _history_length a →
    0 ≤ _max_no_op_actions a →
    get_action_meanings G (env_reset G (sim (handle (env a)))).1 !! 1%nat
      = Some m →
    let f := preprocess_frame (U8 (env_reset G (sim (handle (env a)))).2)
               (_img_size a) (grey_and_rescale a) in
    ∃ a' frames,
      Atari_reset G preprocess_frame (Atari_stop a) u = Ok (a', frames)
      ∧ calls (handle (env a')) = calls (handle (env a)) ++ [CClose; CReset]
      ∧ lf_frames frames = replicate (Z.to_nat (_history_length a)) f
      ∧ _state a' = Some (mkDeque (lf_frames frames) (_history_length a))
      ∧ _lives a' = _max_lives a.
Proof.
  intros R HR Sim G PFrame pf a u m Hhl Hmax Hm f.
  destruct (AtariFacts.wrapped_reset_spec G (env (Atari_stop a)))
    as (_ & Hc & Hs & Hobs).
  simpl in Hc, Hs, Hobs.
  rewrite (AtariFacts.handle_with_handle (Sim := Sim)) in Hc, Hs, Hobs.
  simpl in Hc, Hs, Hobs.
  pose proof (AtariFacts.Atari_reset_full G pf (Atari_stop a) u m eq_refl Hhl Hmax)
    as Hreset.
  simpl in Hreset. rewrite Hs in Hreset. specialize (Hreset Hm).
  unfold reset_frame in Hreset. simpl in Hreset. rewrite Hobs in Hreset.
  eexists _, _. split; [exact Hreset|]. simpl.
  split_and!; try done. by rewrite Hc, <- app_assoc.
Qed.

Lemma stop_forces_full_reset_witness :
  let G := Scripted.game Scripted.breakout [7; 7] Scripted.life_lost in
  ∃ a1 out a' frames,
    Atari_step G Scripted.keep (Scripted.playing Scripted.life_lost false 0) 2
      = Ok (a1, out)
    ∧ _real_reset a1 = false
    ∧ Atari_reset G Scripted.keep (Atari_stop a1) 0 = Ok (a', frames)
    ∧ lf_frames frames = [U8 [7; 7]; U8 [7; 7]; U8 [7; 7]; U8 [7; 7]]
    ∧ _lives a' = 3.
Proof.
  intros G.
  destruct (Atari_step G Scripted.keep
              (Scripted.playing Scripted.life_lost false 0) 2)
    as [[a1 out]|] eqn:Hstep; [|vm_compute in Hstep; discriminate Hstep].
  assert (Ha1 : _real_reset a1 = false ∧ _history_length a1 = 4
                ∧ _max_no_op_actions a1 = 30 ∧ _max_lives a1 = 3).
  { vm_compute in Hstep. injection Hstep as <- _. split_and!; reflexivity. }
  destruct Ha1 as (Hreal & Hhl & Hmax & Hlives).
  destruct (stop_forces_full_reset Z _ _ G _ Scripted.keep a1 0 "FIRE")
    as (a' & frames & Hreset & _ & Hfr & _ & Hl).
  - lia.
  - lia.
  - reflexivity.
  - exists a1, out, a', frames.
    split_and!; [reflexivity|exact Hreal|exact Hreset| |congruence].
    rewrite Hfr, Hhl. reflexivity.
Defined.

(** X13.  Under ends_at_life an episode that ends on a lost life does not
    end the game: the step returns absorbing while the simulator goes on,
    and the reset that follows makes no call on the simulator, keeps the
    lives count just reported and returns the very stacked view the step
    returned; it arms force-fire again and draws a new no-op count. *)
Theorem life_loss_then_reset :
  ∀ (R : Type) (HR : Reward R) (Sim : Type) (G : GymLib R Sim) (PFrame : Type)
    (preprocess_frame : ndarray → option (option Z * option Z) → bool → PFrame)
    (a : @Atari Sim PFrame) action n e3 obs reward info lives d m u,
    _episode_ends_at_life a = true →
    _current_no_op a = Some n →
    _state a = Some d →
    wrapped_step G (prime_env G a) action = Ok (e3, (obs, reward, false, info)) →
    info !! "ale.lives" = Some lives →
    lives ≠ _lives a →
    get_action_meanings G (sim (handle e3)) !! 1%nat = Some m →
    0 ≤ _max_no_op_actions a →
    ∃ a1 out a2 frames,
      Atari_step G preprocess_frame a action = Ok (a1, out)
      ∧ s_absorbing out = true
      ∧ Atari_reset G preprocess_frame a1 u = Ok (a2, frames)
      ∧ env a2 = e3
      ∧ _lives a2 = lives
      ∧ frames = s_frames out
      ∧ _force_fire a2 = Some (bool_decide (m = "FIRE"))
      ∧ _current_no_op a2 = Some (u mod (_max_no_op_actions a + 1)).
Proof.
  intros R HR Sim G PFrame pf a action n e3 obs reward info lives d m u
    Hends Hn Hd Hw Hl Hne Hm Hmax.
  destruct (AtariFacts.prime_spec G a n Hn) as (e2 & Hprime & _).
  assert (He : prime_env G a = e2) by (unfold prime_env; by rewrite Hprime).
  rewrite He in Hw.
  pose proof (AtariFacts.Atari_step_locals_spec G pf a action e2 _ _ e3 obs
                reward false info lives d m Hprime Hw Hl (λ _, Hm) Hd) as Hloc.
  simpl in Hloc. rewrite bool_decide_eq_true_2, Hends in Hloc by done.
  apply AtariFacts.Atari_step_of_locals in Hloc.
  eexists _, _, _, _. split; [exact Hloc|]. split; [reflexivity|].
  split.
  - eapply (AtariFacts.Atari_reset_soft G pf _ u m); simpl; try reflexivity;
      assumption.
  - simpl. split_and!; reflexivity.
Qed.

Lemma life_loss_then_reset_witness :
  let G := Scripted.game Scripted.breakout [7; 7] Scripted.life_lost in
  ∃ a1 out a2 frames,
    Atari_step G Scripted.keep (Scripted.playing Scripted.life_lost true 0) 2
      = Ok (a1, out)
    ∧ s_absorbing out = true
    ∧ Atari_reset G Scripted.keep a1 40 = Ok (a2, frames)
    ∧ _lives a2 = 2
    ∧ frames = s_frames out
    ∧ _current_no_op a2 = Some 9.
Proof.
  intros G.
  edestruct (life_loss_then_reset Z _ _ G _ Scripted.keep
               (Scripted.playing Scripted.life_lost true 0) 2 0)
    as (a1 & out & a2 & frames & Hstep & Habs & Hreset & _ & Hl & Hfr & _ & Hn).
  - reflexivity.
  - reflexivity.
  - reflexivity.
  - vm_compute. reflexivity.
  - vm_compute. reflexivity.
  - vm_compute. discriminate.
  - reflexivity.
  - vm_compute. discriminate.
  - exists a1, out, a2, frames. split_and!; try eassumption.
Defined.

(** X14.  Every step of an adapter returns a stacked view of exactly
    history_length frames, the newest of which (if there is one) is the
    preprocessed observation that the step of the environment under the
    action of the caller returned, after priming.  Reward and info are the
    ones of that step of the environment.  The observation itself is
    returned as a fifth output in augmented mode, and only then. *)
Theorem step_view :
  ∀ (R : Type) (HR : Reward R) (Sim : Type) (G : GymLib R Sim) (PFrame : Type)
    (preprocess_frame : ndarray → option (option Z * option Z) → bool → PFrame)
    (ARI : bool) (keys : list string) (a a' : @Atari Sim PFrame) action out,
    reachable G preprocess_frame ARI keys a →
    Atari_step G preprocess_frame a action = Ok (a', out) →
    Z.of_nat (length (lf_frames (s_frames out))) = _history_length a
    ∧ lf_history_length (s_frames out) = _history_length a
    ∧ ∃ e3 obs reward absorbing info,
        wrapped_step G (prime_env G a) action
          = Ok (e3, (obs, reward, absorbing, info))
        ∧ env a' = e3
        ∧ s_reward out = reward
        ∧ s_info out = info
        ∧ s_obs out = (if augmented a then Some obs else None)
        ∧ (1 ≤ _history_length a →
           last (lf_frames (s_frames out))
           = Some (preprocess_frame obs (_img_size a) (grey_and_rescale a))).
Proof.
  intros R HR Sim G PFrame pf ARI keys a a' action out Hreach Hstep.
  apply AtariFacts.reachable_inv in Hreach as [Hfull _].
  unfold Atari_step in Hstep.
  apply bind_Ok in Hstep as ([a1 [[[[fr r] ab] inf] obs]] & Hloc & Hret).
  simpl in Hret. injection Hret as <- <-. simpl.
  apply AtariFacts.Atari_step_locals_Ok in Hloc
    as (d & n & e3 & ab0 & Hd & _ & Hw & He3 & _ & _ & -> & _).
  unfold buffer_full in Hfull. rewrite Hd in Hfull. destruct Hfull as [Hm Hl].
  simpl. rewrite Hm.
  split_and!; [|done|].
  - rewrite last_n_length, length_app. simpl. lia.
  - exists e3, obs, r, ab0, inf. split_and!; try done. intros Hpos.
    rewrite last_n_push by lia. apply last_snoc.
Qed.

Lemma step_view_witness :
  let G := Scripted.game Scripted.breakout [7; 7] Scripted.rewards_1002 in
  ∃ a' out,
    Atari_step G Scripted.keep (Scripted.playing Scripted.rewards_1002 false 0) 3
      = Ok (a', out)
    ∧ length (lf_frames (s_frames out)) = 4%nat
    ∧ s_obs out = None
    ∧ last (lf_frames (s_frames out)) = Some (U8 [5; 40])
    ∧ s_reward out = 2.
Proof.
  intros G.
  destruct (Atari_step G Scripted.keep
              (Scripted.playing Scripted.rewards_1002 false 0) 3)
    as [[a' out]|] eqn:Hstep; [|vm_compute in Hstep; discriminate Hstep].
  destruct (step_view Z _ _ G _ Scripted.keep false []
              (Scripted.playing Scripted.rewards_1002 false 0) a' 3 out)
    as (Hlen & _ & e3 & obs & reward & absorbing & info
        & Hw & _ & Hr & _ & Hobs & Hlast).
  - apply (playing_reachable Scripted.rewards_1002 false 0). lia.
  - exact Hstep.
  - vm_compute in Hw. injection Hw as _ <- <- _ _.
    exists a', out. split_and!; [reflexivity| |exact Hobs| |exact Hr].
    + simpl in Hlen. lia.
    + apply Hlast. simpl. lia.
Defined.

(** X15.  What the constructor fixes never changes: reset, step, stop and
    set_episode_end leave the augmented flag, the preprocessing settings,
    the maximum lives count, max_no_op_actions and history_length as they
    are, and only set_episode_end changes ends_at_life. *)
Theorem config_is_fixed :
  ∀ (R : Type) (HR : Reward R) (Sim : Type) (G : GymLib R Sim) (PFrame : Type)
    (preprocess_frame : ndarray → option (option Z * option Z) → bool → PFrame)
    (a : @Atari Sim PFrame),
    (∀ u a' frames,
       Atari_reset G preprocess_frame a u = Ok (a', frames) →
       config a' = config a
       ∧ _episode_ends_at_life a' = _episode_ends_at_life a)
    ∧ (∀ action a' out,
         Atari_step G preprocess_frame a action = Ok (a', out) →
         config a' = config a
         ∧ _episode_ends_at_life a' = _episode_ends_at_life a)
    ∧ (config (Atari_stop a) = config a
       ∧ _episode_ends_at_life (Atari_stop a) = _episode_ends_at_life a)
    ∧ (∀ b, config (Atari_set_episode_end a b) = config a).
Proof.
  intros R HR Sim G PFrame pf a. split_and!; try done.
  - intros u a' frames. apply Atari_reset_config.
  - intros action a' out. apply Atari_step_config.
Qed.

Lemma config_is_fixed_witness :
  let G := Scripted.game Scripted.breakout [7; 7] Scripted.life_lost in
  ∃ a' out,
    Atari_step G Scripted.keep (Scripted.playing Scripted.life_lost true 5) 2
      = Ok (a', out)
    ∧ config a' = (false, true, Some (Some 84, Some 84), 3, 30, 4).
Proof.
  intros G.
  destruct (Atari_step G Scripted.keep
              (Scripted.playing Scripted.life_lost true 5) 2)
    as [[a' out]|] eqn:Hstep; [|vm_compute in Hstep; discriminate Hstep].
  exists a', out. split; [reflexivity|].
  destruct (proj1 (proj2 (config_is_fixed Z _ _ G _ Scripted.keep
                            (Scripted.playing Scripted.life_lost true 5)))
              2 a' out Hstep) as [-> _].
  reflexivity.
Defined.

(** X16.  Atari.reset completes exactly when max_no_op_actions is not
    negative, the game has an action 1 and, on the full-reset path,
    history_length is not negative (on the soft path, a history buffer
    exists).  In particular an adapter of a game with the single action NOOP
    can be constructed but every reset of it raises IndexError, and a
    negative max_no_op_actions or history_length makes the first reset
    raise ValueError. *)
Theorem reset_outcome :
  ∀ (R : Type) (Sim : Type) (G : GymLib R Sim) (PFrame : Type)
    (preprocess_frame : ndarray → option (option Z * option Z) → bool → PFrame)
    (a : @Atari Sim PFrame) u,
    ((∃ a' frames, Atari_reset G preprocess_frame a u = Ok (a', frames))
     ↔ can_reset G a)
    ∧ (_real_reset a = true → _history_length a < 0 →
       Atari_reset G preprocess_frame a u = Raise ValueError)
    ∧ (_real_reset a = true → 0 ≤ _history_length a →
       get_action_meanings G (env_reset G (sim (handle (env a)))).1 !! 1%nat
         = None →
       Atari_reset G preprocess_frame a u = Raise IndexError)
    ∧ (_real_reset a = true → 0 ≤ _history_length a →
       is_Some (get_action_meanings G (env_reset G (sim (handle (env a)))).1
                  !! 1%nat) →
       _max_no_op_actions a < 0 →
       Atari_reset G preprocess_frame a u = Raise ValueError).
Proof.
  intros R Sim G PFrame pf a u.
  destruct (AtariFacts.wrapped_reset_spec G (env a)) as (_ & _ & Hs & _).
  split_and!.
  - split; [|apply AtariFacts.Atari_reset_total].
    intros (a' & frames & Hreset). unfold can_reset, reset_env.
    pose proof Hreset as Hinv.
    apply AtariFacts.Atari_reset_Ok in Hinv
      as (_ & _ & (n & _ & _ & Hrange) & (d & Hd & _) & Hpath).
    unfold Atari_reset in Hreset.
    apply bind_Ok in Hreset as ([[e st] lives] & Hfirst & Hreset).
    apply bind_Ok in Hreset as (fire & Hfire & _).
    unfold action_meaning_is in Hfire.
    apply bind_Ok in Hfire as (m & Hm & _). apply from_option_Ok in Hm.
    split_and!; [lia| |].
    + destruct (_real_reset a).
      * destruct (wrapped_reset G (env a)) as [e0 obs]. simpl in *.
        apply bind_Ok in Hfirst as (d0 & _ & Hfirst).
        injection Hfirst as <- _ _. by eauto.
      * simpl in Hfirst. injection Hfirst as <- _ _. by eauto.
    + destruct (_real_reset a); [tauto|].
      destruct Hpath as (_ & _ & <-). by eauto.
  - intros Hreal Hhl. unfold Atari_reset. rewrite Hreal.
    destruct (wrapped_reset G (env a)) as [e0 obs]. simpl.
    unfold deque_new. destruct (Z.ltb_spec (_history_length a) 0); [done|lia].
  - intros Hreal Hhl Hm. unfold Atari_reset. rewrite Hreal.
    destruct (wrapped_reset G (env a)) as [e0 obs]. simpl in *.
    rewrite AtariFacts.deque_new_replicate by done. simpl.
    unfold action_meaning_is. by rewrite Hs, Hm.
  - intros Hreal Hhl [m Hm] Hmax. unfold Atari_reset. rewrite Hreal.
    destruct (wrapped_reset G (env a)) as [e0 obs]. simpl in *.
    rewrite AtariFacts.deque_new_replicate by done. simpl.
    unfold action_meaning_is. rewrite Hs, Hm. simpl.
    unfold np_random_randint.
    destruct (Z.leb_spec (_max_no_op_actions a + 1) 0); [done|lia].
Qed.

Lemma reset_outcome_witness :
  ∃ a : @Atari (list Scripted.Beat) ndarray,
    Atari_init (Scripted.game ["NOOP"] [7; 7] []) false [] "Pong-v4"
      (Some 84) (Some 84) false true 4 30 = Ok a
    ∧ Atari_reset (Scripted.game ["NOOP"] [7; 7] []) Scripted.keep a 0
      = Raise IndexError.
Proof.
  destruct (Atari_init (PFrame := ndarray) (Scripted.game ["NOOP"] [7; 7] [])
              false [] "Pong-v4" (Some 84) (Some 84) false true 4 30)
    as [a|] eqn:Hinit; [|vm_compute in Hinit; discriminate Hinit].
  exists a. split; [reflexivity|].
  assert (Ha : _real_reset a = true ∧ _history_length a = 4).
  { vm_compute in Hinit. injection Hinit as <-. split; reflexivity. }
  destruct Ha as [Hreal Hhl].
  apply (proj1 (proj2 (proj2 (reset_outcome Z _
           (Scripted.game ["NOOP"] [7; 7] []) _ Scripted.keep a 0)))).
  - exact Hreal.
  - lia.
  - reflexivity.
Defined.

Module GymMore.

Import GymEnv GymAux.

Section GymMore.

Context {R Sim KwArgs PyArg : Type}.
Context (gym_make : string → KwArgs → result (@GymEnvObj R Sim)).
Context (pybullet_found : bool) (pybullet_envs : list string).

Implicit Types (ws : list (@Wrapper R Sim KwArgs PyArg)) (e : @GymEnvObj R Sim).

(* What a completed construction gives. *)
Lemma Gym_init_Ok name horizon gamma
    (wrappers : option (list (@Wrapper R Sim KwArgs PyArg)))
    wrappers_args env_args g :
  Gym_init gym_make pybullet_found pybullet_envs name horizon gamma wrappers
    wrappers_args env_args = Ok g →
  ∃ e a o,
    Gym_make_env gym_make name wrappers wrappers_args env_args = Ok e
    ∧ Gym__convert_gym_space (e_action_space e) = Ok a
    ∧ Gym__convert_gym_space (e_observation_space e) = Ok o
    ∧ env g = e
    ∧ _first g = true
    ∧ _not_pybullet g
      = negb (pybullet_found
              && bool_decide (("- " +:+ name) ∈ pybullet_envs))
    ∧ _convert_action g = (if is_Discrete a then index0 else Ok)
    ∧ info g = mkMDPInfo o a gamma horizon.
Proof.
  unfold Gym_init. intros Hinit.
  apply bind_Ok in Hinit as (e & Hmake & Hinit).
  destruct (is_GMultiDiscrete (e_observation_space e)); [done|].
  destruct (is_GMultiDiscrete (e_action_space e)); [done|].
  apply bind_Ok in Hinit as (a & Ha & Hinit).
  apply bind_Ok in Hinit as (o & Ho & Hinit).
  injection Hinit as <-. by exists e, a, o.
Qed.

Lemma apply_wrappers_default ws e env_args :
  apply_wrappers e (zip ws (replicate (length ws) [])) env_args
  = fold_left (λ e w,
      match w with
      | WTuple cls kwargs => cls e [] kwargs
      | WClass cls => cls e [] env_args
      end) ws e.
Proof.
  unfold apply_wrappers. revert e.
  induction ws as [|w ws IH]; intros e; simpl; [done|].
  rewrite IH. by destruct w.
Qed.

End GymMore.

End GymMore.

(** X17.  The wrappers of the Gym adapter are paired with their argument
    lists by zip: when wrappers_args is shorter than wrappers, the wrappers
    beyond its length are not applied at all, without any error; with an
    empty wrappers_args the environment is the made one, as if no wrapper
    had been given. *)
Theorem wrappers_are_zipped :
  ∀ (R Sim KwArgs PyArg : Type)
    (gym_make : string → KwArgs → result (@GymEnv.GymEnvObj R Sim))
    name (ws : list (@GymEnv.Wrapper R Sim KwArgs PyArg)) was env_args,
    GymEnv.Gym_make_env gym_make name (Some ws) (Some was) env_args
    = GymEnv.Gym_make_env gym_make name (Some (take (length was) ws))
        (Some was) env_args
    ∧ GymEnv.Gym_make_env gym_make name (Some ws) (Some []) env_args
      = GymEnv.Gym_make_env (PyArg := PyArg) gym_make name None None env_args.
Proof.
  intros R Sim KwArgs PyArg gym_make name ws was env_args.
  unfold GymEnv.Gym_make_env.
  destruct (gym_make name env_args) as [e|err]; simpl; [|done].
  split.
  - by rewrite zip_with_take_l.
  - by rewrite zip_with_nil_r.
Qed.

(** X18.  When wrappers_args is left out, the Gym adapter applies every
    wrapper, in the order of the list, so that the last one is outermost,
    with no positional argument; a wrapper given as a class gets the
    env_args of the adapter as keyword arguments, a wrapper given as a
    tuple gets its own.  The time limit is lifted on the outermost
    environment, after all the wrappers. *)
Theorem wrappers_default_args :
  ∀ (R Sim KwArgs PyArg : Type)
    (gym_make : string → KwArgs → result (@GymEnv.GymEnvObj R Sim))
    name (ws : list (@GymEnv.Wrapper R Sim KwArgs PyArg)) env_args e,
    gym_make name env_args = Ok e →
    let wrapped :=
      fold_left (λ e w,
        match w with
        | GymEnv.WTuple cls kwargs => cls e [] kwargs
        | GymEnv.WClass cls => cls e [] env_args
        end) ws e in
    ∃ e',
      GymEnv.Gym_make_env gym_make name (Some ws) None env_args = Ok e'
      ∧ e' = GymEnv.env_setattr wrapped "_max_episode_steps" GymEnv.AInf
      ∧ GymEnv.attrs (GymEnv.e_state e') !! "_max_episode_steps"
        = Some GymEnv.AInf
      ∧ GymEnv.e_observation_space e' = GymEnv.e_observation_space wrapped
      ∧ GymEnv.e_action_space e' = GymEnv.e_action_space wrapped.
Proof.
  intros R Sim KwArgs PyArg gym_make name ws env_args e Hmake wrapped.
  unfold GymEnv.Gym_make_env. rewrite Hmake. simpl.
  rewrite GymMore.apply_wrappers_default. fold wrapped.
  eexists. split_and!; try reflexivity.
  simpl. apply lookup_insert_eq.
Qed.

Lemma wrappers_default_args_witness :
  let relabel : @GymEnv.WrapperClass Z nat unit unit :=
    λ e _ _, {| GymEnv.e_state := GymEnv.e_state e;
                GymEnv.e_step := GymEnv.e_step e;
                GymEnv.e_reset := GymEnv.e_reset e;
                GymEnv.e_observation_space := GymEnv.e_observation_space e;
                GymEnv.e_action_space := GymEnv.GDiscrete 3 |} in
  ∃ e',
    GymEnv.Gym_make_env Scripted.registry "Pair-v0"
      (Some [GymEnv.WClass relabel]) None tt = Ok e'
    ∧ GymEnv.e_action_space e' = GymEnv.GDiscrete 3
    ∧ GymEnv.attrs (GymEnv.e_state e') !! "_max_episode_steps"
      = Some GymEnv.AInf.
Proof.
  intros relabel.
  destruct (wrappers_default_args Z nat unit unit Scripted.registry "Pair-v0"
              [GymEnv.WClass relabel] tt
              (Scripted.pendulum
                 (GymEnv.GTuple [GymEnv.GDiscrete 2; GymEnv.GDiscrete 3])))
    as (e' & Hmake & _ & Hattr & _ & Hact).
  - reflexivity.
  - exists e'. split_and!; [exact Hmake|rewrite Hact; reflexivity|exact Hattr].
Defined.

(** X19.  The construction of the Gym adapter, once the environment is
    made, fails in exactly two ways: with AssertionError when the
    observation or the action space is multi-discrete, and with ValueError
    when neither is multi-discrete and one of them is not Discrete or Box.
    A failure of gym.make is passed on as it is. *)
Theorem gym_init_errors :
  ∀ (R Sim KwArgs PyArg : Type)
    (gym_make : string → KwArgs → result (@GymEnv.GymEnvObj R Sim))
    (pybullet_found : bool) (pybullet_envs : list string)
    name horizon gamma (wrappers : option (list (@GymEnv.Wrapper R Sim KwArgs PyArg)))
    wrappers_args env_args,
    let init := GymEnv.Gym_init gym_make pybullet_found pybullet_envs name
                  horizon gamma wrappers wrappers_args env_args in
    (∀ err, gym_make name env_args = Raise err → init = Raise err)
    ∧ (∀ e,
         GymEnv.Gym_make_env gym_make name wrappers wrappers_args env_args
           = Ok e →
         (GymEnv.is_GMultiDiscrete (GymEnv.e_observation_space e)
          || GymEnv.is_GMultiDiscrete (GymEnv.e_action_space e) = true →
          init = Raise AssertionError)
         ∧ (GymEnv.is_GMultiDiscrete (GymEnv.e_observation_space e) = false →
            GymEnv.is_GMultiDiscrete (GymEnv.e_action_space e) = false →
            GymEnv.is_GDiscrete_or_GBox (GymEnv.e_observation_space e)
            && GymEnv.is_GDiscrete_or_GBox (GymEnv.e_action_space e) = false →
            init = Raise ValueError)).
Proof.
  intros R Sim KwArgs PyArg gym_make pb pbl name horizon gamma wrappers wargs
    env_args init.
  unfold init, GymEnv.Gym_init. split.
  - intros err Hmake. unfold GymEnv.Gym_make_env. by rewrite Hmake.
  - intros e ->. simpl. split.
    + intros Hmulti.
      destruct (GymEnv.is_GMultiDiscrete (GymEnv.e_observation_space e));
        [done|].
      by destruct (GymEnv.is_GMultiDiscrete (GymEnv.e_action_space e)).
    + intros -> -> Hother.
      destruct (GymEnv.is_GDiscrete_or_GBox (GymEnv.e_action_space e)) eqn:Ha.
      * destruct (GymAdapter.convert_supported _ Ha) as (a & -> & _). simpl.
        rewrite andb_true_r in Hother.
        by rewrite (GymAdapter.convert_other _ Hother).
      * by rewrite (GymAdapter.convert_other _ Ha).
Qed.

Lemma gym_init_errors_witness :
  GymEnv.Gym_init (PyArg := unit) Scripted.registry false [] "Nothing-v0" 100
    (99 # 100) None None tt = Raise SimulatorError
  ∧ GymEnv.Gym_init (PyArg := unit) Scripted.registry false [] "Pair-v0" 100
      (99 # 100) None None tt = Raise ValueError.
Proof.
  destruct (gym_init_errors Z nat unit unit Scripted.registry false []
              "Nothing-v0" 100 (99 # 100) None None tt) as [Hmake _].
  destruct (gym_init_errors Z nat unit unit Scripted.registry false []
              "Pair-v0" 100 (99 # 100) None None tt) as [_ Herr].
  split.
  - apply Hmake. reflexivity.
  - edestruct Herr as [_ Hvalue]; [reflexivity|].
    apply Hvalue; reflexivity.
Defined.

(** X20.  The action conversion of the Gym adapter is fixed at construction
    from the action space.  Over a Discrete action space the environment is
    stepped with the first element of the action: a scalar that the agent
    has made a one-element vector reaches the environment as the scalar it
    was, and an action without dimension or without element raises
    IndexError, the environment not being stepped.  Over a Box action space
    the action reaches the environment as it is.  The observation returned
    is made at least one-dimensional; reward, absorbing flag and info are
    those of the environment. *)
Theorem gym_step_action :
  ∀ (R Sim KwArgs PyArg : Type)
    (gym_make : string → KwArgs → result (@GymEnv.GymEnvObj R Sim))
    (pybullet_found : bool) (pybullet_envs : list string)
    name horizon gamma (wrappers : option (list (@GymEnv.Wrapper R Sim KwArgs PyArg)))
    wrappers_args env_args g,
    GymEnv.Gym_init gym_make pybullet_found pybullet_envs name horizon gamma
      wrappers wrappers_args env_args = Ok g →
    let stepped action :=
      let '(e, out) := GymEnv.env_do_step (GymEnv.env g) action in
      Ok (GymEnv.with_env g e,
          (GymEnv.np_atleast_1d (GymEnv.g_obs out), GymEnv.g_reward out,
           GymEnv.g_absorbing out, GymEnv.g_info out)) in
    (∀ n, GymEnv.e_action_space (GymEnv.env g) = GymEnv.GDiscrete n →
       (∀ x, GymEnv.Gym_step g (GymEnv.np_atleast_1d (GymEnv.mkNd [] [x]))
             = stepped (GymEnv.mkNd [] [x]))
       ∧ (∀ data, GymEnv.Gym_step g (GymEnv.mkNd [] data) = Raise IndexError)
       ∧ (∀ ds, GymEnv.Gym_step g (GymEnv.mkNd (0%nat :: ds) [])
                = Raise IndexError))
    ∧ (∀ low high shape,
         GymEnv.e_action_space (GymEnv.env g) = GymEnv.GBox low high shape →
         ∀ action, GymEnv.Gym_step g action = stepped action).
Proof.
  intros R Sim KwArgs PyArg gym_make pb pbl name horizon gamma wrappers wargs
    env_args g Hinit stepped.
  apply GymMore.Gym_init_Ok in Hinit
    as (e & a & o & _ & Ha & _ & He & _ & _ & Hconv & _).
  rewrite He. unfold GymEnv.Gym_step. rewrite Hconv. unfold stepped.
  rewrite He. split.
  - intros n Hn. rewrite Hn in Ha. injection Ha as <-. simpl.
    split_and!; done.
  - intros low high shape Hb action. rewrite Hb in Ha. injection Ha as <-.
    simpl. by destruct (GymEnv.env_do_step e action).
Qed.

Lemma gym_step_action_witness :
  ∃ g : @GymEnv.Gym Z nat,
    GymEnv.Gym_init (PyArg := unit) Scripted.registry false [] "Pendulum-v0"
      100 (99 # 100) None None tt = Ok g
    ∧ ∃ g', GymEnv.Gym_step g (GymEnv.mkNd [1%nat] [2%Q])
            = Ok (g', (GymEnv.mkNd [3%nat] [0; 1; 0]%Q, -1, false, ∅)).
Proof.
  destruct (GymEnv.Gym_init (PyArg := unit) Scripted.registry false []
              "Pendulum-v0" 100 (99 # 100) None None tt) as [g|] eqn:Hinit;
    [|vm_compute in Hinit; discriminate Hinit].
  exists g. split; [reflexivity|].
  destruct (gym_step_action Z nat unit unit Scripted.registry false []
              "Pendulum-v0" 100 (99 # 100) None None tt g Hinit) as [_ Hbox].
  assert (He : GymEnv.env g
               = GymEnv.env_setattr (Scripted.pendulum Scripted.unit_box)
                   "_max_episode_steps" GymEnv.AInf).
  { apply GymMore.Gym_init_Ok in Hinit as (e & _ & _ & Hmake & _ & _ & -> & _).
    vm_compute in Hmake. injection Hmake as <-. reflexivity. }
  eexists. rewrite (Hbox _ _ _ ltac:(rewrite He; reflexivity)).
  rewrite He. reflexivity.
Defined.

(** X21.  An adapter starts with render not yet called, and it counts as a
    pybullet one exactly when pybullet is found and '- ' + name is in its
    list of environments.  A pybullet adapter renders its environment on the
    first call of render only, every later call leaving the adapter as it
    is, and stop never closes its environment.  Any other adapter renders
    its environment on every call. *)
Theorem render_once_under_pybullet :
  ∀ (R Sim KwArgs PyArg : Type)
    (gym_make : string → KwArgs → result (@GymEnv.GymEnvObj R Sim))
    (env_render : @GymEnv.GymEnvObj R Sim → string → @GymEnv.GymEnvObj R Sim)
    (env_close : @GymEnv.GymEnvObj R Sim → result (@GymEnv.GymEnvObj R Sim))
    (pybullet_found : bool) (pybullet_envs : list string)
    name horizon gamma (wrappers : option (list (@GymEnv.Wrapper R Sim KwArgs PyArg)))
    wrappers_args env_args g mode,
    GymEnv.Gym_init gym_make pybullet_found pybullet_envs name horizon gamma
      wrappers wrappers_args env_args = Ok g →
    let pybullet :=
      pybullet_found && bool_decide (("- " +:+ name) ∈ pybullet_envs) in
    (pybullet = true →
     (∀ n, GymEnv.env (GymAux.Gym_renders env_render (S n) g mode)
           = env_render (GymEnv.env g) mode)
     ∧ (∀ n, GymAux.Gym_renders env_render (S n) g mode
             = GymAux.Gym_render env_render g mode)
     ∧ GymAux.Gym_stop env_close g = g)
    ∧ (pybullet = false →
       ∀ n, GymEnv.env (GymAux.Gym_renders env_render n g mode)
            = Nat.iter n (λ e, env_render e mode) (GymEnv.env g)).
Proof.
  intros R Sim KwArgs PyArg gym_make env_render env_close pb pbl name horizon
    gamma wrappers wargs env_args g mode Hinit pybullet.
  apply GymMore.Gym_init_Ok in Hinit
    as (e & a & o & _ & _ & _ & _ & Hfirst & Hnot & _).
  fold pybullet in Hnot. split.
  - intros Hpy. rewrite Hpy in Hnot. simpl in Hnot.
    assert (Hidle : ∀ n g', GymEnv._first g' = false →
                      GymEnv._not_pybullet g' = false →
                      GymAux.Gym_renders env_render n g' mode = g').
    { induction n as [|n IH]; intros g' Hf Hn; simpl; [done|].
      unfold GymAux.Gym_render at 1. rewrite Hf, Hn. simpl. by apply IH. }
    assert (Hall : ∀ n, GymAux.Gym_renders env_render (S n) g mode
                        = GymAux.Gym_render env_render g mode).
    { intros n. simpl. apply Hidle.
      - unfold GymAux.Gym_render. by rewrite Hfirst.
      - unfold GymAux.Gym_render. by rewrite Hfirst. }
    split_and!.
    + intros n. rewrite Hall. unfold GymAux.Gym_render. by rewrite Hfirst.
    + exact Hall.
    + unfold GymAux.Gym_stop. by rewrite Hnot.
  - intros Hpy. rewrite Hpy in Hnot. simpl in Hnot.
    assert (Hgen : ∀ n g', GymEnv._not_pybullet g' = true →
              GymEnv.env (GymAux.Gym_renders env_render n g' mode)
              = Nat.iter n (λ e, env_render e mode) (GymEnv.env g')).
    { induction n as [|n IH]; intros g' Hn; [done|].
      simpl GymAux.Gym_renders. rewrite IH.
      - rewrite Nat.iter_succ_r. unfold GymAux.Gym_render.
        by rewrite Hn, orb_true_r.
      - unfold GymAux.Gym_render. by rewrite Hn, orb_true_r. }
    intros n. by apply Hgen.
Qed.

Lemma render_once_under_pybullet_witness :
  let count : @GymEnv.GymEnvObj Z nat → string → @GymEnv.GymEnvObj Z nat :=
    λ e _, GymEnv.set_state e
             (GymEnv.mkEnvState (S (GymEnv.dyn (GymEnv.e_state e)))
                (GymEnv.attrs (GymEnv.e_state e))) in
  ∃ g : @GymEnv.Gym Z nat,
    GymEnv.Gym_init (PyArg := unit) Scripted.registry true ["- Pendulum-v0"]
      "Pendulum-v0" 100 (99 # 100) None None tt = Ok g
    ∧ GymEnv.dyn (GymEnv.e_state
        (GymEnv.env (GymAux.Gym_renders count 3 g "human"))) = 1%nat
    ∧ GymAux.Gym_stop (λ _, Raise SimulatorError) g = g.
Proof.
  intros count.
  destruct (GymEnv.Gym_init (PyArg := unit) Scripted.registry true
              ["- Pendulum-v0"] "Pendulum-v0" 100 (99 # 100) None None tt)
    as [g|] eqn:Hinit; [|vm_compute in Hinit; discriminate Hinit].
  exists g. split; [reflexivity|].
  destruct (render_once_under_pybullet Z nat unit unit Scripted.registry count
              (λ _, Raise SimulatorError) true ["- Pendulum-v0"] "Pendulum-v0"
              100 (99 # 100) None None tt g "human" Hinit) as [Hpy _].
  destruct (Hpy eq_refl) as (Henv & _ & Hstop).
  split; [|exact Hstop].
  rewrite (Henv 2%nat).
  apply GymMore.Gym_init_Ok in Hinit as (e & _ & _ & Hmake & _ & _ & -> & _).
  vm_compute in Hmake. injection Hmake as <-. reflexivity.
Defined.

(** X22.  A wrapped step that ends on an absorbing sub-step before index
    skip-2 repeats the frame of the wrapped step before it: what
    MaxAndSkip.step returns is always the pooling of the buffer it leaves,
    and such a step leaves the buffer as it found it. *)
Theorem early_end_repeats_frame :
  ∀ (R : Type) (HR : Reward R) (Sim : Type) (G : GymLib R Sim)
    (w w1 : MaxAndSkip) (h h1 : Handle Sim) action1 frame1 total1 absorbing1
    info1 action2 j (o : Outcome R),
    MaxAndSkip_step G w h action1
      = Ok (w1, h1, (frame1, total1, absorbing1, info1)) →
    substeps G (_skip w1) (sim h1) action2 !! j = Some o →
    o_absorbing o = true →
    Z.of_nat j < _skip w1 - 2 →
    ∃ h2 total2,
      MaxAndSkip_step G w1 h1 action2
        = Ok (w1, h2, (frame1, total2, true, o_info o)).
Proof.
  intros R HR Sim G w w1 h h1 action1 frame1 total1 absorbing1 info1 action2
    j o Hfirst Hj Habs Hlt.
  assert (Hpool : frame1 = pool w1).
  { unfold MaxAndSkip_step in Hfirst.
    destruct (l_last _) as [[ab inf]|]; [|done].
    by injection Hfirst as <- _ <- _ _ _. }
  destruct (MaxAndSkip_step_early G w1 h1 action2 j o Hj Habs Hlt)
    as (h2 & total2 & Hstep & _).
  exists h2, total2. by rewrite Hpool.
Qed.

Lemma early_end_repeats_frame_witness :
  let G := Scripted.game Scripted.breakout [7; 7] Cases.two_episodes in
  let h := mkHandle Cases.two_episodes [] in
  ∃ w1 h1 total1 info1 h2 total2 info2,
    MaxAndSkip_step G (MaxAndSkip_init G h 4 true) h 2
      = Ok (w1, h1, (U8 [30; 40], total1, false, info1))
    ∧ MaxAndSkip_step G w1 h1 2
      = Ok (w1, h2, (U8 [30; 40], total2, true, info2)).
Proof.
  intros G h.
  destruct (MaxAndSkip_step G (MaxAndSkip_init G h 4 true) h 2)
    as [[[w1 h1] [[[f1 t1] ab1] i1]]|] eqn:Hstep;
    [|vm_compute in Hstep; discriminate Hstep].
  assert (Hfields : f1 = U8 [30; 40] ∧ ab1 = false ∧ _skip w1 = 4
                    ∧ sim h1 = Scripted.over_at_once).
  { vm_compute in Hstep. injection Hstep as <- <- <- _ <- _.
    split_and!; reflexivity. }
  destruct Hfields as (Hf & Hab & Hs & Hsim).
  destruct (early_end_repeats_frame Z _ _ G _ w1 h h1 2 f1 t1 ab1 i1 2 0%nat
              (Scripted.outcome (Scripted.mkBeat [10; 200] 5 true 0)) Hstep)
    as (h2 & total2 & Hsecond).
  - rewrite Hs, Hsim. reflexivity.
  - reflexivity.
  - rewrite Hs. simpl. lia.
  - eexists w1, h1, t1, i1, h2, total2, _.
    split; [by rewrite Hf, Hab|]. rewrite Hsecond, Hf. reflexivity.
Defined.

(** X23.  Without the frame-skip wrapper (a game whose name has no
    'NoFrameskip') a step of the adapter applies the action of the caller
    in exactly one step of the simulator, after the priming steps, and
    pushes the preprocessed raw frame of that step; reward and info are
    those of that step. *)
Theorem plain_step_is_one_raw_step :
  ∀ (R : Type) (HR : Reward R) (Sim : Type) (G : GymLib R Sim) (PFrame : Type)
    (preprocess_frame : ndarray → option (option Z * option Z) → bool → PFrame)
    (a : @Atari Sim PFrame) action n d,
    skip_of (env a) = None →
    _current_no_op a = Some n →
    _state a = Some d →
    let o := (env_step G (sim (handle (prime_env G a))) action).2 in
    is_Some (o_info o !! "ale.lives") →
    is_Some (get_action_meanings G
               (env_step G (sim (handle (prime_env G a))) action).1 !! 1%nat) →
    ∃ a' out,
      Atari_step G preprocess_frame a action = Ok (a', out)
      ∧ calls (handle (env a'))
        = calls (handle (env a)) ++ priming_calls a n ++ [CStep action]
      ∧ s_reward out = o_reward o
      ∧ s_info out = o_info o
      ∧ _real_reset a' = o_absorbing o
      ∧ _state a'
        = Some (deque_append d
                  (preprocess_frame (U8 (o_obs o)) (_img_size a)
                     (grey_and_rescale a))).
Proof.
  intros R HR Sim G PFrame pf a action n d Hplain Hn Hd o [lives Hl] [m Hm].
  destruct (AtariFacts.prime_spec G a n Hn) as (e2 & Hprime & He2 & Hc2).
  assert (He : prime_env G a = e2) by (unfold prime_env; by rewrite Hprime).
  subst o. rewrite He in *.
  assert (Hw : wrapped_step G e2 action
               = Ok (with_handle e2 (raw_step G (handle e2) action).1,
                     (U8 (o_obs (env_step G (sim (handle e2)) action).2),
                      o_reward (env_step G (sim (handle e2)) action).2,
                      o_absorbing (env_step G (sim (handle e2)) action).2,
                      o_info (env_step G (sim (handle e2)) action).2))).
  { assert (Hk : skip_of e2 = None).
    { rewrite He2. by rewrite (AtariFacts.skip_of_with_handle (Sim := Sim)). }
    unfold wrapped_step, raw_step.
    destruct e2 as [w h|h|h]; [done| |]; simpl;
      by destruct (env_step G (sim h) action). }
  assert (Hsim : sim (handle (with_handle e2 (raw_step G (handle e2) action).1))
                 = (env_step G (sim (handle e2)) action).1
                 ∧ calls (handle (with_handle e2 (raw_step G (handle e2) action).1))
                   = calls (handle e2) ++ [CStep action]).
  { rewrite (AtariFacts.handle_with_handle (Sim := Sim)). unfold raw_step.
    by destruct (env_step G (sim (handle e2)) action). }
  destruct Hsim as [Hsim Hcalls].
  pose proof (AtariFacts.Atari_step_locals_spec G pf a action e2 _ _ _ _ _ _ _
                lives d m Hprime Hw Hl
                (λ _, eq_trans (f_equal (λ s, get_action_meanings G s !! 1%nat)
                                   Hsim) Hm) Hd) as Hloc.
  simpl in Hloc. apply AtariFacts.Atari_step_of_locals in Hloc.
  eexists _, _. split; [exact Hloc|]. simpl.
  split_and!; try done.
  by rewrite Hcalls, Hc2, <- app_assoc.
Qed.

Lemma plain_step_is_one_raw_step_witness :
  let G := Scripted.game Scripted.breakout [7; 7] Scripted.rewards_1002 in
  ∃ (a0 a1 a2 : @Atari (list Scripted.Beat) ndarray) frames out,
    Atari_init G false [] "Breakout-v0" (Some 84) (Some 84) false true 4 30
      = Ok a0
    ∧ Atari_reset G Scripted.keep a0 1 = Ok (a1, frames)
    ∧ Atari_step G Scripted.keep a1 3 = Ok (a2, out)
    ∧ calls (handle (env a2)) = [CReset; CStep 1; CStep 0; CStep 3]
    ∧ s_reward out = 0.
Proof.
  intros G.
  destruct (Atari_init (PFrame := ndarray) G false [] "Breakout-v0" (Some 84)
              (Some 84) false true 4 30) as [a0|] eqn:Hinit;
    [|vm_compute in Hinit; discriminate Hinit].
  destruct (Atari_reset G Scripted.keep a0 1) as [[a1 frames]|] eqn:Hreset;
    [|vm_compute in Hinit; injection Hinit as <-;
      vm_compute in Hreset; discriminate Hreset].
  assert (Ha1 : a1 = {| env := EPlain (mkHandle Scripted.rewards_1002 [CReset]);
                        augmented := false; grey_and_rescale := true;
                        _img_size := Some (Some 84, Some 84);
                        _episode_ends_at_life := false;
                        _max_lives := 3; _lives := 3;
                        _force_fire := Some true; _real_reset := true;
                        _max_no_op_actions := 30; _history_length := 4;
                        _current_no_op := Some 1;
                        _state := Some (mkDeque (replicate 4 (U8 [7; 7])) 4) |}).
  { vm_compute in Hinit. injection Hinit as <-.
    vm_compute in Hreset. by injection Hreset as <- _. }
  edestruct (plain_step_is_one_raw_step Z _ _ G _ Scripted.keep a1 3 1)
    as (a2 & out & Hstep & Hc & Hr & _).
  - rewrite Ha1. reflexivity.
  - rewrite Ha1. reflexivity.
  - rewrite Ha1. reflexivity.
  - rewrite Ha1. by eexists.
  - by eexists.
  - exists a0, a1, a2, frames, out.
    split_and!; [reflexivity|exact Hreset|exact Hstep| |].
    + rewrite Hc, Ha1. reflexivity.
    + rewrite Hr, Ha1. reflexivity.
Defined.
